(** * Token lifecycle and batch upload of the WeChat shop product uploader

    A shallow embedding of [src/core/product_uploader.py] (class
    [ProductUploader]) and of the token, request and history parts of
    [src/api/wechat_shop_api.py] (class [WeChatShopAPIClient], and the
    conversion of CSV rows into products), with the properties of the
    specification stated and settled over it, and further properties
    read off the code. *)

From Stdlib Require Import ZArith QArith Qround Lqa Lia.
From stdpp Require Import base option list gmap strings pretty.
Close Scope Q_scope.
Open Scope string_scope.

(** ** Python values *)

Module Py.

#[local] Set Warnings "-register-all".

(** A float that is no finite number: [json] reads [1e999] as
    [inf], and accepts [Infinity] and [NaN]. *)
Inductive special : Type := PosInf | NegInf | NaN.

(** The JSON-shaped values the program handles: products, configuration
    dictionaries, decoded response bodies. A finite float is the
    rational it stands for. A [VDict] keeps its items in insertion
    order; lookup takes the first item with the key. *)
Inductive value : Type :=
| VNone
| VBool (b : bool)
| VInt (z : Z)
| VFloat (q : Q)
| VSpecial (x : special)
| VStr (s : string)
| VList (l : list value)
| VDict (d : list (string * value)).

Abbreviation pydict := (list (string * value)).

(** Classes of the exceptions that occur; all derive from [Exception].
    [Deadlock] is no Python exception: it stands for a call that waits
    forever on a semaphore of value 0. *)
Inductive exn_class : Type :=
| Exception
| ImportError
| ValueError
| TypeError
| KeyError
| AttributeError
| NameError
| UnboundLocalError
| ConnectionError
| Timeout
| ChunkedEncodingError
| HTTPError
| OverflowError
| RecursionError
| Deadlock.

Record exn : Type := MkExn { exn_cls : exn_class; exn_str : string }.

(** [isinstance(e, NameError)]: [UnboundLocalError] derives from it. *)
Definition is_NameError (c : exn_class) : bool :=
  match c with NameError | UnboundLocalError => true | _ => false end.

(** [isinstance(e, requests.exceptions.RequestException)] *)
Definition is_RequestException (c : exn_class) : bool :=
  match c with
  | ConnectionError | Timeout | ChunkedEncodingError | HTTPError => true
  | _ => false
  end.

Definition Qlt_bool (x y : Q) : bool := negb (Qle_bool y x).

(** [bool(v)] *)
Definition truthy (v : value) : bool :=
  match v with
  | VNone => false
  | VBool b => b
  | VInt z => negb (z =? 0)%Z
  | VFloat q => negb (Qeq_bool q 0)
  | VSpecial _ => true
  | VStr s => negb (String.eqb s EmptyString)
  | VList l => match l with [] => false | _ => true end
  | VDict d => match d with [] => false | _ => true end
  end.

(** [v == z] for an integer literal [z]: numbers compare by value and
    [True]/[False] count as 1/0. *)
Definition eq_int (v : value) (z : Z) : bool :=
  match v with
  | VInt x => (x =? z)%Z
  | VBool b => ((if b then 1 else 0) =? z)%Z
  | VFloat q => Qeq_bool q (inject_Z z)
  | _ => false
  end.

Fixpoint dict_get (d : pydict) (k : string) : option value :=
  match d with
  | [] => None
  | (k', v) :: d' => if String.eqb k' k then Some v else dict_get d' k
  end.

(** [d.get(k, default)] *)
Definition dict_get_default (d : pydict) (k : string) (default : value) : value :=
  match dict_get d k with Some v => v | None => default end.

(** [k in d] *)
Definition dict_has (d : pydict) (k : string) : bool :=
  match dict_get d k with Some _ => true | None => false end.

(** [d[k] = v] *)
Fixpoint dict_set (d : pydict) (k : string) (v : value) : pydict :=
  match d with
  | [] => [(k, v)]
  | (k', v') :: d' =>
      if String.eqb k' k then (k, v) :: d' else (k', v') :: dict_set d' k v
  end.

(** [d.update(other)] *)
Definition dict_update (d other : pydict) : pydict :=
  fold_left (fun acc kv => dict_set acc kv.1 kv.2) other d.

(** [needle in haystack] on strings *)
Fixpoint is_substring (needle haystack : string) : bool :=
  String.prefix needle haystack
  || match haystack with
     | EmptyString => false
     | String _ rest => is_substring needle rest
     end.

Definition is_VStr (s : string) (v : value) : bool :=
  match v with VStr s' => String.eqb s' s | _ => false end.

(** [k in v] for a string [k]: key test on a dict, element test on a
    list, substring test on a string, [TypeError] on the rest. *)
Definition contains (v : value) (k : string) : exn + bool :=
  match v with
  | VDict d => inr (dict_has d k)
  | VList l => inr (existsb (is_VStr k) l)
  | VStr s => inr (is_substring k s)
  | _ => inl (MkExn TypeError "argument is not iterable")
  end.

(** [v[k]] for a string [k] *)
Definition getitem (v : value) (k : string) : exn + value :=
  match v with
  | VDict d =>
      match dict_get d k with
      | Some x => inr x
      | None => inl (MkExn KeyError k)
      end
  | _ => inl (MkExn TypeError "indices must be integers")
  end.

(** [v.get(k, default)] *)
Definition get_method (v : value) (k : string) (default : value) : exn + value :=
  match v with
  | VDict d => inr (dict_get_default d k default)
  | _ => inl (MkExn AttributeError "object has no attribute 'get'")
  end.

(** [len(v)] *)
Definition len (v : value) : exn + Z :=
  match v with
  | VStr s => inr (Z.of_nat (String.length s))
  | VList l => inr (Z.of_nat (length l))
  | VDict d => inr (Z.of_nat (length d))
  | _ => inl (MkExn TypeError "object has no len()")
  end.

(** *** Floats

    Python's floats are IEEE doubles. A float is a rational (a double,
    when it comes out of an operation) or one of the three special
    values; an operation computes on the exact operands and rounds the
    exact result to the nearest double. *)
Inductive float : Type := Finite (q : Q) | Special (x : special).

(** [round(x)]: to the nearest integer, ties to the even one. *)
Definition rint (q : Q) : Z :=
  let f := Qfloor q in
  let r := (q - inject_Z f)%Q in
  if Qlt_bool r (1 # 2) then f
  else if Qlt_bool (1 # 2) r then (f + 1)%Z
  else if Z.even f then f else (f + 1)%Z.

(** [2 ^ e] for an exponent of either sign. *)
Definition pow2 (e : Z) : Q :=
  if (0 <=? e)%Z then inject_Z (2 ^ e) else (1 # Z.to_pos (2 ^ (- e)))%Q.

(** The exponent of the unit in the last place of the double nearest
    to [q]: 53 bits of precision, no exponent below -1074. *)
Definition ulp_exponent (q : Q) : Z :=
  let a := Z.abs (Qnum q) in
  let d := Zpos (Qden q) in
  let e0 := (Z.log2 a - Z.log2 d - 52)%Z in
  let scaled e := (inject_Z a / (inject_Z d * pow2 e))%Q in
  let e1 :=
    if Qle_bool (inject_Z (2 ^ 53)) (scaled e0) then (e0 + 1)%Z
    else if Qlt_bool (scaled e0) (inject_Z (2 ^ 52)) then (e0 - 1)%Z
    else e0 in
  Z.max e1 (-1074).

(** The double nearest to the rational [q], ties to the even mantissa;
    past the largest double it is an infinity. *)
Definition to_double (q : Q) : float :=
  if Qeq_bool q 0 then Finite 0
  else
    let e := ulp_exponent q in
    let m := rint (q / pow2 e) in
    let r := Qred (inject_Z m * pow2 e) in
    if Qle_bool (inject_Z (2 ^ 1024)) r then Special PosInf
    else if Qle_bool r (- inject_Z (2 ^ 1024)) then Special NegInf
    else Finite r.

(** [x + y] on floats *)
Definition fadd (x y : float) : float :=
  match x, y with
  | Finite a, Finite b => to_double (a + b)
  | Special NaN, _ | _, Special NaN => Special NaN
  | Special PosInf, Special NegInf | Special NegInf, Special PosInf => Special NaN
  | Special s, _ => Special s
  | _, Special s => Special s
  end.

(** [- x] *)
Definition fneg (x : float) : float :=
  match x with
  | Finite a => Finite (- a)
  | Special PosInf => Special NegInf
  | Special NegInf => Special PosInf
  | Special NaN => Special NaN
  end.

(** [x - y] *)
Definition fsub (x y : float) : float := fadd x (fneg y).

(** [x * y] for a finite [y] other than 0 *)
Definition fmul (x : float) (y : Q) : float :=
  match x with
  | Finite a => to_double (a * y)
  | Special NaN => Special NaN
  | Special PosInf => Special (if Qlt_bool y 0 then NegInf else PosInf)
  | Special NegInf => Special (if Qlt_bool y 0 then PosInf else NegInf)
  end.

(** [t < x] for a finite [t]: no number is below [nan]. *)
Definition flt (t : Q) (x : float) : bool :=
  match x with
  | Finite q => Qlt_bool t q
  | Special PosInf => true
  | Special _ => false
  end.

(** [round(x, 2)]: the exact value is rounded to two decimal places,
    ties to even, and the double nearest to that is returned. *)
Definition fround2 (x : float) : float :=
  match x with
  | Finite q => to_double (inject_Z (rint (q * 100)) / 100)
  | Special s => Special s
  end.

(** An integer that has no double: [float(z)] raises [OverflowError]. *)
Definition int_overflows (z : Z) : bool :=
  (2 ^ 1024 - 2 ^ 970 <=? Z.abs z)%Z.

(** A float as a value *)
Definition of_float (x : float) : value :=
  match x with Finite q => VFloat q | Special s => VSpecial s end.

(** The operand [v] of [x + v] for a float [x]: an integer is
    converted to the nearest double. *)
Definition as_float (v : value) : exn + float :=
  match v with
  | VInt z =>
      if int_overflows z
      then inl (MkExn OverflowError "int too large to convert to float")
      else inr (to_double (inject_Z z))
  | VBool b => inr (Finite (if b then 1 else 0))
  | VFloat q => inr (Finite q)
  | VSpecial s => inr (Special s)
  | _ => inl (MkExn TypeError "unsupported operand type(s) for +")
  end.

End Py.
Import Py.

(** ** Effects: state and Python exceptions *)

Module Eff.

Inductive outcome (A : Type) : Type :=
| Ret (a : A)
| Raise (e : exn).
Arguments Ret {A} a.
Arguments Raise {A} e.

(** A computation over a store [S]: it ends by returning or by raising,
    and leaves a store either way. *)
Definition M (S A : Type) : Type := S -> outcome A * S.

Definition ret {S A} (a : A) : M S A := fun s => (Ret a, s).
Definition raise {S A} (e : exn) : M S A := fun s => (Raise e, s).
Definition bind {S A B} (m : M S A) (f : A -> M S B) : M S B :=
  fun s =>
    match m s with
    | (Ret a, s') => f a s'
    | (Raise e, s') => (Raise e, s')
    end.
Definition get {S} : M S S := fun s => (Ret s, s).
Definition modify {S} (f : S -> S) : M S unit := fun s => (Ret tt, f s).

(** The result of a primitive that either raises or yields a value. *)
Definition of_sum {S A} (r : exn + A) : M S A :=
  match r with inl e => raise e | inr a => ret a end.

(** [try: m except Exception as e: h e]. Writes made by [m] before it
    raised stay in the store. *)
Definition try_catch {S A} (m : M S A) (h : exn -> M S A) : M S A :=
  fun s =>
    match m s with
    | (Raise e, s') => h e s'
    | r => r
    end.

(** Run a computation on the second component of a pair store. *)
Definition lift_snd {F S A} (m : M S A) : M (F * S) A :=
  fun fs => let (r, s') := m fs.2 in (r, (fs.1, s')).

(** Run a computation on the first component of a pair store. *)
Definition lift_fst {F S A} (m : M F A) : M (F * S) A :=
  fun fs => let (r, f') := m fs.1 in (r, (f', fs.2)).

(** Run a function body with its own frame of locals, initially [f0];
    the frame is dropped when the body returns or raises. *)
Definition with_frame {F S A} (f0 : F) (m : M (F * S) A) : M S A :=
  fun s => let (r, fs) := m (f0, s) in (r, fs.2).

(** The tasks of [tasks] run to completion one after the other in the
    order [order] (positions in [tasks]); each result goes to the slot
    of its task's position. *)
Fixpoint run_tasks {S A} (tasks : list (M S A)) (order : list nat)
    (slots : gmap nat A) : M S (gmap nat A) :=
  match order with
  | [] => fun s => (Ret slots, s)
  | k :: rest =>
      match tasks !! k with
      | Some task =>
          fun s =>
            match task s with
            | (Ret a, s') => run_tasks tasks rest (<[k := a]> slots) s'
            | (Raise e, s') => (Raise e, s')
            end
      | None => run_tasks tasks rest slots
      end
  end.

(** [await asyncio.gather] over the tasks, when they complete in the order
    [order]: the results come back in the order of [tasks], and the
    first exception raised is propagated. *)
Definition gather {S A} (tasks : list (M S A)) (order : list nat) : M S (list A) :=
  fun s =>
    match run_tasks tasks order ∅ s with
    | (Ret slots, s') => (Ret (omap (fun k => slots !! k) (seq 0 (length tasks))), s')
    | (Raise e, s') => (Raise e, s')
    end.

Declare Scope eff_scope.
Delimit Scope eff_scope with eff.
Notation "x <- m ;; k" := (bind m (fun x => k))
  (at level 100, m at next level, right associativity) : eff_scope.
Notation "m ;;; k" := (bind m (fun _ => k))
  (at level 100, right associativity) : eff_scope.

End Eff.
Import Eff.
Open Scope eff_scope.

(** ** The world outside the program: clock, network, environment *)

Module World.

Inductive http_method : Type := GET | POST.

(** One call of [session.get] / [session.post]: the URL as its two
    parts (base and path), the query parameters and the JSON body. *)
Record request : Type := MkRequest {
  req_method : http_method;
  req_base : value;
  req_path : value;
  req_params : pydict;
  req_json : value
}.

(** What a call gives once [raise_for_status()] and [json()] have run:
    the decoded body, or the exception one of the three raised. *)
Inductive http_result : Type :=
| Json (body : value)
| Fails (e : exn).

Record reply : Type := MkReply { latency : Q; result : http_result }.

(** Observable actions on the world, oldest first in a trace. *)
Inductive event : Type :=
| EvSleep (seconds : Q)
| EvRequest (r : request).

(** [now] is what [time.time()] reads, a double; [remote n r] is the
    answer of the remote service to request [r] when [n] requests were
    served before it; [calendar t] says whether the platform has a
    local date for the instant [t], that is whether
    [datetime.fromtimestamp(t)] returns. *)
Record world : Type := MkWorld {
  now : Q;
  trace : list event;
  served : nat;
  remote : nat -> request -> reply;
  environ : list (string * string);
  calendar : Q -> bool
}.

Definition emit (e : event) (w : world) : world :=
  MkWorld (now w) (trace w ++ [e]) (served w) (remote w) (environ w) (calendar w).

Definition advance (d : Q) (w : world) : world :=
  MkWorld (now w + d)%Q (trace w) (served w) (remote w) (environ w) (calendar w).

(** [time.time()] *)
Definition time_time : M world Q := fun w => (Ret (now w), w).

(** [time.sleep(d)]; a negative length raises [ValueError]. *)
Definition time_sleep (d : Q) : M world unit :=
  if Qlt_bool d 0
  then raise (MkExn ValueError "sleep length must be non-negative")
  else modify (fun w => advance d (emit (EvSleep d) w)).

(** The request leaves: the remote service answers it, and the answer
    is on its way back. *)
Definition issue (r : request) : M world reply :=
  fun w =>
    (Ret (remote w (served w) r),
     MkWorld (now w) (trace w ++ [EvRequest r]) (S (served w)) (remote w) (environ w)
             (calendar w)).

(** The answer has arrived: [raise_for_status()] and [json()] give the
    decoded body or raise. *)
Definition receive (rep : reply) : M world value :=
  fun w =>
    let w' := MkWorld (now w + latency rep)%Q (trace w) (served w) (remote w) (environ w)
                   (calendar w) in
    match result rep with
    | Json body => (Ret body, w')
    | Fails e => (Raise e, w')
    end.

(** [session.get(...)] or [session.post(...)], then
    [raise_for_status()] and [json()]: a blocking call. *)
Definition send (r : request) : M world value :=
  rep <- issue r ;; receive rep.

(** [os.environ.get(k)] *)
Fixpoint environ_get (env : list (string * string)) (k : string) : option string :=
  match env with
  | [] => None
  | (k', v) :: env' => if String.eqb k' k then Some v else environ_get env' k
  end.

Definition is_sleep (e : event) : bool :=
  match e with EvSleep _ => true | _ => false end.

Definition is_token_request (e : event) : bool :=
  match e with
  | EvRequest r => match req_method r with GET => true | POST => false end
  | _ => false
  end.

Definition is_post (e : event) : bool :=
  match e with
  | EvRequest r => match req_method r with POST => true | GET => false end
  | _ => false
  end.

Definition count (p : event -> bool) (t : list event) : nat :=
  length (filter (fun e => p e = true) t).

End World.
Import World.

(** ** [WeChatShopAPIClient]: token, requests, operation history *)

Module WeChatShopAPIClient.

Record client : Type := MkClient {
  api_config : pydict;
  access_token : value;
  token_expire_time : float;
  api_paths : pydict;
  operation_history : list value
}.

Definition set_access_token (v : value) (c : client) : client :=
  MkClient (api_config c) v (token_expire_time c) (api_paths c) (operation_history c).

Definition set_token_expire_time (t : float) (c : client) : client :=
  MkClient (api_config c) (access_token c) t (api_paths c) (operation_history c).

Definition set_operation_history (h : list value) (c : client) : client :=
  MkClient (api_config c) (access_token c) (token_expire_time c) (api_paths c) h.

(** The store a method runs on: the object and the world. *)
Abbreviation store := (client * world)%type.

Definition self : M store client := fun s => (Ret s.1, s).
Definition update_self (f : client -> client) : M store unit :=
  modify (fun s => (f s.1, s.2)).
Definition in_world {A} (m : M world A) : M store A := lift_snd m.

(** [WECHAT_SHOP_REQUIRED_FIELDS] *)
Definition WECHAT_SHOP_REQUIRED_FIELDS : list string :=
  [ "product_id"; "product_name"; "category_id"; "main_image"; "image_list";
    "price"; "original_price"; "product_desc"; "sku_list"; "attributes";
    "product_status" ].

Section Methods.

(** The module globals [WECHAT_API_CONFIG] and [API_PATHS] are read from
    configuration files when the module is imported, and [pystr] is
    Python's [str()] as the f-strings of the error messages apply it. *)
Variable WECHAT_API_CONFIG : pydict.
Variable API_PATHS : pydict.
Variable pystr : value -> string.

(** [__init__(self, appid, appsecret, api_config)] *)
Definition __init__ (appid appsecret : value) (config : pydict) : client :=
  let cfg0 := WECHAT_API_CONFIG in
  let cfg1 := match config with [] => cfg0 | _ => dict_update cfg0 config end in
  let cfg2 := if truthy appid then dict_set cfg1 "appid" appid else cfg1 in
  let cfg3 := if truthy appsecret then dict_set cfg2 "appsecret" appsecret else cfg2 in
  MkClient cfg3 (dict_get_default cfg3 "access_token" (VStr EmptyString)) (Finite 0)
           API_PATHS [].

Definition environ_truthy (w : world) (k : string) : bool :=
  match environ_get (environ w) k with
  | Some s => negb (String.eqb s EmptyString)
  | None => false
  end.

(** [_check_config(self)] *)
Definition _check_config (c : client) (w : world) : bool :=
  forallb
    (fun config =>
       if String.eqb config "appid" && environ_truthy w "WECHAT_APPID" then true
       else if String.eqb config "appsecret" && environ_truthy w "WECHAT_APPSECRET" then true
       else truthy (dict_get_default (api_config c) config VNone))
    ["api_base_url"; "appid"; "appsecret"].

(** [os.environ.get(k, default)] with the default already evaluated *)
Definition environ_or (w : world) (k : string) (default : value) : value :=
  match environ_get (environ w) k with
  | Some s => VStr s
  | None => default
  end.

Definition token_request (c : client) (w : world) (appid appsecret base : value) : request :=
  MkRequest GET base
    (dict_get_default (api_paths c) "access_token" (VStr "/cgi-bin/token"))
    [("grant_type", VStr "client_credential"); ("appid", appid); ("secret", appsecret)]
    VNone.

(** The test at the top of [_refresh_access_token]: the cached token
    is set and the clock is strictly before its stored expiry. *)
Definition token_is_valid (c : client) (t : Q) : bool :=
  truthy (access_token c) && flt t (token_expire_time c).

(** The [try] body of [_refresh_access_token] up to the call of
    [session.get]: the request it is about to send. *)
Definition refresh_prepare (c : client) (w : world) : exn + request :=
  match getitem (VDict (api_config c)) "appid" with
  | inl e => inl e
  | inr cfg_appid =>
      match getitem (VDict (api_config c)) "appsecret" with
      | inl e => inl e
      | inr cfg_secret =>
          match getitem (VDict (api_config c)) "api_base_url" with
          | inl e => inl e
          | inr base =>
              inr (token_request c w
                     (environ_or w "WECHAT_APPID" cfg_appid)
                     (environ_or w "WECHAT_APPSECRET" cfg_secret)
                     base)
          end
      end
  end.

(** [datetime.fromtimestamp(x)], which the f-string of the log line
    of a successful refresh evaluates. *)
Definition fromtimestamp (w : world) (x : float) : exn + unit :=
  match x with
  | Finite t =>
      if calendar w t then inr tt
      else inl (MkExn ValueError "year is out of range")
  | Special NaN => inl (MkExn ValueError "cannot convert float NaN to integer")
  | Special _ => inl (MkExn OverflowError "cannot convert float infinity to integer")
  end.

(** The [try] body of [_refresh_access_token] from the decoded
    [result] up to its [return]: [true] stands before
    [return self.access_token], [false] before [return None]. *)
Definition refresh_store (result : value) : M store bool :=
  has <- of_sum (contains result "access_token") ;;
  if has : bool then
    tok <- of_sum (getitem result "access_token") ;;
    update_self (set_access_token tok) ;;;
    t' <- in_world time_time ;;
    expires_in <- of_sum (get_method result "expires_in" (VInt 7200)) ;;
    n <- of_sum (as_float expires_in) ;;
    update_self (set_token_expire_time (fsub (fadd (Finite t') n) (Finite 1200))) ;;;
    c <- self ;;
    w <- in_world get ;;
    of_sum (fromtimestamp w (token_expire_time c)) ;;;
    ret true
  else
    of_sum (get_method result "errmsg" VNone) ;;;
    ret false.

(** [int(self.token_expire_time - time.time())], which the f-string of
    the log line of the cached branch evaluates: the clock is before
    the expiry there, so the difference is a number or [inf]. *)
Definition remaining_seconds (c : client) : exn + unit :=
  match token_expire_time c with
  | Finite _ => inr tt
  | Special _ => inl (MkExn OverflowError "cannot convert float infinity to integer")
  end.

(** [_refresh_access_token(self)]; [None] is [VNone]. *)
Definition _refresh_access_token : M store value :=
  c <- self ;;
  t <- in_world time_time ;;
  if token_is_valid c t then
    of_sum (remaining_seconds c) ;;;
    ret (access_token c)
  else
    w <- in_world get ;;
    if negb (_check_config c w) then ret VNone
    else
      try_catch
        (req <- of_sum (refresh_prepare c w) ;;
         result <- in_world (send req) ;;
         stored <- refresh_store result ;;
         if stored : bool then
           c <- self ;;
           ret (access_token c)
         else ret VNone)
        (fun _ => ret VNone).

(** [get_access_token(self)] *)
Definition get_access_token : M store value := _refresh_access_token.

(** [_record_operation(self, operation_type, status, details)] *)
Definition _record_operation (operation_type : value) (status : string)
    (details : pydict) : M store unit :=
  t <- in_world time_time ;;
  let operation_record :=
    VDict [("timestamp", VFloat t); ("type", operation_type);
           ("status", VStr status); ("details", VDict details)] in
  update_self (fun c => set_operation_history (operation_history c ++ [operation_record]) c) ;;;
  c <- self ;;
  if (1000 <? Z.of_nat (length (operation_history c)))%Z
  then update_self (fun c => set_operation_history (tail (operation_history c)) c)
  else ret tt.

(** [self.operation_history.append(record)], as the public methods do
    it directly. *)
Definition append_history (record : value) : M store unit :=
  update_self (fun c => set_operation_history (operation_history c ++ [record]) c).

(** [result.get("errcode") == 0 or "errcode" not in result] *)
Definition is_ok_body (result : value) : exn + bool :=
  match get_method result "errcode" VNone with
  | inl e => inl e
  | inr code =>
      if eq_int code 0 then inr true
      else match contains result "errcode" with
           | inl e => inl e
           | inr b => inr (negb b)
           end
  end.

Definition failure (error_msg : string) : value :=
  VDict [("success", VBool false); ("error", VStr error_msg)].

(** [isinstance(e, (ConnectionError, Timeout, ChunkedEncodingError))] *)
Definition is_network_error (c : exn_class) : bool :=
  match c with
  | ConnectionError | Timeout | ChunkedEncodingError => true
  | _ => false
  end.

(** [_api_request(self, api_path, method, data=data)], for the callers
    that pass neither [params] nor [files]. *)
Definition _api_request (api_path : value) (method : http_method) (data : value)
    : M store value :=
  tok <- _refresh_access_token ;;
  if negb (truthy tok) then ret (failure "无法获取有效的access_token")
  else
    c <- self ;;
    base <- of_sum (getitem (VDict (api_config c)) "api_base_url") ;;
    let req := MkRequest method base api_path [("access_token", access_token c)] data in
    try_catch
      (result <- in_world (send req) ;;
       ok <- of_sum (is_ok_body result) ;;
       if ok : bool then
         _record_operation api_path "success" [("response", result)] ;;;
         ret (VDict [("success", VBool true); ("data", result)])
       else
         errcode <- of_sum (get_method result "errcode" (VStr "unknown")) ;;
         errmsg <- of_sum (get_method result "errmsg" (VStr "未知错误")) ;;
         let error_msg := "API错误 " +:+ pystr errcode +:+ ": " +:+ pystr errmsg in
         _record_operation api_path "error"
           [("error", VStr error_msg); ("response", result)] ;;;
         ret (VDict [("success", VBool false); ("error", VStr error_msg);
                     ("data", result)]))
      (fun e =>
         if is_RequestException (exn_cls e) then
           let error_msg := "请求异常: " +:+ exn_str e in
           _record_operation api_path "exception" [("error", VStr (exn_str e))] ;;;
           early <-
             (if is_network_error (exn_cls e) then
                in_world (time_sleep 1) ;;;
                try_catch
                  (result <- in_world (send req) ;;
                   ok <- of_sum (is_ok_body result) ;;
                   if ok : bool then
                     _record_operation api_path "success"
                       [("response", result); ("retry", VBool true)] ;;;
                     ret (Some (VDict [("success", VBool true); ("data", result)]))
                   else ret None)
                  (fun _ => ret None)
              else ret None) ;;
           match early with
           | Some r => ret r
           | None => ret (failure error_msg)
           end
         else
           let error_msg := "处理响应异常: " +:+ exn_str e in
           _record_operation api_path "exception" [("error", VStr (exn_str e))] ;;;
           ret (failure error_msg)).

(** The first field of [fields] that the loop
    [for field in fields: if skip(field) is false and field not in
    product_data: return ...] stops at. *)
Fixpoint first_missing (skip : string -> bool) (fields : list string)
    (product_data : value) : exn + option string :=
  match fields with
  | [] => inr None
  | field :: rest =>
      if skip field then first_missing skip rest product_data
      else match contains product_data field with
           | inl e => inl e
           | inr true => first_missing skip rest product_data
           | inr false => inr (Some field)
           end
  end.

(** [add_product(self, product_data)] *)
Definition add_product (product_data : value) : M store value :=
  missing <- of_sum (first_missing (String.eqb "product_id")
                       WECHAT_SHOP_REQUIRED_FIELDS product_data) ;;
  match missing with
  | Some field => ret (failure ("缺少必填字段: " +:+ field))
  | None =>
      try_catch
        (c <- self ;;
         path <- of_sum (getitem (VDict (api_paths c)) "add_product") ;;
         result <- _api_request path POST product_data ;;
         t <- in_world time_time ;;
         product_id <- of_sum (get_method product_data "product_id" VNone) ;;
         append_history
           (VDict [("timestamp", VFloat t); ("operation", VStr "add_product");
                   ("product_id", product_id); ("result", result)]) ;;;
         ret result)
        (fun e => ret (failure ("添加商品失败: " +:+ exn_str e)))
  end.

(** [upload_product(self, product_data)] *)
Definition upload_product (product_data : value) : M store value :=
  try_catch
    (missing <- of_sum (first_missing (fun _ => false)
                          ["title"; "desc"; "category_id1"; "category_id2"; "sku_list"]
                          product_data) ;;
     match missing with
     | Some field => ret (failure ("缺少必填字段: " +:+ field))
     | None =>
         c <- self ;;
         let api_path :=
           dict_get_default (api_paths c) "add_product"
             (VStr "/channels/ec/product/create") in
         of_sum (get_method product_data "title" (VStr "未命名")) ;;;
         result <- _api_request api_path POST product_data ;;
         t <- in_world time_time ;;
         title <- of_sum (get_method product_data "title" VNone) ;;
         append_history
           (VDict [("timestamp", VFloat t); ("operation", VStr "upload_product");
                   ("product_title", title); ("result", result)]) ;;;
         ret result
     end)
    (fun e => ret (failure ("上传商品失败: " +:+ exn_str e))).

(** The search of [verify_upload_result] through the history, newest
    record first: the report of the first record whose [operation] is
    [batch_upload_products] and that has a [report]. *)
Fixpoint find_report (records : list value) : exn + option value :=
  match records with
  | [] => inr None
  | record :: rest =>
      match get_method record "operation" VNone with
      | inl e => inl e
      | inr op =>
          if is_VStr "batch_upload_products" op then
            match contains record "report" with
            | inl e => inl e
            | inr true =>
                match getitem record "report" with
                | inl e => inl e
                | inr r => inr (Some r)
                end
            | inr false => find_report rest
            end
          else find_report rest
      end
  end.

(** [verify_upload_result(self, report)]; the default [None] is
    [VNone]. *)
Definition verify_upload_result (report : value) : M store value :=
  c <- self ;;
  report <-
    (if negb (truthy report) then
       found <- of_sum (find_report (rev (operation_history c))) ;;
       ret (match found with Some r => r | None => report end)
     else ret report) ;;
  if negb (truthy report) then ret (failure "未找到上传记录")
  else
    total <- of_sum (get_method report "total" (VInt 0)) ;;
    success_count <- of_sum (get_method report "success_count" (VInt 0)) ;;
    error_count <- of_sum (get_method report "error_count" (VInt 0)) ;;
    t <- in_world time_time ;;
    ret (VDict [("success", VBool true); ("total_products", total);
                ("successfully_uploaded", success_count);
                ("failed_uploads", error_count);
                ("verification_time", VFloat t); ("details", report)]).

End Methods.

End WeChatShopAPIClient.

(** ** The CSV side of [wechat_shop_api.py]: rows into products *)

Module ProductCsv.

(** Sequencing of steps that may raise. *)
Definition and_then {A B} (r : exn + A) (f : A -> exn + B) : exn + B :=
  match r with inl e => inl e | inr a => f a end.

Notation "x <-? r ; k" := (and_then r (fun x => k))
  (at level 100, r at next level, right associativity).

Section Converters.

(** [int(s)] on a string, [None] where it raises [ValueError]; and
    [s.strip()]. *)
Variable int_of_string : string -> option Z.
Variable strip : string -> string.

(** [int(v)] *)
Definition py_int (v : value) : exn + Z :=
  match v with
  | VInt z => inr z
  | VBool b => inr (if b then 1 else 0)%Z
  | VFloat q => inr (Z.quot (Qnum q) (Zpos (Qden q)))
  | VSpecial NaN => inl (MkExn ValueError "cannot convert float NaN to integer")
  | VSpecial _ => inl (MkExn OverflowError "cannot convert float infinity to integer")
  | VStr s =>
      match int_of_string s with
      | Some z => inr z
      | None => inl (MkExn ValueError "invalid literal for int() with base 10")
      end
  | _ => inl (MkExn TypeError "int() argument must be a string or a real number")
  end.

(** [csv_row.get(k, '').strip()] *)
Definition cell (csv_row : value) (k : string) : exn + string :=
  v <-? get_method csv_row k (VStr EmptyString) ;
  match v with
  | VStr s => inr (strip s)
  | _ => inl (MkExn AttributeError "object has no attribute 'strip'")
  end.

(** The loops [for k in keys: x = cell(k); if x: xs.append(x)]: the
    cells that are not blank, in the order of [keys]. *)
Fixpoint filled_cells (csv_row : value) (keys : list string) : exn + list string :=
  match keys with
  | [] => inr []
  | k :: rest =>
      x <-? cell csv_row k ;
      xs <-? filled_cells csv_row rest ;
      inr (if String.eqb x EmptyString then xs else x :: xs)
  end.

(** [f'主图{i}'] for [i] in [range(1, 10)], [f'详情图{i}'] for [i] in
    [range(1, 4)] *)
Definition head_img_columns : list string :=
  map (fun i => "主图" +:+ pretty i) (seq 1 9).
Definition detail_img_columns : list string :=
  map (fun i => "详情图" +:+ pretty i) (seq 1 3).

(** [int(x) if x else 0] *)
Definition int_or_zero (x : string) : exn + Z :=
  if String.eqb x EmptyString then inr 0%Z else py_int (VStr x).

(** [convert_csv_to_product_format(csv_row)] *)
Definition convert_csv_to_product_format (csv_row : value) : exn + value :=
  title <-? get_method csv_row "商品标题" (VStr EmptyString) ;
  sub_title <-? get_method csv_row "副标题" (VStr EmptyString) ;
  short_title <-? get_method csv_row "短标题" (VStr EmptyString) ;
  desc <-? get_method csv_row "商品描述" (VStr EmptyString) ;
  deliver <-? get_method csv_row "发货方式" (VStr "0") ;
  deliver_method <-? py_int deliver ;
  listed <-? get_method csv_row "上架状态" (VStr "0") ;
  listing <-? py_int listed ;
  let product :=
    [("title", title); ("sub_title", sub_title); ("short_title", short_title);
     ("desc_info", VDict [("desc", desc); ("imgs", VList [])]);
     ("deliver_method", VInt deliver_method);
     ("cats", VList []); ("cats_v2", VList []); ("head_imgs", VList []);
     ("extra_service", VDict [("service_tags", VList [])]);
     ("skus", VList []); ("listing", VInt listing)] in
  cat_ids <-? filled_cells csv_row ["一级类目ID"; "二级类目ID"; "三级类目ID"] ;
  let cats := map (fun c => VDict [("cat_id", VStr c)]) cat_ids in
  let product :=
    match cats with
    | [] => product
    | _ => dict_set (dict_set product "cats" (VList cats)) "cats_v2" (VList cats)
    end in
  head_imgs <-? filled_cells csv_row head_img_columns ;
  let product := dict_set product "head_imgs" (VList (map VStr head_imgs)) in
  imgs <-? filled_cells csv_row detail_img_columns ;
  let product :=
    dict_set product "desc_info" (VDict [("desc", desc); ("imgs", VList (map VStr imgs))]) in
  price <-? cell csv_row "SKU价格(分)" ;
  stock_num <-? cell csv_row "SKU库存" ;
  out_sku_id <-? cell csv_row "SKU编码" ;
  if negb (String.eqb price EmptyString) || negb (String.eqb stock_num EmptyString) then
    p <-? int_or_zero price ;
    n <-? int_or_zero stock_num ;
    let sku := [("price", VInt p); ("stock_num", VInt n)] in
    let sku :=
      if String.eqb out_sku_id EmptyString then sku
      else dict_set sku "out_sku_id" (VStr out_sku_id) in
    inr (VDict (dict_set product "skus" (VList [VDict sku])))
  else inr (VDict product).

(** The rows of [load_products_from_csv], once the file is read:
    [csv.DictReader] yields them, and any exception while converting
    makes the function return the empty list. *)
Fixpoint convert_rows (rows : list value) : exn + list value :=
  match rows with
  | [] => inr []
  | row :: rest =>
      product <-? convert_csv_to_product_format row ;
      products <-? convert_rows rest ;
      inr (product :: products)
  end.

Definition load_products_from_rows (rows : list value) : list value :=
  match convert_rows rows with
  | inr products => products
  | inl _ => []
  end.

End Converters.
End ProductCsv.

(** ** [ProductUploader] *)

Module ProductUploader.

(** [self.config['upload']]: a field is [None] while its key is absent.
    Counts are integers, durations are seconds. *)
Record upload_config : Type := MkUploadConfig {
  batch_size : option Z;
  request_interval : option Q;
  max_retries : option Z;
  timeout : option Q;
  max_concurrency : option Z
}.

(** One entry of [results['details']]. *)
Record detail : Type := MkDetail {
  index : Z;
  title : value;
  out_product_id : value;
  detail_success : bool;
  response : value;
  timestamp : Q
}.

(** The dictionary a batch upload returns; [duration] and
    [success_rate] are [None] while the key is absent. *)
Record results : Type := MkResults {
  total : Z;
  success : Z;
  failed : Z;
  details : list detail;
  duration : option value;
  success_rate : option value
}.

(** The lines [log_message] (of [src.utils.logger]) writes from the
    [try] statement of [upload_single_product] and from the loops of
    the batch uploads, with the values their f-strings print; the
    comment gives the line of [product_uploader.py]. The other log
    lines of the class are left out. The client logs through a function
    of its own, to a file of its own. *)
Inductive log_line : Type :=
| LogAttempt (title : value) (attempt : Z)            (* 210 *)
| LogUploaded (title product_id : value)              (* 217 *)
| LogRejected (title error_code error_msg : value)    (* 222 *)
| LogRetry (retry wait_time : Z)                      (* 228 *)
| LogBadResponse (response : value)                   (* 232 *)
| LogException (e : exn)                              (* 238 *)
| LogRetryAfterException (retry wait_time : Z)        (* 243 *)
| LogBatch (batch_start batch_end total : Z)          (* 326 *)
| LogItem (current_index total : Z) (title : value)   (* 330 *)
| LogInterval (request_interval : Q)                  (* 352 *)
| LogAsyncItem (index total : Z) (title : value).     (* 398 *)

(** [range(0, stop, step)] *)
Definition range_from_zero (stop : nat) (step : Z) : exn + list nat :=
  if (step =? 0)%Z then inl (MkExn ValueError "range() arg 3 must not be zero")
  else if (step <? 0)%Z then inr []
  else
    let st := Z.to_nat step in
    inr (map (fun k => k * st) (seq 0 ((stop + st - 1) / st))).

(** [enumerate(l)] *)
Definition enumerate {A} (l : list A) : list (nat * A) :=
  combine (seq 0 (length l)) l.

(** [for x in xs: acc = body acc x] with the loop's variables in [acc]. *)
Fixpoint fold_m {S A B} (body : B -> A -> M S B) (xs : list A) (acc : B) : M S B :=
  match xs with
  | [] => ret acc
  | x :: xs' => acc' <- body acc x ;; fold_m body xs' acc'
  end.

(** [float(v)] raises [OverflowError] on an integer that rounds past
    the largest double; the class is not caught by the price check. *)
Definition float_overflows (z : Z) : bool :=
  (2 ^ 1024 - 2 ^ 970 <=? Z.abs z)%Z.

Section WithClient.

(** The client class the uploader drives: its constructor and its
    [add_product] method. [WeChatShopAPIClient] is the instance the
    program uses. *)
Variable Client : Type.
Variable new_client : value -> value -> pydict -> Client.
Variable client_add_product : value -> M (Client * world) value.

(** [get_config_value('wechat_shop.app_id', '')] and the two others read
    for the default API configuration; [float_parses s] says whether
    [float(s)] accepts the string [s]. *)
Variable cfg_app_id cfg_app_secret cfg_api_base_url : value.
Variable float_parses : string -> bool.

(** The object, and with it the log its methods have written. *)
Record uploader : Type := MkUploader {
  config_api : option pydict;
  config_upload : option upload_config;
  api_client : option Client;
  log : list log_line
}.

Definition set_config_api (a : pydict) (u : uploader) : uploader :=
  MkUploader (Some a) (config_upload u) (api_client u) (log u).

Definition set_config_upload (c : upload_config) (u : uploader) : uploader :=
  MkUploader (config_api u) (Some c) (api_client u) (log u).

Definition set_api_client (c : option Client) (u : uploader) : uploader :=
  MkUploader (config_api u) (config_upload u) c (log u).

Definition add_log (l : log_line) (u : uploader) : uploader :=
  MkUploader (config_api u) (config_upload u) (api_client u) (log u ++ [l]).

Abbreviation store := (uploader * world)%type.

Definition self : M store uploader := fun s => (Ret s.1, s).
Definition update_self (f : uploader -> uploader) : M store unit :=
  modify (fun s => (f s.1, s.2)).
Definition in_world {A} (m : M world A) : M store A := lift_snd m.

(** [log_message(...)] *)
Definition log_message (l : log_line) : M store unit := update_self (add_log l).

Definition default_api_config : pydict :=
  [("appid", cfg_app_id); ("appsecret", cfg_app_secret);
   ("api_base_url", cfg_api_base_url)].

(** [_initialize_api_client(self)]. The class is imported when the
    module loads, so the [is None] test at the top is false. *)
Definition _initialize_api_client : M store unit :=
  with_frame (None : option pydict)
    (try_catch
       (u <- lift_snd self ;;
        let from_config := match config_api u with Some a => a | None => [] end in
        api_config <-
          (match from_config with
           | [] => lift_snd (update_self (set_config_api default_api_config)) ;;;
                   ret default_api_config
           | _ => ret from_config
           end) ;;
        lift_fst (modify (fun _ => Some api_config)) ;;;
        let missing_fields :=
          filter (fun field => dict_has api_config field = false) ["appid"; "appsecret"] in
        match missing_fields with
        | _ :: _ => raise (MkExn ValueError "API配置不完整")
        | [] =>
            let app_id := dict_get_default api_config "appid" (VStr EmptyString) in
            let app_secret := dict_get_default api_config "appsecret" (VStr EmptyString) in
            lift_snd (update_self
                        (set_api_client (Some (new_client app_id app_secret api_config))))
        end)
       (fun e =>
          let error_msg := "初始化API客户端失败: " +:+ exn_str e in
          api_config <- lift_fst get ;;
          let use_sandbox :=
            match api_config with
            | Some a => dict_get_default a "use_sandbox" (VBool false)
            | None => VBool false
            end in
          if truthy use_sandbox then ret tt
          else raise (MkExn Exception error_msg))).

Definition validate_Z (lo hi default : Z) (v : option Z) : option Z :=
  match v with
  | None => Some default
  | Some x => if (lo <=? x)%Z && (x <=? hi)%Z then Some x else Some default
  end.

Definition validate_Q (lo hi default : Q) (v : option Q) : option Q :=
  match v with
  | None => Some default
  | Some x => if Qle_bool lo x && Qle_bool x hi then Some x else Some default
  end.

(** [_validate_config(self)] *)
Definition _validate_config (u : uploader) : uploader :=
  let upload_config :=
    match config_upload u with
    | Some c => c
    | None => MkUploadConfig None None None None None
    end in
  set_config_upload
    (MkUploadConfig
       (validate_Z 1 100 10 (batch_size upload_config))
       (validate_Q (1 # 10) 60 1 (request_interval upload_config))
       (validate_Z 0 10 3 (max_retries upload_config))
       (validate_Q 5 300 30 (timeout upload_config))
       (validate_Z 1 20 5 (max_concurrency upload_config)))
    u.

(** [__init__(self, config_manager, config)] once [self.config] is
    assembled from the argument or from the configuration manager. *)
Definition __init__ (api : option pydict) (upload : option upload_config) : M store unit :=
  update_self (fun u => MkUploader api upload None (log u)) ;;;
  _initialize_api_client ;;;
  update_self _validate_config.

(** [float(v)] in the price check: [inr true] when it succeeds,
    [inr false] on [ValueError] or [TypeError]. *)
Definition price_is_float (v : value) : exn + bool :=
  match v with
  | VInt z =>
      if float_overflows z
      then inl (MkExn OverflowError "int too large to convert to float")
      else inr true
  | VBool _ | VFloat _ | VSpecial _ => inr true
  | VStr s => inr (float_parses s)
  | VNone | VList _ | VDict _ => inr false
  end.

(** The loop over [required_fields] of [_validate_product_data]:
    [inr false] is its [return False]. *)
Fixpoint required_fields_present (fields : list string) (product_data : value)
    : exn + bool :=
  match fields with
  | [] => inr true
  | field :: rest =>
      match contains product_data field with
      | inl e => inl e
      | inr false => inr false
      | inr true =>
          match getitem product_data field with
          | inl e => inl e
          | inr v =>
              if truthy v then required_fields_present rest product_data
              else inr false
          end
      end
  end.

(** [_validate_product_data(self, product_data)] *)
Definition _validate_product_data (product_data : value) : exn + bool :=
  match required_fields_present ["title"; "head_imgs"; "price"; "cats"] product_data with
  | inl e => inl e
  | inr false => inr false
  | inr true =>
      match get_method product_data "head_imgs" (VList []) with
      | inl e => inl e
      | inr imgs =>
          match len imgs with
          | inl e => inl e
          | inr n =>
              if (n =? 0)%Z then inr false
              else
                match contains product_data "price" with
                | inl e => inl e
                | inr false => inr true
                | inr true =>
                    match getitem product_data "price" with
                    | inl e => inl e
                    | inr p => price_is_float p
                    end
                end
          end
      end
  end.

(** [self.api_client.add_product(product)] *)
Definition call_add_product (product : value) : M store value :=
  fun s =>
    match api_client s.1 with
    | None =>
        (Raise (MkExn AttributeError
                  "'NoneType' object has no attribute 'add_product'"), s)
    | Some c =>
        let (r, cw) := client_add_product product (c, s.2) in
        (r, (set_api_client (Some cw.1) s.1, cw.2))
    end.

Definition non_retryable_codes : list Z := [400; 401; 403]%Z.

(** [error_code in codes] *)
Definition code_in (error_code : value) (codes : list Z) : bool :=
  existsb (eq_int error_code) codes.

(** [response or alt] *)
Definition value_or (response alt : value) : value :=
  if truthy response then response else alt.

(** [wait_time = (retry_count + 1) * 2] *)
Definition wait_time (retry_count : Z) : Z := ((retry_count + 1) * 2)%Z.

(** The body of [upload_single_product(self, product, retry_count)].
    [fuel] bounds the depth of the self-calls as the interpreter's
    recursion limit does: a call past it raises [RecursionError]. The
    frame of the [try] statement holds the local [max_retries], unbound
    ([None]) until its assignment runs. *)
Fixpoint upload_single_product_rec (fuel : nat) (product : value) (retry_count : Z)
    : M store (bool * value) :=
  match fuel with
  | O => raise (MkExn RecursionError "maximum recursion depth exceeded")
  | S fuel' =>
      valid <- of_sum (_validate_product_data product) ;;
      if negb valid then ret (false, VDict [("error", VStr "商品数据验证失败")])
      else
        with_frame (None : option Z)
          (try_catch
             (u <- lift_snd self ;;
              (match api_client u with
               | None => lift_snd _initialize_api_client
               | Some _ => ret tt
               end) ;;;
              u <- lift_snd self ;;
              upload <-
                (match config_upload u with
                 | Some c => ret c
                 | None => raise (MkExn KeyError "upload")
                 end) ;;
              let max_retries := match max_retries upload with Some m => m | None => 3%Z end in
              lift_fst (modify (fun _ => Some max_retries)) ;;;
              title <- of_sum (get_method product "title" (VStr "未知标题")) ;;
              lift_snd (log_message (LogAttempt title (retry_count + 1))) ;;;
              response <- lift_snd (call_add_product product) ;;
              match response with
              | VDict ((_ :: _) as d) =>
                  if eq_int (dict_get_default d "errcode" VNone) 0 then
                    let product_id := dict_get_default d "product_id" (VStr EmptyString) in
                    title <- of_sum (getitem product "title") ;;
                    lift_snd (log_message (LogUploaded title product_id)) ;;;
                    ret (true, response)
                  else
                    let error_code := dict_get_default d "errcode" VNone in
                    let error_msg := dict_get_default d "errmsg" (VStr "未知错误") in
                    title <- of_sum (getitem product "title") ;;
                    lift_snd (log_message (LogRejected title error_code error_msg)) ;;;
                    if (retry_count <? max_retries)%Z
                       && negb (code_in error_code non_retryable_codes)
                    then
                      lift_snd (log_message
                                  (LogRetry (retry_count + 1) (wait_time retry_count))) ;;;
                      lift_snd (in_world (time_sleep (inject_Z (wait_time retry_count)))) ;;;
                      lift_snd (upload_single_product_rec fuel' product (retry_count + 1))
                    else ret (false, value_or response (VDict [("error", VStr "未知错误")]))
              | _ =>
                  lift_snd (log_message (LogBadResponse response)) ;;;
                  ret (false, value_or response (VDict [("error", VStr "未知错误")]))
              end)
             (fun e =>
                lift_snd (log_message (LogException e)) ;;;
                local <- lift_fst get ;;
                match local with
                | None =>
                    raise (MkExn UnboundLocalError
                             "cannot access local variable 'max_retries'")
                | Some max_retries =>
                    if (retry_count <? max_retries)%Z then
                      lift_snd (log_message
                                  (LogRetryAfterException (retry_count + 1)
                                     (wait_time retry_count))) ;;;
                      lift_snd (in_world (time_sleep (inject_Z (wait_time retry_count)))) ;;;
                      lift_snd (upload_single_product_rec fuel' product (retry_count + 1))
                    else ret (false, VDict [("error", VStr (exn_str e))])
                end))
  end.

(** The configured [max_retries] as the body reads it. *)
Definition configured_max_retries (u : uploader) : Z :=
  match config_upload u with
  | Some c => match max_retries c with Some m => m | None => 3%Z end
  | None => 0%Z
  end.

(** [upload_single_product(self, product, retry_count)]: the self-calls
    go from [retry_count] up to [max_retries], so this depth is never
    exceeded (see [upload_single_product_depth]). *)
Definition upload_single_product (product : value) (retry_count : Z)
    : M store (bool * value) :=
  fun s =>
    upload_single_product_rec
      (S (Z.to_nat (configured_max_retries s.1 - retry_count))) product retry_count s.

Definition empty_results : results := MkResults 0 0 0 [] None None.

(** [results['details'].append(detail)] and the two counters. *)
Definition record_detail (r : results) (d : detail) : results :=
  MkResults (total r)
    (if detail_success d then (success r + 1)%Z else success r)
    (if detail_success d then failed r else (failed r + 1)%Z)
    (details r ++ [d]) (duration r) (success_rate r).

(** [round(time.time() - start_time, 2)] *)
Definition rounded_duration (start_time end_time : Q) : value :=
  of_float (fround2 (fsub (Finite end_time) (Finite start_time))).

(** [round(success / total * 100, 2)]: the quotient of the two integers
    is a double, and so is its product with 100. *)
Definition rounded_rate (success total : Z) : value :=
  of_float (fround2 (fmul (to_double (inject_Z success / inject_Z total)) 100)).

(** The statistics computed after the loop. *)
Definition finalize (r : results) (start_time end_time : Q) : results :=
  MkResults (total r) (success r) (failed r) (details r)
    (Some (rounded_duration start_time end_time))
    (Some (if (0 <? total r)%Z
           then rounded_rate (success r) (total r)
           else VInt 0)).

(** One turn of the inner loop of [upload_products]: the item at
    position [j] of the batch that starts at [i]. *)
Definition upload_item (request_interval : Q) (i batch_len : nat)
    (r : results) (jp : nat * value) : M store results :=
  let (j, product) := jp in
  let current_index := (Z.of_nat i + Z.of_nat j + 1)%Z in
  title <- of_sum (getitem product "title") ;;
  log_message (LogItem current_index (total r) title) ;;;
  sr <- upload_single_product product 0 ;;
  title <- of_sum (getitem product "title") ;;
  out_id <- of_sum (get_method product "out_product_id" (VStr EmptyString)) ;;
  t <- in_world time_time ;;
  let r' := record_detail r (MkDetail current_index title out_id sr.1 sr.2 t) in
  (if (Z.of_nat j <? Z.of_nat batch_len - 1)%Z
   then log_message (LogInterval request_interval) ;;;
        in_world (time_sleep request_interval)
   else ret tt) ;;;
  ret r'.

(** One turn of the outer loop: the batch [products[i:i + batch_size]]. *)
Definition upload_batch (products : list value) (batch_size : Z)
    (request_interval : Q) (r : results) (i : nat) : M store results :=
  let batch := take (Z.to_nat batch_size) (drop i products) in
  log_message (LogBatch (Z.of_nat i + 1)
                 (Z.min (Z.of_nat i + batch_size) (Z.of_nat (length products)))
                 (Z.of_nat (length products))) ;;;
  fold_m (upload_item request_interval i (length batch)) (enumerate batch) r.

(** [self.config['upload'][key]] *)
Definition upload_setting {A} (key : string) (field : upload_config -> option A)
    : M store A :=
  u <- self ;;
  match config_upload u with
  | None => raise (MkExn KeyError "upload")
  | Some c =>
      match field c with
      | Some v => ret v
      | None => raise (MkExn KeyError key)
      end
  end.

(** [upload_products(self, products)] *)
Definition upload_products (products : list value) : M store results :=
  match products with
  | [] => ret empty_results
  | _ =>
      batch_size <- upload_setting "batch_size" batch_size ;;
      request_interval <- upload_setting "request_interval" request_interval ;;
      let results0 := MkResults (Z.of_nat (length products)) 0 0 [] None None in
      start_time <- in_world time_time ;;
      starts <- of_sum (range_from_zero (length products) batch_size) ;;
      r <- fold_m (upload_batch products batch_size request_interval) starts results0 ;;
      end_time <- in_world time_time ;;
      ret (finalize r start_time end_time)
  end.

(** The coroutine [upload_with_semaphore(product, index)], taken as a
    unit from the moment it holds the semaphore. *)
Definition upload_with_semaphore (total : Z) (product : value) (index : Z)
    : M store detail :=
  title <- of_sum (getitem product "title") ;;
  log_message (LogAsyncItem index total title) ;;;
  sr <- upload_single_product product 0 ;;
  title <- of_sum (getitem product "title") ;;
  out_id <- of_sum (get_method product "out_product_id" (VStr EmptyString)) ;;
  t <- in_world time_time ;;
  ret (MkDetail index title out_id sr.1 sr.2 t).

(** [upload_products_async(self, products)], for the run in which the
    coroutines complete in the order [order]. Each upload runs on a
    worker thread; the model takes a worker's call as a unit, which the
    positions, the [index] fields and the number of the records do not
    depend on. *)
Definition upload_products_async (order : list nat) (products : list value)
    : M store results :=
  match products with
  | [] => ret empty_results
  | _ =>
      u <- self ;;
      upload <-
        (match config_upload u with
         | Some c => ret c
         | None => raise (MkExn KeyError "upload")
         end) ;;
      let max_concurrency :=
        Z.min (match max_concurrency upload with Some m => m | None => 5%Z end)
              (Z.of_nat (length products)) in
      (if (max_concurrency <? 0)%Z
       then raise (MkExn ValueError "Semaphore initial value must be >= 0")
       else ret tt) ;;;
      let results0 := MkResults (Z.of_nat (length products)) 0 0 [] None None in
      start_time <- in_world time_time ;;
      let tasks :=
        map (fun ip => upload_with_semaphore (Z.of_nat (length products)) ip.2
                         (Z.of_nat ip.1 + 1))
            (enumerate products) in
      details <-
        (if (max_concurrency =? 0)%Z
         then raise (MkExn Deadlock "no coroutine can take the semaphore")
         else gather tasks order) ;;
      let r := fold_left record_detail details results0 in
      end_time <- in_world time_time ;;
      ret (finalize r start_time end_time)
  end.

(** The [get_access_token] method of the client class. *)
Variable client_get_access_token : M (Client * world) value.

(** [self.api_client.get_access_token()] *)
Definition call_get_access_token : M store value :=
  fun s =>
    match api_client s.1 with
    | None =>
        (Raise (MkExn AttributeError
                  "'NoneType' object has no attribute 'get_access_token'"), s)
    | Some c =>
        let (r, cw) := client_get_access_token (c, s.2) in
        (r, (set_api_client (Some cw.1) s.1, cw.2))
    end.

(** [test_connection(self)]. [hasattr(self.api_client,
    'get_access_token')] holds for an object of the client class and
    fails for [None]; the log lines of the method are left out. *)
Definition test_connection : M store bool :=
  try_catch
    (u <- self ;;
     (match api_client u with
      | None => _initialize_api_client
      | Some _ => ret tt
      end) ;;;
     u <- self ;;
     match api_client u with
     | Some _ =>
         try_catch
           (token_result <- call_get_access_token ;;
            ret (truthy token_result))
           (fun _ => ret false)
     | None => ret false
     end)
    (fun _ => ret false).

End WithClient.

Arguments MkUploader {Client} _ _ _ _.
Arguments config_api {Client} _.
Arguments config_upload {Client} _.
Arguments api_client {Client} _.
Arguments log {Client} _.
Arguments set_config_api {Client} _ _.
Arguments set_config_upload {Client} _ _.
Arguments set_api_client {Client} _ _.
Arguments add_log {Client} _ _.
Arguments _validate_config {Client} _.
Arguments configured_max_retries {Client} _.

End ProductUploader.

(** ** Callers of [get_access_token] on several threads

    [upload_products_async] runs [upload_single_product] on the threads
    of the default executor, and all of them share [self.api_client].
    A caller of [_refresh_access_token] can be switched out where it
    blocks: while it waits in [session.get], and while [log_message]
    writes its line between the two assignments and [return
    self.access_token]. The method takes no lock. *)

Module Concurrent.
Import WeChatShopAPIClient.

(** Where a caller stands: before the call, waiting for the answer
    [rep], past the assignments and before [return self.access_token],
    or out of the call with a value or an exception. *)
Inductive caller : Type :=
| Ready
| InFlight (rep : reply)
| Stored
| Returned (token : value)
| Raised (e : exn).

Record pool : Type := MkPool {
  callers : list caller;
  shared : client;
  outside : world
}.

(** From the entry of [_refresh_access_token] to its first return, or
    to the point where [session.get] has sent the request. *)
Definition enter (c : client) (w : world) : caller * world :=
  if token_is_valid c (now w) then
    match remaining_seconds c with
    | inl e => (Raised e, w)
    | inr _ => (Returned (access_token c), w)
    end
  else if negb (_check_config c w) then (Returned VNone, w)
  else
    match refresh_prepare c w with
    | inl _ => (Returned VNone, w)
    | inr req =>
        match issue req w with
        | (Ret rep, w') => (InFlight rep, w')
        | (Raise _, w') => (Returned VNone, w')
        end
    end.

(** From the arrival of the answer to the log line that follows the
    two assignments: the caller stands before [return
    self.access_token] or has returned [None]. *)
Definition resume (rep : reply) (c : client) (w : world) : caller * (client * world) :=
  match try_catch (result <- in_world (receive rep) ;; refresh_store result)
                  (fun _ => ret false) (c, w) with
  | (Ret true, s) => (Stored, s)
  | (_, s) => (Returned VNone, s)
  end.

(** Caller [i] runs until it returns or comes to a blocking call: the
    request of [session.get], the write of [log_message]. *)
Definition step (p : pool) (i : nat) : pool :=
  match callers p !! i with
  | Some Ready =>
      let (th, w') := enter (shared p) (outside p) in
      MkPool (<[i := th]> (callers p)) (shared p) w'
  | Some (InFlight rep) =>
      let (th, s) := resume rep (shared p) (outside p) in
      MkPool (<[i := th]> (callers p)) s.1 s.2
  | Some Stored =>
      MkPool (<[i := Returned (access_token (shared p))]> (callers p))
             (shared p) (outside p)
  | _ => p
  end.

(** The callers run as the scheduler picks them. *)
Definition run (schedule : list nat) (p : pool) : pool :=
  fold_left step schedule p.

(** [k] callers enter at once. *)
Definition start (k : nat) (c : client) (w : world) : pool :=
  MkPool (replicate k Ready) c w.

(** The calls made to the token endpoint. *)
Definition token_requests (p : pool) : nat :=
  count is_token_request (trace (outside p)).

(** The schedule in which each caller returns before the next enters. *)
Definition one_by_one (k : nat) : list nat :=
  flat_map (fun i => [i; i; i]) (seq 0 k).

End Concurrent.

(** ** The program: [ProductUploader] driving [WeChatShopAPIClient] *)

Module Program.

Section Instance.

Variable WECHAT_API_CONFIG : pydict.
Variable API_PATHS : pydict.
Variable pystr : value -> string.
Variable cfg_app_id cfg_app_secret cfg_api_base_url : value.
Variable float_parses : string -> bool.

Definition upload_single_product :=
  ProductUploader.upload_single_product WeChatShopAPIClient.client
    (WeChatShopAPIClient.__init__ WECHAT_API_CONFIG API_PATHS)
    (WeChatShopAPIClient.add_product pystr)
    cfg_app_id cfg_app_secret cfg_api_base_url float_parses.

Definition upload_products :=
  ProductUploader.upload_products WeChatShopAPIClient.client
    (WeChatShopAPIClient.__init__ WECHAT_API_CONFIG API_PATHS)
    (WeChatShopAPIClient.add_product pystr)
    cfg_app_id cfg_app_secret cfg_api_base_url float_parses.

End Instance.

End Program.

(** * Properties *)

Open Scope list_scope.

(** ** Single upload: validation, retry, the unbound local *)

Module SingleUpload.
Import ProductUploader.

#[local] Arguments upload_single_product : simpl never.

(** Unfold the plumbing of the effect layer. *)
Ltac run_eff :=
  unfold log_message, in_world, self, update_self, of_sum, bind, ret, raise,
    lift_snd, lift_fst, with_frame, try_catch, modify, get in *;
  cbn [fst snd] in *.

(** What the log says of the retry loop: the attempts announced and the
    waits announced between them. *)
Inductive journal_entry : Type :=
| Attempt (n : Z)
| Wait (seconds : Z).

Definition journal_of (l : log_line) : option journal_entry :=
  match l with
  | LogAttempt _ n => Some (Attempt n)
  | LogRetry _ w => Some (Wait w)
  | LogRetryAfterException _ w => Some (Wait w)
  | _ => None
  end.

Definition journal (l : list log_line) : list journal_entry := omap journal_of l.

Definition is_attempt (l : log_line) : bool :=
  match l with LogAttempt _ _ => true | _ => false end.

(** The number of attempts the log announces. *)
Definition attempts (l : list log_line) : nat :=
  length (filter (fun e => is_attempt e = true) l).

(** Attempt [n], then for each of [retries] retries a wait of twice the
    number of the attempt that failed and the next attempt. *)
Fixpoint linear_backoff (retries : nat) (n : Z) : list journal_entry :=
  match retries with
  | O => [Attempt n]
  | S r => Attempt n :: Wait (n * 2) :: linear_backoff r (n + 1)
  end.

Section WithClient.

Variable Client : Type.
Variable new_client : value -> value -> pydict -> Client.
Variable client_add_product : value -> M (Client * world) value.
Variable cfg_app_id cfg_app_secret cfg_api_base_url : value.
Variable float_parses : string -> bool.

Let validate := _validate_product_data float_parses.
Let upload_rec :=
  upload_single_product_rec Client new_client client_add_product
    cfg_app_id cfg_app_secret cfg_api_base_url float_parses.
Let upload :=
  upload_single_product Client new_client client_add_product
    cfg_app_id cfg_app_secret cfg_api_base_url float_parses.
Let initialize :=
  _initialize_api_client Client new_client cfg_app_id cfg_app_secret cfg_api_base_url.

Lemma required_fields_lookup (d : pydict) fields k :
  required_fields_present fields (VDict d) = inr true ->
  k ∈ fields ->
  exists v, dict_get d k = Some v /\ truthy v = true.
Proof.
  induction fields as [|g gs IH]; intros Hg Hin.
  - inversion Hin.
  - cbn in Hg. unfold dict_has in Hg.
    destruct (dict_get d g) as [v|] eqn:Eget; [|discriminate].
    destruct (truthy v) eqn:Ev; [|discriminate].
    apply elem_of_cons in Hin as [->|Hin]; [by exists v|].
    by apply IH.
Qed.

Lemma required_fields_dict f fs product :
  required_fields_present (f :: fs) product = inr true ->
  exists d, product = VDict d.
Proof.
  intros H.
  destruct product as [| | | | | s | l | d]; cbn in H; try discriminate.
  - destruct (is_substring f s); discriminate.
  - destruct (existsb (is_VStr f) l); discriminate.
  - by exists d.
Qed.

(** A product that passes validation is a dictionary with a title. *)
Lemma valid_product_titled product :
  validate product = inr true ->
  exists d t, product = VDict d /\ dict_get d "title" = Some t.
Proof.
  unfold validate, _validate_product_data. intros H.
  destruct (required_fields_present _ product) as [e|[|]] eqn:E; try discriminate.
  destruct (required_fields_dict _ _ _ E) as [d ->].
  destruct (required_fields_lookup d _ "title" E) as (t & Ht & _).
  { set_solver. }
  by exists d, t.
Qed.

(** The store holds a client, and [self.config['upload']] is [upl]. *)
Definition ready (upl : upload_config) (s : uploader Client * world) : Prop :=
  (exists c, api_client s.1 = Some c) /\ config_upload s.1 = Some upl.

Definition max_retries_of (upl : upload_config) : Z :=
  match max_retries upl with Some m => m | None => 3%Z end.

(** The outcomes of [add_product] after which the code retries while
    retries are left: an exception, or a non-empty dictionary whose
    [errcode] is neither 0 nor one of [non_retryable_codes]. *)
Definition retryable (o : outcome value) : bool :=
  match o with
  | Raise _ => true
  | Ret (VDict ((_ :: _) as d)) =>
      let error_code := dict_get_default d "errcode" VNone in
      negb (eq_int error_code 0) && negb (code_in error_code non_retryable_codes)
  | Ret _ => false
  end.

Lemma sleep_wait_time retry_count (w : world) :
  (0 <= retry_count)%Z ->
  time_sleep (inject_Z (wait_time retry_count)) w =
    (Ret tt, advance (inject_Z (wait_time retry_count))
               (emit (EvSleep (inject_Z (wait_time retry_count))) w)).
Proof.
  intros H. unfold time_sleep, Qlt_bool.
  assert (E : Qle_bool 0 (inject_Z (wait_time retry_count)) = true).
  { apply Qle_bool_iff. unfold wait_time, Qle. cbn. lia. }
  by rewrite E.
Qed.

(** The object once [add_product] has been called for attempt
    [retry_count + 1] and has left the client as [c']. *)
Definition after_call (c' : Client) (t : value) (retry_count : Z)
    (u : uploader Client) : uploader Client :=
  set_api_client (Some c') (add_log (LogAttempt t (retry_count + 1)) u).

(** The world once [time.sleep(wait_time)] has returned. *)
Definition slept (retry_count : Z) (w : world) : world :=
  advance (inject_Z (wait_time retry_count))
    (emit (EvSleep (inject_Z (wait_time retry_count))) w).

Definition unknown_error : value := VDict [("error", VStr "未知错误")].

Section OneCall.

(** One call of the body on a valid product [VDict d] titled [t], from
    a store that holds the client [c] and the upload settings [upl];
    [add_product] answers [o] and leaves [c'] and [w']. *)
Variables (d : pydict) (t : value) (upl : upload_config).
Variables (u : uploader Client) (w : world) (c c' : Client) (w' : world).
Variables (o : outcome value) (retry_count : Z) (fuel : nat).
Hypothesis Hvalid : validate (VDict d) = inr true.
Hypothesis Ht : dict_get d "title" = Some t.
Hypothesis Hc : api_client u = Some c.
Hypothesis Hu : config_upload u = Some upl.
Hypothesis Hcall : client_add_product (VDict d) (c, w) = (o, (c', w')).

Lemma title_or_default x : dict_get_default d "title" x = t.
Proof using Ht. unfold dict_get_default. by rewrite Ht. Qed.

Ltac one_call :=
  unfold upload_rec; cbn [upload_single_product_rec]; unfold validate in Hvalid;
  run_eff; rewrite Hvalid; cbn; rewrite Hc; cbn; rewrite Hu; cbn;
  unfold call_add_product; cbn; rewrite Hc, Hcall; cbn;
  rewrite ?title_or_default.

Lemma call_uploaded rd :
  o = Ret (VDict rd) -> rd <> [] ->
  eq_int (dict_get_default rd "errcode" VNone) 0 = true ->
  upload_rec (S fuel) (VDict d) retry_count (u, w) =
    (Ret (true, VDict rd),
     (add_log (LogUploaded t (dict_get_default rd "product_id" (VStr EmptyString)))
        (after_call c' t retry_count u), w')).
Proof using All.
  intros -> Hrd Hcode. one_call.
  destruct rd as [|kv rd]; [done|]. cbn. rewrite Hcode. cbn. by rewrite Ht.
Qed.

Lemma call_rejected_stop rd :
  o = Ret (VDict rd) -> rd <> [] ->
  eq_int (dict_get_default rd "errcode" VNone) 0 = false ->
  (retry_count <? max_retries_of upl)%Z
    && negb (code_in (dict_get_default rd "errcode" VNone) non_retryable_codes) = false ->
  upload_rec (S fuel) (VDict d) retry_count (u, w) =
    (Ret (false, VDict rd),
     (add_log (LogRejected t (dict_get_default rd "errcode" VNone)
                 (dict_get_default rd "errmsg" (VStr "未知错误")))
        (after_call c' t retry_count u), w')).
Proof using All.
  intros -> Hrd Hcode Hstop. one_call.
  destruct rd as [|kv rd]; [done|]. cbn. rewrite Hcode. cbn. rewrite Ht. cbn.
  unfold max_retries_of, code_in, non_retryable_codes in Hstop. cbn in Hstop.
  by rewrite Hstop.
Qed.

Lemma call_rejected_retry rd r s'' :
  o = Ret (VDict rd) -> rd <> [] ->
  eq_int (dict_get_default rd "errcode" VNone) 0 = false ->
  (retry_count <? max_retries_of upl)%Z
    && negb (code_in (dict_get_default rd "errcode" VNone) non_retryable_codes) = true ->
  (0 <= retry_count)%Z ->
  upload_rec fuel (VDict d) (retry_count + 1)
    (add_log (LogRetry (retry_count + 1) (wait_time retry_count))
       (add_log (LogRejected t (dict_get_default rd "errcode" VNone)
                   (dict_get_default rd "errmsg" (VStr "未知错误")))
          (after_call c' t retry_count u)),
     slept retry_count w') = (Ret r, s'') ->
  upload_rec (S fuel) (VDict d) retry_count (u, w) = (Ret r, s'').
Proof using All.
  intros -> Hrd Hcode Hgo Hrc Hinner. one_call.
  destruct rd as [|kv rd]; [done|]. cbn. rewrite Hcode. cbn. rewrite Ht. cbn.
  unfold max_retries_of, code_in, non_retryable_codes in Hgo. cbn in Hgo.
  rewrite Hgo. cbn. run_eff.
  rewrite (sleep_wait_time _ _ Hrc). cbn.
  unfold after_call, slept in Hinner. fold upload_rec. by rewrite Hinner.
Qed.

Lemma call_bad_response resp :
  o = Ret resp ->
  match resp with VDict (_ :: _) => False | _ => True end ->
  upload_rec (S fuel) (VDict d) retry_count (u, w) =
    (Ret (false, value_or resp unknown_error),
     (add_log (LogBadResponse resp) (after_call c' t retry_count u), w')).
Proof using All.
  intros -> Hbad. one_call.
  destruct resp as [| | | | | | |[|kv rd]]; try done.
Qed.

Lemma call_raised_retry e :
  o = Raise e ->
  (retry_count <? max_retries_of upl)%Z = true ->
  (0 <= retry_count)%Z ->
  upload_rec (S fuel) (VDict d) retry_count (u, w) =
    upload_rec fuel (VDict d) (retry_count + 1)
      (add_log (LogRetryAfterException (retry_count + 1) (wait_time retry_count))
         (add_log (LogException e) (after_call c' t retry_count u)),
       slept retry_count w').
Proof using All.
  intros -> Hgo Hrc. one_call.
  unfold max_retries_of in Hgo. rewrite Hgo. cbn. run_eff.
  rewrite (sleep_wait_time _ _ Hrc). cbn.
  unfold after_call, slept. fold upload_rec.
  by destruct (upload_rec fuel _ _ _).
Qed.

Lemma call_raised_stop e :
  o = Raise e ->
  (retry_count <? max_retries_of upl)%Z = false ->
  upload_rec (S fuel) (VDict d) retry_count (u, w) =
    (Ret (false, VDict [("error", VStr (exn_str e))]),
     (add_log (LogException e) (after_call c' t retry_count u), w')).
Proof using All.
  intros -> Hstop. one_call.
  unfold max_retries_of in Hstop. by rewrite Hstop.
Qed.

End OneCall.

(** The log lines [upload_single_product] writes. *)
Definition single_upload_line (l : log_line) : bool :=
  match l with
  | LogAttempt _ _ | LogUploaded _ _ | LogRejected _ _ _ | LogRetry _ _
  | LogBadResponse _ | LogException _ | LogRetryAfterException _ _ => true
  | _ => false
  end.

Lemma ready_after_call upl c' t retry_count u w w' lines :
  ready upl (u, w) ->
  ready upl (fold_left (fun u l => add_log l u) lines (after_call c' t retry_count u), w').
Proof.
  intros [_ Hu]. unfold ready. cbn [fst snd] in *.
  assert (G : forall v, api_client v = Some c' -> config_upload v = Some upl ->
            (exists c, api_client (fold_left (fun u l => add_log l u) lines v) = Some c)
            /\ config_upload (fold_left (fun u l => add_log l u) lines v) = Some upl).
  { induction lines as [|l ls IH]; intros v Hv1 Hv2; cbn; [eauto|]. by apply IH. }
  by apply G.
Qed.

Lemma upload_fuel upl (u : uploader Client) retry_count :
  config_upload u = Some upl ->
  S (Z.to_nat (configured_max_retries u - retry_count))
  = S (Z.to_nat (max_retries_of upl - retry_count)).
Proof. intros H. unfold configured_max_retries, max_retries_of. by rewrite H. Qed.

(** From a store that holds a client and the upload settings, a call
    whose validation does not raise returns, within the depth
    [max_retries - retry_count + 1], and writes only its own lines. *)
Lemma upload_rec_returns product upl valid fuel :
  validate product = inr valid ->
  forall retry_count s,
    ready upl s ->
    (0 <= retry_count)%Z ->
    Z.to_nat (max_retries_of upl - retry_count) < fuel ->
    exists r s' new,
      upload_rec fuel product retry_count s = (Ret r, s')
      /\ ready upl s'
      /\ log s'.1 = log s.1 ++ new
      /\ forallb single_upload_line new = true.
Proof.
  intros Hvalid. destruct valid.
  2:{ intros rc s Hs _ Hfuel. destruct fuel as [|fuel]; [lia|].
      exists (false, VDict [("error", VStr "商品数据验证失败")]), s, [].
      unfold upload_rec. cbn [upload_single_product_rec]. unfold validate in Hvalid.
      run_eff. rewrite Hvalid. cbn. by rewrite app_nil_r. }
  destruct (valid_product_titled _ Hvalid) as (d & t & -> & Ht).
  induction fuel as [|fuel IH]; intros rc [u w] Hs Hrc Hfuel; [lia|].
  pose proof Hs as [[c Hc] Hu]. cbn [fst snd] in Hc, Hu.
  destruct (client_add_product (VDict d) (c, w)) as [o [c' w']] eqn:Hcall.
  destruct o as [resp|e].
  - destruct (match resp with VDict (_ :: _) => true | _ => false end) eqn:Eshape.
    + destruct resp as [| | | | | | |rd]; try discriminate.
      assert (Hrd : rd <> []) by (by destruct rd).
      destruct (eq_int (dict_get_default rd "errcode" VNone) 0) eqn:Ecode.
      * eexists _, _, [_; _]. split; [|split; [|split]].
        -- eapply call_uploaded; eauto.
        -- apply (ready_after_call upl c' t rc u w w' [_] Hs).
        -- cbn. by rewrite <- app_assoc.
        -- done.
      * destruct ((rc <? max_retries_of upl)%Z
                  && negb (code_in (dict_get_default rd "errcode" VNone)
                             non_retryable_codes)) eqn:Ego.
        -- apply andb_true_iff in Ego as Ego'. destruct Ego' as [Hlt _].
           apply Z.ltb_lt in Hlt.
           pose proof (ready_after_call upl c' t rc u w (slept rc w')
                         [LogRejected t (dict_get_default rd "errcode" VNone)
                            (dict_get_default rd "errmsg" (VStr "未知错误"));
                          LogRetry (rc + 1) (wait_time rc)] Hs) as Hnext.
           destruct (IH (rc + 1)%Z _ Hnext) as (r & s' & new & Hrun & Hready & Hlog & Hnew);
             [lia | lia |].
           exists r, s',
             ([LogAttempt t (rc + 1);
               LogRejected t (dict_get_default rd "errcode" VNone)
                 (dict_get_default rd "errmsg" (VStr "未知错误"));
               LogRetry (rc + 1) (wait_time rc)] ++ new).
           split; [|split; [|split]].
           ++ eapply call_rejected_retry; eauto.
           ++ done.
           ++ rewrite Hlog. cbn. by rewrite <- !app_assoc.
           ++ done.
        -- eexists _, _, [_; _]. split; [|split; [|split]].
           ++ eapply call_rejected_stop; eauto.
           ++ apply (ready_after_call upl c' t rc u w w' [_] Hs).
           ++ cbn. by rewrite <- app_assoc.
           ++ done.
    + eexists _, _, [_; _]. split; [|split; [|split]].
      * eapply call_bad_response; eauto. by destruct resp as [| | | | | | |[|]].
      * apply (ready_after_call upl c' t rc u w w' [_] Hs).
      * cbn. by rewrite <- app_assoc.
      * done.
  - destruct (rc <? max_retries_of upl)%Z eqn:Ego.
    + apply Z.ltb_lt in Ego as Hlt.
      pose proof (ready_after_call upl c' t rc u w (slept rc w')
                    [LogException e;
                     LogRetryAfterException (rc + 1) (wait_time rc)] Hs) as Hnext.
      destruct (IH (rc + 1)%Z _ Hnext) as (r & s' & new & Hrun & Hready & Hlog & Hnew);
        [lia | lia |].
      exists r, s',
        ([LogAttempt t (rc + 1); LogException e;
          LogRetryAfterException (rc + 1) (wait_time rc)] ++ new).
      split; [|split; [|split]].
      * erewrite call_raised_retry; eauto.
      * done.
      * rewrite Hlog. cbn. by rewrite <- !app_assoc.
      * done.
    + eexists _, _, [_; _]. split; [|split; [|split]].
      * eapply call_raised_stop; eauto.
      * apply (ready_after_call upl c' t rc u w w' [_] Hs).
      * cbn. by rewrite <- app_assoc.
      * done.
Qed.

Lemma journal_app l1 l2 : journal (l1 ++ l2) = journal l1 ++ journal l2.
Proof. unfold journal. apply omap_app. Qed.

Lemma attempts_app l1 l2 : attempts (l1 ++ l2) = attempts l1 + attempts l2.
Proof. unfold attempts. by rewrite filter_app, length_app. Qed.

(** The calls of [add_product] of a run in which [retries] + 1
    attempts fail, the first being attempt [retry_count + 1] on the
    client and in the world [cw]: every further call is on the client
    the call before it left, in the world that call left once the sleep
    of [wait_time] is over. The first component lists the stores
    [add_product] is called on, the second is the store the last call
    leaves. *)
Fixpoint failing_calls (product : value) (retries : nat) (retry_count : Z)
    (cw : Client * world) : list (Client * world) * (Client * world) :=
  let after := (client_add_product product cw).2 in
  match retries with
  | O => ([cw], after)
  | S r =>
      let rest := failing_calls product r (retry_count + 1)
                    (after.1, slept retry_count after.2) in
      (cw :: rest.1, rest.2)
  end.

Lemma failing_calls_length product retries retry_count cw :
  length (failing_calls product retries retry_count cw).1 = S retries.
Proof.
  revert retry_count cw. induction retries as [|r IH]; intros rc cw; [done|].
  cbn. by rewrite IH.
Qed.

(** While every call of [add_product] ends in a retryable outcome, the
    call at [retry_count] fails after [max_retries - retry_count]
    retries, and its calls of [add_product] are those of
    [failing_calls]. *)
Lemma persistent_failure_calls product upl fuel :
  validate product = inr true ->
  (forall cs, retryable (client_add_product product cs).1 = true) ->
  forall retry_count s c,
    api_client s.1 = Some c ->
    config_upload s.1 = Some upl ->
    (0 <= retry_count)%Z ->
    Z.to_nat (max_retries_of upl - retry_count) < fuel ->
    exists resp s' new,
      upload_rec fuel product retry_count s = (Ret (false, resp), s')
      /\ log s'.1 = log s.1 ++ new
      /\ journal new =
           linear_backoff (Z.to_nat (max_retries_of upl - retry_count)) (retry_count + 1)
      /\ attempts new = S (Z.to_nat (max_retries_of upl - retry_count))
      /\ api_client s'.1
         = Some (failing_calls product (Z.to_nat (max_retries_of upl - retry_count))
                   retry_count (c, s.2)).2.1
      /\ s'.2
         = (failing_calls product (Z.to_nat (max_retries_of upl - retry_count))
              retry_count (c, s.2)).2.2
      /\ config_upload s'.1 = Some upl.
Proof.
  intros Hvalid Hretry.
  destruct (valid_product_titled _ Hvalid) as (d & t & -> & Ht).
  induction fuel as [|fuel IH]; intros rc [u w] c Hc Hu Hrc Hfuel; [lia|].
  cbn [fst snd] in Hc, Hu.
  assert (Hs : ready upl (u, w)) by (split; [by exists c|done]).
  specialize (Hretry (c, w)) as Ho.
  destruct (client_add_product (VDict d) (c, w)) as [o [c' w']] eqn:Hcall.
  cbn [fst] in Ho.
  destruct (rc <? max_retries_of upl)%Z eqn:Ego.
  - apply Z.ltb_lt in Ego as Hlt.
    assert (Hsucc : Z.to_nat (max_retries_of upl - rc)
                    = S (Z.to_nat (max_retries_of upl - (rc + 1)))) by lia.
    rewrite Hsucc. cbn [failing_calls fst snd]. rewrite Hcall. cbn [fst snd].
    destruct o as [resp|e].
    + destruct resp as [| | | | | | |[|kv rd]]; try discriminate.
      change (negb (eq_int (dict_get_default (kv :: rd) "errcode" VNone) 0)
              && negb (code_in (dict_get_default (kv :: rd) "errcode" VNone)
                         non_retryable_codes) = true) in Ho.
      apply andb_true_iff in Ho as [Hcode Hlist].
      apply negb_true_iff in Hcode.
      destruct (IH (rc + 1)%Z
                  (add_log (LogRetry (rc + 1) (wait_time rc))
                     (add_log (LogRejected t (dict_get_default (kv :: rd) "errcode" VNone)
                                 (dict_get_default (kv :: rd) "errmsg" (VStr "未知错误")))
                        (after_call c' t rc u)),
                   slept rc w') c')
        as (r & s' & new & Hrun & Hlog & Hj & Ha & Hcl & Hw & Hupl);
        [done | done | lia | lia |].
      exists r, s',
        ([LogAttempt t (rc + 1);
          LogRejected t (dict_get_default (kv :: rd) "errcode" VNone)
            (dict_get_default (kv :: rd) "errmsg" (VStr "未知错误"));
          LogRetry (rc + 1) (wait_time rc)] ++ new).
      split; [|split; [|split; [|split; [|split; [|split]]]]]; try done.
      * eapply call_rejected_retry; eauto. by rewrite Ego, Hlist.
      * rewrite Hlog. cbn. by rewrite <- !app_assoc.
      * rewrite journal_app, Hj. cbn. by unfold wait_time.
      * by rewrite attempts_app, Ha.
    + destruct (IH (rc + 1)%Z
                  (add_log (LogRetryAfterException (rc + 1) (wait_time rc))
                     (add_log (LogException e) (after_call c' t rc u)),
                   slept rc w') c')
        as (r & s' & new & Hrun & Hlog & Hj & Ha & Hcl & Hw & Hupl);
        [done | done | lia | lia |].
      exists r, s',
        ([LogAttempt t (rc + 1); LogException e;
          LogRetryAfterException (rc + 1) (wait_time rc)] ++ new).
      split; [|split; [|split; [|split; [|split; [|split]]]]]; try done.
      * erewrite call_raised_retry; eauto.
      * rewrite Hlog. cbn. by rewrite <- !app_assoc.
      * by rewrite journal_app, Hj.
      * by rewrite attempts_app, Ha.
  - apply Z.ltb_ge in Ego as Hge.
    assert (Hzero : Z.to_nat (max_retries_of upl - rc) = 0) by lia.
    rewrite Hzero. cbn [failing_calls fst snd]. rewrite Hcall. cbn [fst snd].
    destruct o as [resp|e].
    + destruct resp as [| | | | | | |[|kv rd]]; try discriminate.
      change (negb (eq_int (dict_get_default (kv :: rd) "errcode" VNone) 0)
              && negb (code_in (dict_get_default (kv :: rd) "errcode" VNone)
                         non_retryable_codes) = true) in Ho.
      apply andb_true_iff in Ho as [Hcode Hlist].
      apply negb_true_iff in Hcode.
      eexists _, _, [_; _].
      split; [|split; [|split; [|split; [|split; [|split]]]]].
      * eapply call_rejected_stop; eauto. by rewrite Ego.
      * cbn. by rewrite <- app_assoc.
      * done.
      * done.
      * done.
      * done.
      * done.
    + eexists _, _, [_; _].
      split; [|split; [|split; [|split; [|split; [|split]]]]].
      * eapply call_raised_stop; eauto.
      * cbn. by rewrite <- app_assoc.
      * done.
      * done.
      * done.
      * done.
      * done.
Qed.

(** While every call of [add_product] ends in a retryable outcome, the
    call at [retry_count] fails after [max_retries - retry_count]
    retries. *)
Lemma persistent_failure_run product upl fuel :
  validate product = inr true ->
  (forall cs, retryable (client_add_product product cs).1 = true) ->
  forall retry_count s,
    ready upl s ->
    (0 <= retry_count)%Z ->
    Z.to_nat (max_retries_of upl - retry_count) < fuel ->
    exists resp s' new,
      upload_rec fuel product retry_count s = (Ret (false, resp), s')
      /\ log s'.1 = log s.1 ++ new
      /\ journal new =
           linear_backoff (Z.to_nat (max_retries_of upl - retry_count)) (retry_count + 1)
      /\ attempts new = S (Z.to_nat (max_retries_of upl - retry_count)).
Proof.
  intros Hvalid Hretry rc s [[c Hc] Hu] Hrc Hfuel.
  destruct (persistent_failure_calls product upl fuel Hvalid Hretry rc s c Hc Hu Hrc Hfuel)
    as (resp & s' & new & Hrun & Hlog & Hj & Ha & _).
  by exists resp, s', new.
Qed.

Lemma code_in_not_zero error_code :
  code_in error_code non_retryable_codes = true -> eq_int error_code 0 = false.
Proof.
  unfold code_in, non_retryable_codes. cbn.
  destruct error_code as [|b|z|q| | | |]; cbn; try done.
  - destruct b; cbn; done.
  - intros H. apply Z.eqb_neq. intros ->. cbn in H. done.
  - intros H. destruct (Qeq_bool q (inject_Z 0)) eqn:E; [|done].
    apply Qeq_bool_eq in E.
    rewrite !orb_true_iff in H. destruct H as [H|[H|[H|H]]]; try done;
      apply Qeq_bool_eq in H; rewrite E in H; discriminate.
Qed.

(** What the calls of [add_product] add to the trace, with the sleep
    of [n * 2] seconds that follows the [n]-th of them, the last one
    apart. *)
Fixpoint backoff_trace (exts : list (list event)) (n : Z) : list event :=
  match exts with
  | [] => []
  | ex :: rest =>
      match rest with
      | [] => ex
      | _ => ex ++ EvSleep (inject_Z (n * 2)) :: backoff_trace rest (n + 1)
      end
  end.

(** [ex] is what the call of [add_product] on the store [cw] adds to
    the trace. *)
Definition adds_to_trace (product : value) (cw : Client * world) (ex : list event) : Prop :=
  trace (client_add_product product cw).2.2 = trace cw.2 ++ ex.

Lemma failing_calls_trace product (P : list event -> Prop) :
  (forall cw, exists ex, adds_to_trace product cw ex /\ P ex) ->
  forall retries retry_count cw,
    exists exts,
      Forall2 (adds_to_trace product) (failing_calls product retries retry_count cw).1 exts
      /\ Forall P exts
      /\ trace (failing_calls product retries retry_count cw).2.2
         = trace cw.2 ++ backoff_trace exts (retry_count + 1).
Proof.
  intros Happend. induction retries as [|r IH]; intros rc cw.
  - destruct (Happend cw) as (ex & Hex & HP). exists [ex]. cbn.
    split; [by repeat constructor|]. split; [by repeat constructor|done].
  - destruct (Happend cw) as (ex & Hex & HP). cbn [failing_calls fst snd].
    destruct (IH (rc + 1)%Z
                ((client_add_product product cw).2.1,
                 slept rc (client_add_product product cw).2.2))
      as (exts & Hall & HPs & Htrace).
    exists (ex :: exts). split; [by constructor|]. split; [by constructor|].
    rewrite Htrace. cbn [snd slept advance emit trace].
    rewrite Hex. unfold wait_time.
    assert (Hne : exts <> []).
    { intros ->. apply Forall2_length in Hall.
      rewrite failing_calls_length in Hall. done. }
    destruct exts as [|ex' exts]; [done|].
    cbn [backoff_trace]. by rewrite <- !app_assoc.
Qed.

(** C5, as the code has it: when every call of [add_product] for a
    valid item ends in a retryable failure (an exception, or a
    non-empty dictionary whose [errcode] is not 0 and not one the code
    exempts), [upload_single_product], from an object that holds the
    client [c] and the settings, returns failure after exactly
    [max_retries + 1] calls of [add_product] ([max_retries] is 3 when
    the key is absent): the calls of [failing_calls], each on the
    client the call before left and in the world that call left once
    the sleep of twice the number of the failed attempt is over; no
    sleep follows the last call. When [add_product] only adds to the
    trace, the trace grows by what the calls add, with the sleeps of
    2, 4, 6, ... seconds between them. The log announces the same
    attempts and waits. An attempt is a call of [add_product]: what a
    call sends, and whether it sleeps itself, is the client's matter. *)
Theorem persistent_retryable_failure_attempts product upl u w c :
  validate product = inr true ->
  api_client u = Some c ->
  config_upload u = Some upl ->
  (0 <= max_retries_of upl)%Z ->
  (forall cs, retryable (client_add_product product cs).1 = true) ->
  exists resp u' w' new,
    upload product 0 (u, w) = (Ret (false, resp), (u', w'))
    /\ length (failing_calls product (Z.to_nat (max_retries_of upl)) 0 (c, w)).1
       = Z.to_nat (max_retries_of upl) + 1
    /\ api_client u'
       = Some (failing_calls product (Z.to_nat (max_retries_of upl)) 0 (c, w)).2.1
    /\ w' = (failing_calls product (Z.to_nat (max_retries_of upl)) 0 (c, w)).2.2
    /\ ((forall cw, exists ex, adds_to_trace product cw ex) ->
        exists exts,
          Forall2 (adds_to_trace product)
            (failing_calls product (Z.to_nat (max_retries_of upl)) 0 (c, w)).1 exts
          /\ trace w' = trace w ++ backoff_trace exts 1)
    /\ log u' = log u ++ new
    /\ attempts new = Z.to_nat (max_retries_of upl) + 1
    /\ journal new = linear_backoff (Z.to_nat (max_retries_of upl)) 1
    /\ (max_retries upl = None -> attempts new = 4).
Proof.
  intros Hvalid Hc Hu Hmr Hretry.
  destruct (persistent_failure_calls product upl
              (S (Z.to_nat (max_retries_of upl - 0))) Hvalid Hretry 0%Z (u, w) c Hc Hu)
    as (resp & [u' w'] & new & Hrun & Hlog & Hj & Ha & Hcl & Hw & _); [lia | lia |].
  exists resp, u', w', new.
  unfold upload, upload_single_product.
  rewrite (upload_fuel upl _ _ Hu). fold upload_rec.
  rewrite Z.sub_0_r in *. cbn [fst snd] in *.
  split; [done|]. split; [rewrite failing_calls_length; lia|].
  split; [done|]. split; [done|]. split.
  { intros Happend.
    destruct (failing_calls_trace product (fun _ => True)
                (fun cw => match Happend cw with
                           | ex_intro _ ex Hex => ex_intro _ ex (conj Hex I)
                           end)
                (Z.to_nat (max_retries_of upl)) 0 (c, w))
      as (exts & Hall & _ & Htrace).
    exists exts. split; [done|]. by rewrite Hw. }
  split; [done|]. split; [lia|]. split; [done|].
  intros Hnone. rewrite Ha. unfold max_retries_of. by rewrite Hnone.
Qed.

(** What the test on the error code comes to for a client that hands
    the remote body through: for an item whose submission always comes
    back with the non-zero error code [code], a fresh call fails after
    exactly one attempt and no wait when [code] is one of
    [non_retryable_codes] (400, 401, 403), and after [max_retries + 1]
    attempts with the waits in between for every other code. *)
Lemma deny_list_decides_for_raw_bodies product upl s code :
  validate product = inr true ->
  ready upl s ->
  (0 <= max_retries_of upl)%Z ->
  code <> 0%Z ->
  (forall cs, exists rd,
      (client_add_product product cs).1 = Ret (VDict rd)
      /\ dict_get rd "errcode" = Some (VInt code)) ->
  exists resp s' new,
    upload product 0 s = (Ret (false, resp), s')
    /\ log s'.1 = log s.1 ++ new
    /\ (if code_in (VInt code) non_retryable_codes
        then attempts new = 1 /\ journal new = [Attempt 1]
        else attempts new = Z.to_nat (max_retries_of upl) + 1
             /\ journal new = linear_backoff (Z.to_nat (max_retries_of upl)) 1).
Proof.
  intros Hvalid Hs Hmr Hcode Hremote.
  destruct (code_in (VInt code) non_retryable_codes) eqn:Elist.
  - destruct (valid_product_titled _ Hvalid) as (d & t & -> & Ht).
    destruct s as [u w]. pose proof Hs as [[c Hc] Hu]. cbn [fst snd] in Hc, Hu.
    destruct (Hremote (c, w)) as (rd & Ho & Hget).
    destruct (client_add_product (VDict d) (c, w)) as [o [c' w']] eqn:Hcall.
    cbn [fst] in Ho. subst o.
    assert (Hdef : dict_get_default rd "errcode" VNone = VInt code)
      by (unfold dict_get_default; by rewrite Hget).
    eexists _, _, [_; _]. split; [|split; [|split]].
    + unfold upload, upload_single_product. cbn [fst].
      rewrite (upload_fuel upl _ _ Hu). fold upload_rec.
      eapply call_rejected_stop; eauto.
      * by destruct rd.
      * rewrite Hdef. by apply Z.eqb_neq.
      * rewrite Hdef, Elist. apply andb_false_r.
    + cbn. by rewrite <- app_assoc.
    + done.
    + done.
  - assert (Hretry : forall cs, retryable (client_add_product product cs).1 = true).
    { intros cs. destruct (Hremote cs) as (rd & -> & Hget).
      destruct rd as [|kv rd]; [discriminate|].
      unfold retryable.
      replace (dict_get_default (kv :: rd) "errcode" VNone) with (VInt code)
        by (unfold dict_get_default; by rewrite Hget).
      rewrite Elist. cbn. apply andb_true_iff. split; [|done].
      apply negb_true_iff. by apply Z.eqb_neq. }
    destruct (persistent_failure_run product upl
                (S (Z.to_nat (max_retries_of upl - 0))) Hvalid Hretry 0%Z s Hs)
      as (resp & s' & new & Hrun & Hlog & Hj & Ha); [lia | lia |].
    exists resp, s', new.
    unfold upload, upload_single_product. destruct Hs as [_ Hu].
    rewrite (upload_fuel upl _ _ Hu). fold upload_rec.
    rewrite Z.sub_0_r in *.
    split; [done|]. split; [done|]. split; [lia|done].
Qed.


(** C10: called on a product that passes validation while
    [self.api_client] is [None] and [_initialize_api_client] raises,
    [upload_single_product] does not return a pair: its handler reads
    [max_retries] before the assignment has run and the call raises
    [UnboundLocalError], a [NameError]. *)
Theorem unbound_max_retries_raises product retry_count s e s1 :
  validate product = inr true ->
  api_client s.1 = None ->
  initialize s = (Raise e, s1) ->
  exists e',
    upload product retry_count s = (Raise e', (add_log (LogException e) s1.1, s1.2))
    /\ exn_cls e' = UnboundLocalError
    /\ is_NameError (exn_cls e') = true.
Proof.
  intros Hvalid Hnone Hinit.
  eexists. split.
  - unfold upload, upload_single_product, upload_rec.
    cbn [upload_single_product_rec]. unfold validate in Hvalid.
    run_eff. rewrite Hvalid. cbn. rewrite Hnone. cbn.
    unfold initialize in Hinit. rewrite Hinit. cbn. reflexivity.
  - split; reflexivity.
Qed.

(** *** Batches *)

(** [product['title']], where the item has one. *)
Definition title_of (product : value) : value :=
  match getitem product "title" with inr t => t | inl _ => VNone end.

(** An item the batch loops can handle: it has a title, and its
    validation comes to a verdict. *)
Definition item_ok (product : value) : bool :=
  match getitem product "title", validate product with
  | inr _, inr _ => true
  | _, _ => false
  end.

(** What the log says of the pacing: the items announced and the
    pauses announced between them. *)
Inductive mark : Type :=
| Item (current_index : Z)
| Pause (seconds : Q).

Definition mark_of (l : log_line) : option mark :=
  match l with
  | LogItem i _ _ => Some (Item i)
  | LogInterval q => Some (Pause q)
  | _ => None
  end.

Definition marks (l : list log_line) : list mark := omap mark_of l.

Lemma marks_app l1 l2 : marks (l1 ++ l2) = marks l1 ++ marks l2.
Proof. unfold marks. apply omap_app. Qed.

Lemma marks_single_upload l :
  forallb single_upload_line l = true -> marks l = [].
Proof.
  induction l as [|x l IH]; [done|]. cbn. intros H.
  apply andb_true_iff in H as [Hx Hl]. unfold marks in *. cbn.
  destruct x; cbn in *; try discriminate; by apply IH.
Qed.

Definition upload_item' :=
  upload_item Client new_client client_add_product
    cfg_app_id cfg_app_secret cfg_api_base_url float_parses.

(** Two states of the object that differ in the log at most. *)
Definition same_but_log (u u' : uploader Client) : Prop :=
  config_api u = config_api u'
  /\ config_upload u = config_upload u'
  /\ api_client u = api_client u'.

(** The world once [time.sleep(request_interval)] has returned. *)
Definition pause (ri : Q) (w : world) : world := advance ri (emit (EvSleep ri) w).

(** The path of a sequential upload through the stores: [items] pairs
    each item with whether a pause follows it. The upload of an item
    starts on the object and in the world that the item before it left
    (log lines apart), after the sleep of [ri] seconds if a pause
    follows that item and at once if none does; [s_end] is the store
    past the last item. *)
Fixpoint paced (ri : Q) (items : list (value * bool))
    (s s_end : uploader Client * world) : Prop :=
  match items with
  | [] => same_but_log s.1 s_end.1 /\ s.2 = s_end.2
  | (product, sleeps) :: rest =>
      exists u0 r s1,
        same_but_log s.1 u0
        /\ upload product 0 (u0, s.2) = (Ret r, s1)
        /\ paced ri rest (s1.1, if sleeps : bool then pause ri s1.2 else s1.2) s_end
  end.

(** The items from position [a] on, each with its position. *)
Definition positions (a : nat) (l : list value) : list (nat * value) :=
  combine (seq a (length l)) l.

Lemma positions_app a l1 l2 :
  positions a (l1 ++ l2) = positions a l1 ++ positions (a + length l1) l2.
Proof.
  revert a. induction l1 as [|x l1 IH]; intros a.
  - cbn. by rewrite Nat.add_0_r.
  - unfold positions in *. cbn. f_equal. rewrite IH. do 3 f_equal. lia.
Qed.

Lemma positions_shift {B} (f g : nat -> B) a b l :
  (forall j, j < length l -> f (a + j) = g (b + j)) ->
  map (fun jp => (jp.2, f jp.1)) (positions a l)
  = map (fun qp => (qp.2, g qp.1)) (positions b l).
Proof.
  revert a b. induction l as [|x l IH]; intros a b H; [done|].
  unfold positions in *. cbn.
  pose proof (H 0 ltac:(cbn; lia)) as H0. rewrite !Nat.add_0_r in H0. rewrite H0.
  f_equal. apply IH. intros j Hj.
  replace (S a + j) with (a + S j) by lia. replace (S b + j) with (b + S j) by lia.
  apply H. cbn. lia.
Qed.

Lemma same_but_log_refl u : same_but_log u u.
Proof. done. Qed.

Lemma same_but_log_trans u1 u2 u3 :
  same_but_log u1 u2 -> same_but_log u2 u3 -> same_but_log u1 u3.
Proof.
  intros (? & ? & ?) (? & ? & ?). repeat split; congruence.
Qed.

Lemma paced_start ri items s x s_end :
  same_but_log s.1 x.1 -> s.2 = x.2 ->
  paced ri items x s_end -> paced ri items s s_end.
Proof.
  intros Hsame Hw. destruct items as [|[product sleeps] rest]; cbn.
  - intros [H1 H2]. split; [by eapply same_but_log_trans|congruence].
  - intros (u0 & r & s1 & H1 & H2 & H3). exists u0, r, s1.
    split; [by eapply same_but_log_trans|]. split; [by rewrite Hw|done].
Qed.

Lemma paced_app ri items1 items2 s s_mid s_end :
  paced ri items1 s s_mid -> paced ri items2 s_mid s_end ->
  paced ri (items1 ++ items2) s s_end.
Proof.
  revert s. induction items1 as [|[product sleeps] rest IH]; intros s; cbn.
  - intros [H1 H2] H. by eapply paced_start.
  - intros (u0 & r & s1 & H1 & H2 & H3) H. exists u0, r, s1.
    split; [done|]. split; [done|]. by apply IH.
Qed.

Lemma upload_returns product upl s :
  item_ok product = true ->
  ready upl s ->
  exists r s' new,
    upload product 0 s = (Ret r, s')
    /\ ready upl s'
    /\ log s'.1 = log s.1 ++ new
    /\ forallb single_upload_line new = true.
Proof.
  intros Hok Hs. unfold item_ok in Hok.
  destruct (getitem product "title"); [done|].
  destruct (validate product) as [|valid] eqn:Hvalid; [done|].
  unfold upload, upload_single_product. destruct Hs as [Hc Hu].
  rewrite (upload_fuel upl _ _ Hu). fold upload_rec.
  apply (upload_rec_returns product upl valid); [done | done | lia | lia].
Qed.

Lemma upload_item_returns upl ri i blen r j product s :
  item_ok product = true ->
  ready upl s ->
  Qle_bool 0 ri = true ->
  exists d s' new,
    upload_item' ri i blen r (j, product) s = (Ret (record_detail r d), s')
    /\ ready upl s'
    /\ index d = (Z.of_nat i + Z.of_nat j + 1)%Z
    /\ title d = title_of product
    /\ log s'.1 =
         log s.1
         ++ [LogItem (Z.of_nat i + Z.of_nat j + 1) (total r) (title_of product)]
         ++ new
         ++ (if (Z.of_nat j <? Z.of_nat blen - 1)%Z then [LogInterval ri] else [])
    /\ forallb single_upload_line new = true
    /\ paced ri [(product, (Z.of_nat j <? Z.of_nat blen - 1)%Z)] s s'.
Proof.
  intros Hok Hs Hri. pose proof Hok as Hok'. unfold item_ok in Hok'.
  unfold title_of.
  destruct (getitem product "title") as [|t] eqn:Ht; [done|].
  destruct product as [| | | | | | |d]; try discriminate.
  destruct s as [u w].
  assert (Hs1 : ready upl
            (add_log (LogItem (Z.of_nat i + Z.of_nat j + 1) (total r) t) u, w)).
  { destruct Hs as [Hc Hu]. by split. }
  destruct (upload_returns (VDict d) upl _ Hok Hs1)
    as ([b resp] & [u2 w2] & new & Hrun & Hready & Hlog & Hnew).
  unfold upload_item', upload_item. run_eff. rewrite Ht. cbn.
  fold upload. rewrite Hrun. cbn.
  assert (Hpath : forall sleeps u3 w3,
            same_but_log u2 u3 ->
            (if sleeps : bool then pause ri w2 else w2) = w3 ->
            paced ri [(VDict d, sleeps)] (u, w) (u3, w3)).
  { intros sleeps u3 w3 Hsame Hw3. cbn [paced fst snd].
    exists (add_log (LogItem (Z.of_nat i + Z.of_nat j + 1) (total r) t) u),
      (b, resp), (u2, w2).
    split; [done|]. split; [exact Hrun|]. done. }
  destruct (Z.of_nat j <? Z.of_nat blen - 1)%Z.
  - run_eff. unfold time_sleep, Qlt_bool. rewrite Hri. cbn.
    eexists _, _, new. split; [reflexivity|]. split.
    { destruct Hready as [Hc Hu]. by split. }
    split; [done|]. split; [done|].
    split; [|split; [done|refine (Hpath true _ _ _ _); done]].
    cbn in *. rewrite Hlog. by rewrite <- !app_assoc.
  - cbn. eexists _, _, new. split; [reflexivity|]. split; [done|].
    split; [done|]. split; [done|].
    split; [|split; [done|refine (Hpath false _ _ _ _); done]].
    cbn in *. rewrite Hlog. rewrite app_nil_r. by rewrite <- !app_assoc.
Qed.

(** The marks one turn of the inner loop leaves, for position [j] of
    a batch of [blen] items that starts at [i]. *)
Definition item_marks (ri : Q) (i blen j : nat) : list mark :=
  Item (Z.of_nat i + Z.of_nat j + 1)
  :: (if (Z.of_nat j <? Z.of_nat blen - 1)%Z then [Pause ri] else []).

Lemma fold_record_detail_app r ds1 ds2 :
  fold_left record_detail (ds1 ++ ds2) r
  = fold_left record_detail ds2 (fold_left record_detail ds1 r).
Proof. apply fold_left_app. Qed.

Lemma inner_loop upl ri i blen items :
  Qle_bool 0 ri = true ->
  Forall (fun p => item_ok p = true) items ->
  forall j0 r s,
    ready upl s ->
    exists ds s' new,
      fold_m (upload_item' ri i blen) (combine (seq j0 (length items)) items) r s
        = (Ret (fold_left record_detail ds r), s')
      /\ ready upl s'
      /\ map index ds
          = map (fun j => (Z.of_nat i + Z.of_nat j + 1)%Z) (seq j0 (length items))
      /\ map title ds = map title_of items
      /\ log s'.1 = log s.1 ++ new
      /\ marks new = flat_map (item_marks ri i blen) (seq j0 (length items))
      /\ paced ri
           (map (fun jp => (jp.2, (Z.of_nat jp.1 <? Z.of_nat blen - 1)%Z))
              (positions j0 items)) s s'.
Proof.
  intros Hri Hitems.
  induction Hitems as [|p items Hp Hitems IH]; intros j0 r s Hs.
  - exists [], s, []. cbn. rewrite app_nil_r. by unfold ret.
  - destruct (upload_item_returns upl ri i blen r j0 p s Hp Hs Hri)
      as (d & s1 & new1 & Hrun & Hs1 & Hidx & Htitle & Hlog1 & Hnew1 & Hpath1).
    destruct (IH (S j0) (record_detail r d) s1 Hs1)
      as (ds & s' & new & Hfold & Hs' & Hidxs & Htitles & Hlog & Hmarks & Hpath).
    exists (d :: ds), s',
      ([LogItem (Z.of_nat i + Z.of_nat j0 + 1) (total r) (title_of p)] ++ new1
       ++ (if (Z.of_nat j0 <? Z.of_nat blen - 1)%Z then [LogInterval ri] else [])
       ++ new).
    split; [|split; [|split; [|split; [|split; [|split]]]]].
    + cbn [length seq combine fold_m]. unfold bind. rewrite Hrun. exact Hfold.
    + done.
    + cbn [length seq map]. by rewrite Hidx, Hidxs.
    + cbn [map]. by rewrite Htitle, Htitles.
    + rewrite Hlog, Hlog1. by rewrite <- !app_assoc.
    + cbn [length seq flat_map]. rewrite <- Hmarks.
      rewrite !marks_app, (marks_single_upload _ Hnew1).
      unfold item_marks. cbn.
      by destruct (Z.of_nat j0 <? Z.of_nat blen - 1)%Z.
    + change (positions j0 (p :: items)) with ((j0, p) :: positions (S j0) items).
      cbn [map fst snd].
      apply (paced_app ri [(p, (Z.of_nat j0 <? Z.of_nat blen - 1)%Z)] _ s s1 s');
        done.
Qed.

(** A pause follows the item at position [q] (counted from 1) of [n]
    items uploaded in batches of [bs] when [q] is not the last of its
    batch. *)
Definition pause_after (bs n q : nat) : bool :=
  negb (q mod bs =? 0)%nat && negb (q =? n)%nat.

(** The marks of the item at position [q0] (counted from 0). *)
Definition position_marks (ri : Q) (bs n q0 : nat) : list mark :=
  Item (Z.of_nat q0 + 1) :: (if pause_after bs n (S q0) then [Pause ri] else []).

Lemma flat_map_seq_shift {A} (f g : nat -> list A) i len :
  (forall j, j < len -> f j = g (i + j)) ->
  flat_map f (seq 0 len) = flat_map g (seq i len).
Proof.
  revert f g i.
  induction len as [|len IH]; intros f g i H; [done|].
  cbn [seq flat_map]. rewrite (H 0), Nat.add_0_r by lia. f_equal.
  rewrite <- seq_shift, flat_map_concat_map, map_map, <- flat_map_concat_map.
  apply IH. intros j Hj. rewrite (H (S j)) by lia. f_equal. lia.
Qed.

Lemma map_seq_shift {A} (f g : nat -> A) i len :
  (forall j, j < len -> f j = g (i + j)) ->
  map f (seq 0 len) = map g (seq i len).
Proof.
  revert f g i. induction len as [|len IH]; intros f g i H; [done|].
  cbn [seq map]. rewrite (H 0), Nat.add_0_r by lia. f_equal.
  rewrite <- seq_shift, map_map. apply IH.
  intros j Hj. rewrite (H (S j)) by lia. f_equal. lia.
Qed.

Lemma pause_in_batch bs n k0 j :
  1 <= bs ->
  j < Nat.min bs (n - k0 * bs) ->
  (Z.of_nat j <? Z.of_nat (Nat.min bs (n - k0 * bs)) - 1)%Z
  = pause_after bs n (S (k0 * bs + j)).
Proof.
  intros Hbs Hj. unfold pause_after.
  assert (Hmod : S (k0 * bs + j) mod bs = S j mod bs).
  { replace (S (k0 * bs + j)) with (S j + k0 * bs) by lia.
    apply Nat.Div0.mod_add. }
  rewrite Hmod.
  destruct (Z.of_nat j <? Z.of_nat (Nat.min bs (n - k0 * bs)) - 1)%Z eqn:E.
  - apply Z.ltb_lt in E. symmetry. apply andb_true_iff. split.
    + apply negb_true_iff, Nat.eqb_neq.
      rewrite Nat.mod_small by lia. lia.
    + apply negb_true_iff, Nat.eqb_neq. lia.
  - apply Z.ltb_ge in E. symmetry. apply andb_false_iff.
    destruct (decide (S j = bs)) as [Heq|Hne].
    + left. apply negb_false_iff, Nat.eqb_eq. rewrite Heq.
      apply Nat.Div0.mod_same.
    + right. apply negb_false_iff, Nat.eqb_eq. lia.
Qed.

Definition upload_batch' :=
  upload_batch Client new_client client_add_product
    cfg_app_id cfg_app_secret cfg_api_base_url float_parses.

Lemma outer_loop upl ri bsZ products :
  (1 <= bsZ)%Z ->
  Qle_bool 0 ri = true ->
  Forall (fun p => item_ok p = true) products ->
  forall cnt k0 r s,
    ready upl s ->
    length products <= (k0 + cnt) * Z.to_nat bsZ ->
    exists ds s' new,
      fold_m (upload_batch' products bsZ ri)
        (map (fun k => k * Z.to_nat bsZ) (seq k0 cnt)) r s
        = (Ret (fold_left record_detail ds r), s')
      /\ ready upl s'
      /\ map index ds
          = map (fun q0 => (Z.of_nat q0 + 1)%Z)
              (seq (k0 * Z.to_nat bsZ) (length products - k0 * Z.to_nat bsZ))
      /\ map title ds = map title_of (drop (k0 * Z.to_nat bsZ) products)
      /\ log s'.1 = log s.1 ++ new
      /\ marks new
          = flat_map (position_marks ri (Z.to_nat bsZ) (length products))
              (seq (k0 * Z.to_nat bsZ) (length products - k0 * Z.to_nat bsZ))
      /\ paced ri
           (map (fun qp => (qp.2, pause_after (Z.to_nat bsZ) (length products) (S qp.1)))
              (positions (k0 * Z.to_nat bsZ) (drop (k0 * Z.to_nat bsZ) products)))
           s s'.
Proof.
  intros Hbs Hri Hitems.
  set (bs := Z.to_nat bsZ). set (n := length products).
  assert (Hbs' : 1 <= bs) by lia.
  induction cnt as [|cnt IH]; intros k0 r s Hs Hcover.
  - exists [], s, []. cbn [seq map fold_m fold_left].
    replace (n - k0 * bs) with 0 by lia.
    rewrite drop_ge by (fold n; lia).
    rewrite app_nil_r. by unfold ret.
  - set (i := k0 * bs).
    set (batch := take bs (drop i products)).
    assert (Hlen : length batch = Nat.min bs (n - i)).
    { unfold batch. rewrite length_take, length_drop. done. }
    assert (Hbatch : Forall (fun p => item_ok p = true) batch).
    { unfold batch. by apply Forall_take, Forall_drop. }
    destruct s as [u w].
    assert (Hs0 : ready upl
              (add_log (LogBatch (Z.of_nat i + 1)
                          (Z.min (Z.of_nat i + bsZ) (Z.of_nat (length products)))
                          (Z.of_nat (length products))) u, w)).
    { destruct Hs as [Hc Hu]. by split. }
    destruct (inner_loop upl ri i (length batch) batch Hri Hbatch 0 r _ Hs0)
      as (ds1 & s1 & new1 & Hrun1 & Hs1 & Hidx1 & Htitle1 & Hlog1 & Hmarks1 & Hpath1).
    destruct (IH (S k0) (fold_left record_detail ds1 r) s1 Hs1)
      as (ds2 & s2 & new2 & Hrun2 & Hs2 & Hidx2 & Htitle2 & Hlog2 & Hmarks2 & Hpath2);
      [lia|].
    assert (Hsplit : n - i = length batch + (n - S k0 * bs)) by (unfold i; lia).
    assert (Hseq : seq i (n - i) = seq i (length batch) ++ seq (S k0 * bs) (n - S k0 * bs)).
    { rewrite Hsplit, seq_app.
      destruct (decide (n - S k0 * bs = 0)) as [->|Hne]; [done|].
      f_equal. f_equal. unfold i in *. lia. }
    exists (ds1 ++ ds2), s2,
      ([LogBatch (Z.of_nat i + 1)
          (Z.min (Z.of_nat i + bsZ) (Z.of_nat (length products)))
          (Z.of_nat (length products))] ++ new1 ++ new2).
    split; [|split; [|split; [|split; [|split; [|split]]]]].
    + cbn [seq map fold_m]. unfold bind at 1.
      unfold upload_batch' at 1, upload_batch.
      fold bs. fold i. fold batch. run_eff.
      unfold enumerate. fold upload_item'.
      rewrite Hrun1. rewrite fold_record_detail_app. exact Hrun2.
    + done.
    + rewrite map_app, Hidx1, Hidx2. fold i. rewrite Hseq, map_app. f_equal.
      apply map_seq_shift. intros j Hj. lia.
    + rewrite map_app, Htitle1, Htitle2, <- map_app. f_equal.
      unfold batch. fold i.
      replace (S k0 * bs) with (i + bs) by (unfold i; lia).
      rewrite <- drop_drop. by rewrite take_drop.
    + rewrite Hlog2, Hlog1. cbn. by rewrite <- !app_assoc.
    + rewrite !marks_app, Hmarks1, Hmarks2. cbn [marks omap list_omap mark_of app].
      fold i. rewrite Hseq, flat_map_app. f_equal.
      apply flat_map_seq_shift.
      intros j Hj. unfold item_marks, position_marks.
      rewrite Hlen in *. unfold i in *.
      rewrite (pause_in_batch bs n k0 j Hbs' Hj).
      f_equal. f_equal. lia.
    + fold i.
      assert (Hdrop : drop i products = batch ++ drop (S k0 * bs) products).
      { unfold batch. replace (S k0 * bs) with (i + bs) by (unfold i; lia).
        rewrite <- drop_drop. by rewrite take_drop. }
      rewrite Hdrop, positions_app, map_app.
      apply (paced_app ri _ _ _ s1).
      * apply (paced_start ri _ _
                 (add_log (LogBatch (Z.of_nat i + 1)
                             (Z.min (Z.of_nat i + bsZ) (Z.of_nat (length products)))
                             (Z.of_nat (length products))) u, w)); [done|done|].
        rewrite <- (positions_shift
                      (fun j => (Z.of_nat j <? Z.of_nat (length batch) - 1)%Z)
                      (fun q => pause_after bs n (S q)) 0 i batch); [exact Hpath1|].
        intros j Hj. cbn [Nat.add]. rewrite Hlen in *. unfold i.
        apply (pause_in_batch bs n k0 j Hbs' Hj).
      * destruct (drop (S k0 * bs) products) as [|x rest] eqn:Hrest; [exact Hpath2|].
        assert (Hfull : i + length batch = S k0 * bs).
        { assert (S k0 * bs < n).
          { apply (f_equal length) in Hrest. rewrite length_drop in Hrest.
            cbn in Hrest. fold n in Hrest. lia. }
          rewrite Hlen. unfold i. lia. }
        by rewrite Hfull.
Qed.

Definition upload_products' :=
  upload_products Client new_client client_add_product
    cfg_app_id cfg_app_secret cfg_api_base_url float_parses.

(** The ranges [_validate_config] enforces. *)
Definition validated (upl : upload_config) : Prop :=
  (exists bs, batch_size upl = Some bs /\ (1 <= bs <= 100)%Z)
  /\ (exists ri, request_interval upl = Some ri /\ (1 # 10 <= ri)%Q /\ (ri <= 60)%Q)
  /\ (exists mr, max_retries upl = Some mr /\ (0 <= mr <= 10)%Z)
  /\ (exists t, timeout upl = Some t /\ (5 <= t)%Q /\ (t <= 300)%Q)
  /\ (exists mc, max_concurrency upl = Some mc /\ (1 <= mc <= 20)%Z).

Lemma validate_Z_range lo hi default v :
  (lo <= default <= hi)%Z ->
  exists x, validate_Z lo hi default v = Some x /\ (lo <= x <= hi)%Z.
Proof.
  intros H. unfold validate_Z. destruct v as [x|]; [|eauto].
  destruct ((lo <=? x)%Z && (x <=? hi)%Z) eqn:E; [|eauto].
  exists x. split; [done|]. apply andb_true_iff in E as [E1 E2]. lia.
Qed.

Lemma validate_Q_range lo hi default v :
  (lo <= default)%Q -> (default <= hi)%Q ->
  exists x, validate_Q lo hi default v = Some x /\ (lo <= x)%Q /\ (x <= hi)%Q.
Proof.
  intros H1 H2. unfold validate_Q. destruct v as [x|]; [|eauto].
  destruct (Qle_bool lo x && Qle_bool x hi) eqn:E; [|eauto].
  exists x. split; [done|]. apply andb_true_iff in E as [E1 E2].
  split; by apply Qle_bool_iff.
Qed.

(** [_validate_config] leaves every setting present and in range. *)
Lemma validate_config_validated (u : uploader Client) :
  exists upl, config_upload (_validate_config u) = Some upl /\ validated upl.
Proof.
  unfold _validate_config. cbn. eexists. split; [reflexivity|].
  unfold validated. cbn.
  split; [apply validate_Z_range; lia|].
  split; [apply validate_Q_range; unfold Qle; cbn; lia|].
  split; [apply validate_Z_range; lia|].
  split; [apply validate_Q_range; unfold Qle; cbn; lia|].
  apply validate_Z_range; lia.
Qed.

Lemma range_covers n bsZ :
  (1 <= bsZ)%Z ->
  exists cnt,
    range_from_zero n bsZ = inr (map (fun k => k * Z.to_nat bsZ) (seq 0 cnt))
    /\ n <= (0 + cnt) * Z.to_nat bsZ.
Proof.
  intros H. unfold range_from_zero.
  destruct (bsZ =? 0)%Z eqn:E0; [lia|].
  destruct (bsZ <? 0)%Z eqn:E1; [lia|].
  eexists. split; [reflexivity|].
  set (st := Z.to_nat bsZ). assert (1 <= st) by lia.
  pose proof (Nat.div_mod_eq (n + st - 1) st) as Hdm.
  pose proof (Nat.mod_upper_bound (n + st - 1) st ltac:(lia)) as Hub.
  nia.
Qed.

Lemma fold_record_detail_facts ds r :
  total (fold_left record_detail ds r) = total r
  /\ details (fold_left record_detail ds r) = details r ++ ds
  /\ (success (fold_left record_detail ds r) + failed (fold_left record_detail ds r)
      = success r + failed r + Z.of_nat (length ds))%Z
  /\ (success r <= success (fold_left record_detail ds r))%Z
  /\ (failed r <= failed (fold_left record_detail ds r))%Z.
Proof.
  revert r. induction ds as [|d ds IH]; intros r.
  - cbn. rewrite app_nil_r. repeat split; lia.
  - cbn [fold_left]. destruct (IH (record_detail r d)) as (H1 & H2 & H3 & H4 & H5).
    rewrite H1, H2. cbn [length]. unfold record_detail in *. cbn in *.
    rewrite <- app_assoc. cbn.
    destruct (detail_success d); repeat split; try done; lia.
Qed.

(** The run of [upload_products] on a non-empty list of items. *)
Lemma upload_products_run upl bsZ ri p0 rest s :
  ready upl s ->
  batch_size upl = Some bsZ -> (1 <= bsZ)%Z ->
  request_interval upl = Some ri -> Qle_bool 0 ri = true ->
  Forall (fun p => item_ok p = true) (p0 :: rest) ->
  exists ds s' new,
    upload_products' (p0 :: rest) s
      = (Ret (finalize
                (fold_left record_detail ds
                   (MkResults (Z.of_nat (length (p0 :: rest))) 0 0 [] None None))
                (now s.2) (now s'.2)), s')
    /\ ready upl s'
    /\ map index ds
        = map (fun q0 => (Z.of_nat q0 + 1)%Z) (seq 0 (length (p0 :: rest)))
    /\ map title ds = map title_of (p0 :: rest)
    /\ log s'.1 = log s.1 ++ new
    /\ marks new
        = flat_map (position_marks ri (Z.to_nat bsZ) (length (p0 :: rest)))
            (seq 0 (length (p0 :: rest)))
    /\ paced ri
         (map (fun qp => (qp.2, pause_after (Z.to_nat bsZ) (length (p0 :: rest)) (S qp.1)))
            (enumerate (p0 :: rest)))
         s s'.
Proof.
  intros Hs Hbs Hbs1 Hri Hri0 Hitems.
  set (products := p0 :: rest) in *.
  destruct (range_covers (length products) bsZ Hbs1) as (cnt & Hrange & Hcover).
  destruct (outer_loop upl ri bsZ products Hbs1 Hri0 Hitems cnt 0
              (MkResults (Z.of_nat (length products)) 0 0 [] None None) s Hs Hcover)
    as (ds & s' & new & Hrun & Hs' & Hidx & Htitle & Hlog & Hmarks & Hpath).
  rewrite Nat.mul_0_l, Nat.sub_0_r in *. rewrite drop_0 in Htitle, Hpath.
  exists ds, s', new.
  split; [|done].
  unfold upload_products', upload_products. subst products.
  cbv zeta. unfold upload_setting. destruct Hs as [Hc Hu].
  run_eff. rewrite Hu, Hbs. cbn -[length]. rewrite Hu, Hri. cbn -[length].
  rewrite Hrange. cbn -[length].
  fold upload_batch'.
  destruct s as [u w]. cbn [fst snd] in *. rewrite Hrun.
  by destruct s'.
Qed.

(** *** The asynchronous batch *)

Definition upload_with_semaphore' :=
  upload_with_semaphore Client new_client client_add_product
    cfg_app_id cfg_app_secret cfg_api_base_url float_parses.

Definition upload_products_async' :=
  upload_products_async Client new_client client_add_product
    cfg_app_id cfg_app_secret cfg_api_base_url float_parses.

Lemma upload_with_semaphore_returns upl total product idx s :
  item_ok product = true ->
  ready upl s ->
  exists d s',
    upload_with_semaphore' total product idx s = (Ret d, s')
    /\ ready upl s'
    /\ index d = idx
    /\ title d = title_of product.
Proof.
  intros Hok Hs. pose proof Hok as Hok'. unfold item_ok in Hok'.
  unfold title_of.
  destruct (getitem product "title") as [|t] eqn:Ht; [done|].
  destruct product as [| | | | | | |d]; try discriminate.
  destruct s as [u w].
  assert (Hs1 : ready upl (add_log (LogAsyncItem idx total t) u, w)).
  { destruct Hs as [Hc Hu]. by split. }
  destruct (upload_returns (VDict d) upl _ Hok Hs1)
    as ([b resp] & [u2 w2] & new & Hrun & Hready & Hlog & Hnew).
  unfold upload_with_semaphore', upload_with_semaphore. run_eff. rewrite Ht. cbn.
  fold upload. rewrite Hrun. cbn.
  eexists _, _. split; [reflexivity|]. done.
Qed.

Lemma lookup_enumerate {A} (l : list A) j0 k :
  combine (seq j0 (length l)) l !! k = (fun x => (j0 + k, x)) <$> l !! k.
Proof.
  revert j0 k. induction l as [|x l IH]; intros j0 k; [done|].
  destruct k as [|k]; cbn.
  - by rewrite Nat.add_0_r.
  - rewrite IH. destruct (l !! k); cbn; [|done]. do 2 f_equal. lia.
Qed.

(** The record a task leaves for the item at position [k]. *)
Definition placed (products : list value) (k : nat) (d : detail) : Prop :=
  index d = (Z.of_nat k + 1)%Z /\ Some (title d) = title_of <$> products !! k.

Lemma run_tasks_returns upl products order :
  Forall (fun p => item_ok p = true) products ->
  forall slots s,
    ready upl s ->
    (forall k d, slots !! k = Some d -> placed products k d) ->
    exists slots' s',
      run_tasks
        (map (fun ip => upload_with_semaphore' (Z.of_nat (length products)) ip.2
                          (Z.of_nat ip.1 + 1))
             (enumerate products))
        order slots s = (Ret slots', s')
      /\ ready upl s'
      /\ (forall k d, slots' !! k = Some d -> placed products k d)
      /\ (forall k, k ∈ order -> k < length products -> is_Some (slots' !! k))
      /\ (forall k, is_Some (slots !! k) -> is_Some (slots' !! k)).
Proof.
  intros Hitems. induction order as [|k order IH]; intros slots s Hs Hslots.
  - exists slots, s. cbn. split; [done|]. split; [done|]. split; [done|].
    split; [|done]. intros k Hk. by apply elem_of_nil in Hk.
  - cbn [run_tasks]. rewrite list_lookup_fmap. unfold enumerate.
    rewrite lookup_enumerate.
    destruct (products !! k) as [p|] eqn:Hp; cbn.
    + assert (Hok : item_ok p = true).
      { rewrite Forall_forall in Hitems. apply Hitems.
        apply list_elem_of_lookup. eauto. }
      destruct (upload_with_semaphore_returns upl (Z.of_nat (length products)) p
                  (Z.of_nat k + 1) s Hok Hs) as (d & s1 & Hrun & Hs1 & Hidx & Htitle).
      rewrite Hrun.
      destruct (IH (<[k := d]> slots) s1 Hs1) as (slots' & s' & Hrest & Hs' & Hall & Hin & Hkeep).
      { intros k' d' Hlook. destruct (decide (k = k')) as [<-|Hne].
        - rewrite lookup_insert_eq in Hlook. injection Hlook as <-.
          split; [done|]. by rewrite Hp, Htitle.
        - rewrite lookup_insert_ne in Hlook by done. by apply Hslots. }
      exists slots', s'. split; [done|]. split; [done|]. split; [done|]. split.
      * intros k' Hk' Hlt. apply elem_of_cons in Hk' as [->|Hk']; [|by apply Hin].
        apply Hkeep. rewrite lookup_insert_eq. eauto.
      * intros k' Hsome. apply Hkeep.
        destruct (decide (k = k')) as [<-|Hne];
          [rewrite lookup_insert_eq; eauto | by rewrite lookup_insert_ne].
    + destruct (IH slots s Hs Hslots) as (slots' & s' & Hrest & Hs' & Hall & Hin & Hkeep).
      exists slots', s'. split; [done|]. split; [done|]. split; [done|]. split; [|done].
      intros k' Hk' Hlt. apply elem_of_cons in Hk' as [->|Hk']; [|by apply Hin].
      apply lookup_ge_None in Hp. lia.
Qed.

Lemma omap_all_present {A} (f : nat -> option A) (l : list nat) :
  (forall k, k ∈ l -> is_Some (f k)) ->
  length (omap f l) = length l
  /\ forall i, omap f l !! i = l !! i ≫= f.
Proof.
  induction l as [|x l IHl]; intros H; [done|].
  assert (Hx : is_Some (f x)) by (apply H; left).
  assert (Hl : forall k, k ∈ l -> is_Some (f k)) by (intros k Hk; apply H; by right).
  destruct Hx as [a Ha]. specialize (IHl Hl) as [IH1 IH2].
  cbn. rewrite Ha. cbn. split; [by rewrite IH1|].
  intros [|i]; cbn; [done|]. apply IH2.
Qed.

(** The run of [upload_products_async] on a non-empty list of items,
    whatever the order in which the tasks complete. *)
Lemma upload_products_async_run upl order p0 rest s :
  ready upl s ->
  (1 <= match max_concurrency upl with Some m => m | None => 5 end)%Z ->
  Forall (fun p => item_ok p = true) (p0 :: rest) ->
  order ≡ₚ seq 0 (length (p0 :: rest)) ->
  exists ds s',
    upload_products_async' order (p0 :: rest) s
      = (Ret (finalize
                (fold_left record_detail ds
                   (MkResults (Z.of_nat (length (p0 :: rest))) 0 0 [] None None))
                (now s.2) (now s'.2)), s')
    /\ length ds = length (p0 :: rest)
    /\ forall i d, ds !! i = Some d -> placed (p0 :: rest) i d.
Proof.
  intros Hs Hmc Hitems Hperm.
  set (products := p0 :: rest) in *.
  destruct (run_tasks_returns upl products order Hitems ∅ s Hs)
    as (slots & s' & Hrun & Hs' & Hall & Hin & _).
  { intros k d Hk. by rewrite lookup_empty in Hk. }
  assert (Hpresent : forall k, k ∈ seq 0 (length products) -> is_Some (slots !! k)).
  { intros k Hk. apply Hin; [by rewrite Hperm|]. apply elem_of_seq in Hk. lia. }
  destruct (omap_all_present (fun k => slots !! k) _ Hpresent) as [Hlen Hlook].
  exists (omap (fun k => slots !! k) (seq 0 (length products))), s'.
  split; [|split].
  - unfold upload_products_async', upload_products_async. subst products.
    cbv zeta. destruct Hs as [Hc Hu]. run_eff. rewrite Hu. cbn -[length Z.min].
    set (n := length (p0 :: rest)) in *.
    assert (Hn : (1 <= Z.of_nat n)%Z) by (unfold n; cbn; lia).
    destruct (Z.min _ (Z.of_nat n) <? 0)%Z eqn:E1; [lia|].
    cbn -[length Z.min].
    destruct (Z.min _ (Z.of_nat n) =? 0)%Z eqn:E2; [lia|].
    unfold gather. fold upload_with_semaphore'.
    rewrite length_map. unfold enumerate at 2. rewrite length_combine, length_seq.
    rewrite Nat.min_id. fold n.
    destruct s as [u w]. cbn [fst snd] in *. fold n in Hrun. rewrite Hrun.
    by destruct s'.
  - by rewrite Hlen, length_seq.
  - intros i d Hd. rewrite Hlook in Hd.
    destruct (seq 0 (length products) !! i) as [k|] eqn:Hk; [|done].
    apply lookup_seq in Hk as [-> _]. cbn in Hd. by apply Hall.
Qed.

Lemma validated_pacing upl :
  validated upl ->
  exists bsZ ri,
    batch_size upl = Some bsZ /\ (1 <= bsZ)%Z
    /\ request_interval upl = Some ri /\ Qle_bool 0 ri = true
    /\ (1 <= match max_concurrency upl with Some m => m | None => 5 end)%Z.
Proof.
  intros ((bs & Hbs & Hbs1) & (ri & Hri & Hri1 & _) & _ & _ & (mc & Hmc & Hmc1)).
  exists bs, ri. rewrite Hmc. repeat split; try done; try lia.
  apply Qle_bool_iff. eapply Qle_trans; [|exact Hri1]. by unfold Qle.
Qed.

Lemma placed_of_maps products ds :
  map index ds = map (fun q0 => (Z.of_nat q0 + 1)%Z) (seq 0 (length products)) ->
  map title ds = map title_of products ->
  length ds = length products
  /\ forall i d, ds !! i = Some d -> placed products i d.
Proof.
  intros Hidx Htitle.
  assert (Hlen : length ds = length products).
  { apply (f_equal length) in Htitle. by rewrite !length_map in Htitle. }
  split; [done|]. intros i d Hd. split.
  - apply (f_equal (fun l => l !! i)) in Hidx.
    rewrite !list_lookup_fmap, Hd in Hidx. cbn in Hidx.
    destruct (seq 0 (length products) !! i) as [k|] eqn:Hk; [|done].
    apply lookup_seq in Hk as [-> _]. cbn in Hidx. by injection Hidx.
  - apply (f_equal (fun l => l !! i)) in Htitle.
    rewrite !list_lookup_fmap, Hd in Htitle. done.
Qed.

(** C1, as the code has it: from a store that holds a client and the
    validated settings, a batch upload of items that each have a title
    and on which [_validate_product_data] comes to a verdict, [True] or
    [False], without raising ([item_ok]) returns one record per item,
    the record at position [i] (from 0) is the one of item [i] and its
    [index] is [i + 1]: the records are numbered from 1. The same holds
    for [upload_products_async] in whatever order the tasks
    complete. *)
Theorem details_follow_input_order products upl s :
  ready upl s ->
  validated upl ->
  Forall (fun p => item_ok p = true) products ->
  (exists r s',
      upload_products' products s = (Ret r, s')
      /\ length (details r) = length products
      /\ forall i d, details r !! i = Some d ->
           index d = (Z.of_nat i + 1)%Z /\ placed products i d)
  /\ (forall order,
        order ≡ₚ seq 0 (length products) ->
        exists r s',
          upload_products_async' order products s = (Ret r, s')
          /\ length (details r) = length products
          /\ forall i d, details r !! i = Some d ->
               index d = (Z.of_nat i + 1)%Z /\ placed products i d).
Proof.
  intros Hs Hv Hitems.
  destruct (validated_pacing upl Hv) as (bsZ & ri & Hbs & Hbs1 & Hri & Hri0 & Hmc).
  destruct products as [|p0 rest].
  { split; [|intros order _]; exists empty_results, s; by repeat split. }
  split.
  - destruct (upload_products_run upl bsZ ri p0 rest s Hs Hbs Hbs1 Hri Hri0 Hitems)
      as (ds & s' & new & Hrun & _ & Hidx & Htitle & _).
    destruct (placed_of_maps _ _ Hidx Htitle) as [Hlen Hplaced].
    eexists _, s'. split; [exact Hrun|].
    destruct (fold_record_detail_facts ds
                (MkResults (Z.of_nat (length (p0 :: rest))) 0 0 [] None None))
      as (_ & Hd & _).
    unfold finalize. cbn [details]. rewrite Hd. cbn [details app].
    split; [done|]. intros i d Hi. split; [|by apply Hplaced]. by apply Hplaced.
  - intros order Hperm.
    destruct (upload_products_async_run upl order p0 rest s Hs Hmc Hitems Hperm)
      as (ds & s' & Hrun & Hlen & Hplaced).
    eexists _, s'. split; [exact Hrun|].
    destruct (fold_record_detail_facts ds
                (MkResults (Z.of_nat (length (p0 :: rest))) 0 0 [] None None))
      as (_ & Hd & _).
    unfold finalize. cbn [details]. rewrite Hd. cbn [details app].
    split; [done|]. intros i d Hi. split; [|by apply Hplaced]. by apply Hplaced.
Qed.

(** C6, as the code has it: from a store that holds a client and the
    validated settings, [upload_products] on items that each have a
    title and on which [_validate_product_data] comes to a verdict,
    [True] or [False], without raising ([item_ok]) returns, whatever
    the uploads come to: one record per item, and [total], [success]
    and [failed] with [success + failed = total]. For a non-empty list
    the result has [duration] and [success_rate] too; for the empty
    list it has neither. *)
Theorem batch_upload_returns_summary products upl s :
  ready upl s ->
  validated upl ->
  Forall (fun p => item_ok p = true) products ->
  exists r s',
    upload_products' products s = (Ret r, s')
    /\ length (details r) = length products
    /\ total r = Z.of_nat (length products)
    /\ (success r + failed r = total r)%Z
    /\ (0 <= success r)%Z /\ (0 <= failed r)%Z
    /\ (products = [] -> duration r = None /\ success_rate r = None)
    /\ (products <> [] -> is_Some (duration r) /\ is_Some (success_rate r)).
Proof.
  intros Hs Hv Hitems.
  destruct (validated_pacing upl Hv) as (bsZ & ri & Hbs & Hbs1 & Hri & Hri0 & Hmc).
  destruct products as [|p0 rest].
  { exists empty_results, s. by repeat split. }
  destruct (upload_products_run upl bsZ ri p0 rest s Hs Hbs Hbs1 Hri Hri0 Hitems)
    as (ds & s' & new & Hrun & _ & Hidx & Htitle & _).
  destruct (placed_of_maps _ _ Hidx Htitle) as [Hlen _].
  eexists _, s'. split; [exact Hrun|].
  destruct (fold_record_detail_facts ds
              (MkResults (Z.of_nat (length (p0 :: rest))) 0 0 [] None None))
    as (Ht & Hd & Hsum & Hsucc & Hfail).
  unfold finalize. cbn [details total success failed duration success_rate] in *.
  rewrite Hd, Ht, Hsum, Hlen. cbn [app].
  repeat split; try done; try lia; eauto.
Qed.

(** C7, as the code has it: from a store that holds a client and the
    settings, with [batch_size] at least 1 and [request_interval] not
    negative, [upload_products] on a non-empty list of items that each
    have a title and a validation that does not raise goes through the
    items in order ([paced]): the upload of an item starts in the world
    the upload before it left, after one [time.sleep(request_interval)]
    when the item before is not the last of its batch (its position,
    counted from 1, is neither a multiple of [batch_size] nor the
    length of the list), and at once when it is; nothing follows the
    last upload. The log announces the same items and pauses. When the
    list fits in one batch, the pause follows every item but the
    last. *)
Theorem pacing_within_batches products upl bsZ ri s :
  ready upl s ->
  batch_size upl = Some bsZ -> (1 <= bsZ)%Z ->
  request_interval upl = Some ri -> Qle_bool 0 ri = true ->
  Forall (fun p => item_ok p = true) products ->
  products <> [] ->
  exists r s' new,
    upload_products' products s = (Ret r, s')
    /\ paced ri
         (map (fun qp => (qp.2, pause_after (Z.to_nat bsZ) (length products) (S qp.1)))
            (enumerate products))
         s s'
    /\ log s'.1 = log s.1 ++ new
    /\ marks new
        = flat_map (position_marks ri (Z.to_nat bsZ) (length products))
            (seq 0 (length products))
    /\ (length products <= Z.to_nat bsZ ->
        forall q, 1 <= q <= length products ->
          pause_after (Z.to_nat bsZ) (length products) q
          = negb (q =? length products)%nat).
Proof.
  intros Hs Hbs Hbs1 Hri Hri0 Hitems Hne.
  destruct products as [|p0 rest]; [done|].
  destruct (upload_products_run upl bsZ ri p0 rest s Hs Hbs Hbs1 Hri Hri0 Hitems)
    as (ds & s' & new & Hrun & _ & _ & _ & Hlog & Hmarks & Hpath).
  eexists _, s', new. split; [exact Hrun|]. split; [done|]. split; [done|].
  split; [done|].
  intros Hfit q Hq.
  set (n := length (p0 :: rest)) in *.
  unfold pause_after.
  destruct (decide (q = n)) as [Heq|Hneq].
  - rewrite Heq, Nat.eqb_refl. cbn. by rewrite andb_false_r.
  - rewrite Nat.mod_small by lia.
    replace (q =? 0)%nat with false by (symmetry; apply Nat.eqb_neq; lia).
    replace (q =? n)%nat with false by (symmetry; by apply Nat.eqb_neq).
    done.
Qed.

End WithClient.

End SingleUpload.

(** ** The access token *)

Module Token.
Import WeChatShopAPIClient Concurrent.

#[local] Arguments _check_config : simpl never.
#[local] Arguments refresh_prepare : simpl never.
#[local] Arguments token_is_valid : simpl never.
#[local] Arguments refresh_store : simpl never.
#[local] Arguments contains : simpl never.
#[local] Arguments getitem : simpl never.
#[local] Arguments get_method : simpl never.
#[local] Arguments as_float : simpl never.
#[local] Arguments fadd : simpl never.
#[local] Arguments fsub : simpl never.

Ltac run_eff :=
  unfold in_world, self, update_self, of_sum, bind, ret, raise,
    lift_snd, lift_fst, with_frame, try_catch, modify, get in *;
  cbn [fst snd] in *.

(** The cached token is handed out: the clock is strictly before the
    stored expiry, nothing is sent and nothing is stored. *)
Definition served_from_cache (c : client) (w : world) (out : outcome value)
    (c' : client) (w' : world) : Prop :=
  token_is_valid c (now w) = true
  /\ (exists x, token_expire_time c = Finite x /\ (now w < x)%Q)
  /\ out = Ret (access_token c) /\ c' = c /\ w' = w.

(** The cached token is set and its stored expiry is infinite: the log
    line of the cached branch cannot print the seconds left. *)
Definition cache_overflows (c : client) (w : world) (out : outcome value)
    (c' : client) (w' : world) : Prop :=
  token_is_valid c (now w) = true
  /\ token_expire_time c = Special PosInf
  /\ (exists e, out = Raise e /\ exn_cls e = OverflowError)
  /\ c' = c /\ w' = w.

(** One request went to the token endpoint; the token of its answer
    [body] is stored, with the expiry [now + expires_in - 1200] in the
    arithmetic of doubles, and is returned. *)
Definition refreshed (c : client) (w : world) (out : outcome value)
    (c' : client) (w' : world) : Prop :=
  token_is_valid c (now w) = false
  /\ exists req body tok e n x,
       trace w' = trace w ++ [EvRequest req]
       /\ req_method req = GET
       /\ result (remote w (served w) req) = Json body
       /\ getitem body "access_token" = inr tok
       /\ get_method body "expires_in" (VInt 7200) = inr e
       /\ as_float e = inr n
       /\ fsub (fadd (Finite (now w')) n) (Finite 1200) = Finite x
       /\ calendar w x = true
       /\ out = Ret tok
       /\ access_token c' = tok
       /\ token_expire_time c' = Finite x.

(** No token is to be had: [None] is returned, after one request to
    the token endpoint at most. *)
Definition declined (c : client) (w : world) (out : outcome value)
    (c' : client) (w' : world) : Prop :=
  token_is_valid c (now w) = false
  /\ out = Ret VNone
  /\ (trace w' = trace w
      \/ exists req, req_method req = GET /\ trace w' = trace w ++ [EvRequest req]).

Lemma flt_spec t x :
  flt t x = true <-> (exists q, x = Finite q /\ (t < q)%Q) \/ x = Special PosInf.
Proof.
  destruct x as [q|[| |]]; cbn.
  - unfold Qlt_bool. rewrite negb_true_iff. split.
    + intros H. left. exists q. split; [done|].
      apply Qnot_le_lt. intros Hle. apply Qle_bool_iff in Hle. congruence.
    + intros [(q' & [= <-] & Hlt)|]; [|done].
      destruct (Qle_bool q t) eqn:E; [|done].
      apply Qle_bool_iff in E. by apply Qle_not_lt in E.
  - split; [by right|done].
  - split; [done|]. by intros [(q & ? & _)|].
  - split; [done|]. by intros [(q & ? & _)|].
Qed.

Lemma token_is_valid_spec c t :
  token_is_valid c t = true
  <-> truthy (access_token c) = true /\ flt t (token_expire_time c) = true.
Proof. unfold token_is_valid. apply andb_true_iff. Qed.

Lemma prepared_request_is_get c w req :
  refresh_prepare c w = inr req -> is_token_request (EvRequest req) = true.
Proof.
  unfold refresh_prepare. intros H.
  destruct (getitem _ "appid"); [done|].
  destruct (getitem _ "appsecret"); [done|].
  destruct (getitem _ "api_base_url"); [done|].
  by injection H as <-.
Qed.

Lemma prepared_request_method c w req :
  refresh_prepare c w = inr req -> req_method req = GET.
Proof.
  intros H. apply prepared_request_is_get in H. cbn in H.
  by destruct (req_method req).
Qed.

(** C3, as the code has it: [_refresh_access_token] ends in one of
    four ways. It hands out the cached token, leaving the client and
    the world as they are, and then the token is set and the clock is
    strictly before the stored expiry, which is finite; or the cached
    token is set with an infinite expiry, and the call raises
    [OverflowError]; or, the cached token being unset or not before its
    expiry, one request goes to the token endpoint, the token of the
    answer is stored with the expiry [now + expires_in - 1200] (on
    doubles; [expires_in] is 7200 when the answer has none), an instant
    that has a date, and the stored token is returned, whatever the
    grant is; or [None] is returned. So no token is returned past the
    stored instant without a request, but neither test nor refresh
    compares what is left of a fresh grant with the margin. *)
Theorem token_served_or_refreshed c w :
  exists out c' w',
    _refresh_access_token (c, w) = (out, (c', w'))
    /\ (served_from_cache c w out c' w'
        \/ cache_overflows c w out c' w'
        \/ refreshed c w out c' w'
        \/ declined c w out c' w').
Proof.
  unfold _refresh_access_token. run_eff. unfold time_time. cbn.
  destruct (token_is_valid c (now w)) eqn:Evalid.
  { pose proof Evalid as Hv. apply token_is_valid_spec in Hv as [_ Hlt].
    apply flt_spec in Hlt as [(x & Hx & Hlt)|Hinf].
    - unfold remaining_seconds. rewrite Hx. cbn.
      eexists _, _, _. split; [reflexivity|]. left.
      unfold served_from_cache. split; [done|]. split; [eauto|]. done.
    - unfold remaining_seconds. rewrite Hinf. cbn.
      eexists _, _, _. split; [reflexivity|]. right. left.
      unfold cache_overflows. split; [done|]. split; [done|]. split; [eauto|done]. }
  cbn. destruct (_check_config c w); cbn.
  2:{ eexists _, _, _. split; [reflexivity|]. right. right. right.
      split; [done|]. split; [done|]. by left. }
  destruct (refresh_prepare c w) as [e|req] eqn:Ereq; cbn.
  { eexists _, _, _. split; [reflexivity|]. right. right. right.
    split; [done|]. split; [done|]. by left. }
  pose proof (prepared_request_method _ _ _ Ereq) as Hget.
  assert (Hdeclined : forall c' w0,
            trace w0 = trace w ++ [EvRequest req] ->
            declined c w (Ret VNone) c' w0).
  { intros c' w0 Htr. split; [done|]. split; [done|]. right. by exists req. }
  unfold send, issue, receive. run_eff.
  destruct (result (remote w (served w) req)) as [body|e] eqn:Erep; cbn.
  2:{ eexists _, _, _. split; [reflexivity|]. right. right. right. by apply Hdeclined. }
  unfold refresh_store. run_eff.
  destruct (contains body "access_token") as [e|[|]] eqn:Ehas; cbn.
  { eexists _, _, _. split; [reflexivity|]. right. right. right. by apply Hdeclined. }
  2:{ destruct (get_method body "errmsg" VNone); cbn;
      eexists _, _, _; (split; [reflexivity|]); right; right; right; by apply Hdeclined. }
  destruct (getitem body "access_token") as [e|tok] eqn:Etok; cbn.
  { eexists _, _, _. split; [reflexivity|]. right. right. right. by apply Hdeclined. }
  unfold time_time. cbn.
  destruct (get_method body "expires_in" (VInt 7200)) as [e|ex] eqn:Eex; cbn.
  { eexists _, _, _. split; [reflexivity|]. right. right. right. by apply Hdeclined. }
  destruct (as_float ex) as [e|n] eqn:En; cbn.
  { eexists _, _, _. split; [reflexivity|]. right. right. right. by apply Hdeclined. }
  destruct (fsub (fadd (Finite (now w + latency (remote w (served w) req))) n)
              (Finite 1200)) as [x|sp] eqn:Ex; cbn.
  2:{ destruct sp; cbn; eexists _, _, _; (split; [reflexivity|]);
        right; right; right; by apply Hdeclined. }
  destruct (calendar w x) eqn:Ecal; cbn.
  2:{ eexists _, _, _. split; [reflexivity|]. right. right. right. by apply Hdeclined. }
  eexists _, _, _. split; [reflexivity|]. right. right. left.
  split; [done|]. exists req, body, tok, ex, n, x.
  repeat split; done.
Qed.

(** *** Several callers *)

(** The method is the steps of a caller run without a break. *)
Lemma refresh_as_steps c w :
  _refresh_access_token (c, w)
  = match enter c w with
    | (Returned token, w1) => (Ret token, (c, w1))
    | (Raised e, w1) => (Raise e, (c, w1))
    | (InFlight rep, w1) =>
        match resume rep c w1 with
        | (Stored, s) => (Ret (access_token s.1), s)
        | (_, s) => (Ret VNone, s)
        end
    | (_, w1) => (Ret VNone, (c, w1))
    end.
Proof.
  unfold _refresh_access_token, enter, resume. run_eff. unfold time_time. cbn.
  destruct (token_is_valid c (now w)).
  { by destruct (remaining_seconds c). }
  cbn. destruct (_check_config c w); cbn; [|done].
  destruct (refresh_prepare c w) as [e|req]; cbn; [done|].
  unfold send, issue. run_eff.
  destruct (receive _ _) as [[body|e] w1]; cbn; [|done].
  by destruct (refresh_store body (c, w1)) as [[[|]|e] s1].
Qed.

Lemma insert_middle {A} (l1 l2 : list A) x y :
  <[length l1 := x]> (l1 ++ y :: l2) = l1 ++ x :: l2.
Proof.
  rewrite <- (Nat.add_0_r (length l1)). by rewrite insert_app_r.
Qed.

Lemma step_ready before rest c w :
  step (MkPool (before ++ Ready :: rest) c w) (length before)
  = MkPool (before ++ (enter c w).1 :: rest) c (enter c w).2.
Proof.
  unfold step. cbn [callers shared outside].
  rewrite list_lookup_middle by done.
  destruct (enter c w) as [th w1]. cbn.
  by rewrite insert_middle.
Qed.

Lemma step_returned before rest token c w :
  step (MkPool (before ++ Returned token :: rest) c w) (length before)
  = MkPool (before ++ Returned token :: rest) c w.
Proof.
  unfold step. cbn [callers shared outside].
  by rewrite list_lookup_middle.
Qed.

Lemma step_in_flight before rest rep c w :
  step (MkPool (before ++ InFlight rep :: rest) c w) (length before)
  = MkPool (before ++ (resume rep c w).1 :: rest) (resume rep c w).2.1 (resume rep c w).2.2.
Proof.
  unfold step. cbn [callers shared outside].
  rewrite list_lookup_middle by done.
  destruct (resume rep c w) as [th s1]. cbn.
  by rewrite insert_middle.
Qed.

Lemma step_stored before rest c w :
  step (MkPool (before ++ Stored :: rest) c w) (length before)
  = MkPool (before ++ Returned (access_token c) :: rest) c w.
Proof.
  unfold step. cbn [callers shared outside].
  rewrite list_lookup_middle by done.
  by rewrite insert_middle.
Qed.

(** With a valid token and a finite expiry in the cache, callers that
    take turns are all served from it and the world is left alone. *)
Lemma turns_served_from_cache c w x m :
  token_is_valid c (now w) = true ->
  token_expire_time c = Finite x ->
  forall before,
    run (flat_map (fun i => [i; i; i]) (seq (length before) m))
      (MkPool (before ++ replicate m Ready) c w)
    = MkPool (before ++ replicate m (Returned (access_token c))) c w.
Proof.
  intros Hvalid Hx. induction m as [|m IH]; intros before; [done|].
  cbn [seq flat_map replicate app run fold_left].
  rewrite step_ready. unfold enter, remaining_seconds. rewrite Hvalid, Hx. cbn [fst snd].
  rewrite !step_returned.
  replace (before ++ Returned (access_token c) :: replicate m Ready)
    with ((before ++ [Returned (access_token c)]) ++ replicate m Ready)
    by (by rewrite <- app_assoc).
  replace (S (length before)) with (length (before ++ [Returned (access_token c)]))
    by (rewrite length_app; cbn; lia).
  unfold run in IH. rewrite IH. by rewrite <- app_assoc.
Qed.

(** A caller that finds the token expired sends a request, whatever
    was sent before it. *)
Definition same_setting (w w1 : world) : Prop :=
  now w1 = now w /\ environ w1 = environ w.

Lemma enter_sends c w w1 req :
  token_is_valid c (now w) = false ->
  _check_config c w = true ->
  refresh_prepare c w = inr req ->
  same_setting w w1 ->
  exists rep,
    enter c w1 = (InFlight rep,
                  MkWorld (now w1) (trace w1 ++ [EvRequest req]) (S (served w1))
                          (remote w1) (environ w1) (calendar w1)).
Proof.
  intros Hvalid Hcfg Hreq [Hnow Henv]. unfold enter.
  rewrite <- Hnow in Hvalid. rewrite Hvalid.
  assert (Hcfg1 : _check_config c w1 = true).
  { revert Hcfg. unfold _check_config, environ_truthy. by rewrite Henv. }
  assert (Hreq1 : refresh_prepare c w1 = inr req).
  { revert Hreq. unfold refresh_prepare, token_request, environ_or. by rewrite Henv. }
  rewrite Hcfg1, Hreq1. cbn. eauto.
Qed.

Lemma count_snoc p t e :
  count p (t ++ [e]) = count p t + (if p e then 1 else 0).
Proof.
  unfold count. rewrite filter_app, length_app. f_equal.
  cbn. unfold filter. cbn. destruct (p e); cbn; [|done].
  by destruct (decide_rel _ _ _).
Qed.

(** Callers that all find the token expired before any answer is back
    send one request each. *)
Lemma all_enter_all_send c w req m :
  token_is_valid c (now w) = false ->
  _check_config c w = true ->
  refresh_prepare c w = inr req ->
  forall before w1,
    same_setting w w1 ->
    exists p,
      run (seq (length before) m) (MkPool (before ++ replicate m Ready) c w1) = p
      /\ shared p = c
      /\ same_setting w (outside p)
      /\ token_requests p = count is_token_request (trace w1) + m
      /\ length (callers p) = length before + m.
Proof.
  intros Hvalid Hcfg Hreq. induction m as [|m IH]; intros before w1 Hset.
  - eexists. split; [reflexivity|]. cbn. rewrite app_nil_r.
    unfold token_requests. cbn. repeat split; try done; try lia; apply Hset.
  - cbn [seq replicate run fold_left].
    rewrite step_ready.
    destruct (enter_sends c w w1 req Hvalid Hcfg Hreq Hset) as [rep Henter].
    rewrite Henter. cbn [fst snd].
    set (w2 := MkWorld _ _ _ _ _ _).
    replace (before ++ InFlight rep :: replicate m Ready)
      with ((before ++ [InFlight rep]) ++ replicate m Ready)
      by (by rewrite <- app_assoc).
    replace (S (length before)) with (length (before ++ [InFlight rep]))
      by (rewrite length_app; cbn; lia).
    destruct (IH (before ++ [InFlight rep]) w2) as (p & Hrun & Hc & Hset2 & Hcount & Hlen).
    { destruct Hset. by split. }
    exists p. unfold run in Hrun. rewrite Hrun.
    split; [done|]. split; [done|]. split; [done|]. split.
    + rewrite Hcount. unfold w2. cbn [trace]. rewrite count_snoc.
      rewrite (prepared_request_is_get c w req Hreq). lia.
    + rewrite Hlen, length_app. cbn. lia.
Qed.

Lemma resume_stores rep c w body tok e n x :
  result rep = Json body ->
  getitem body "access_token" = inr tok ->
  get_method body "expires_in" (VInt 7200) = inr e ->
  as_float e = inr n ->
  fsub (fadd (Finite (now w + latency rep)) n) (Finite 1200) = Finite x ->
  calendar w x = true ->
  resume rep c w
  = (Stored,
     (set_token_expire_time (Finite x) (set_access_token tok c),
      MkWorld (now w + latency rep)%Q (trace w) (served w) (remote w) (environ w)
              (calendar w))).
Proof.
  intros Hrep Htok He Hn Hx Hcal. unfold resume, receive. run_eff. rewrite Hrep. cbn.
  unfold refresh_store. run_eff.
  assert (Hhas : contains body "access_token" = inr true).
  { unfold getitem in Htok. destruct body as [| | | | | | |d]; try discriminate.
    unfold contains, dict_has. by destruct (dict_get d "access_token"). }
  rewrite Hhas. cbn. rewrite Htok. cbn. unfold time_time. cbn.
  rewrite He. cbn. rewrite Hn. cbn. rewrite Hx. cbn. by rewrite Hcal.
Qed.

(** C2, as the code has it: [_refresh_access_token] takes no lock and
    shares no request in flight. Let the callers share one client whose
    cached token is unset or not before its expiry and whose settings
    are complete, and let the endpoint answer the first request with a
    JSON body whose [access_token] is truthy and whose [expires_in]
    gives an expiry [now + expires_in - 1200] that is finite, has a
    date and lies after the clock. When the callers take turns (each
    returns before the next enters), one request goes to the token
    endpoint and every caller returns the token of its answer, the
    later ones from the cache. When the callers all test the cached
    token before an answer is back, each of them sends a request of its
    own. *)
Theorem one_request_only_when_callers_take_turns k c w req body tok e n x :
  token_is_valid c (now w) = false ->
  _check_config c w = true ->
  refresh_prepare c w = inr req ->
  result (remote w (served w) req) = Json body ->
  getitem body "access_token" = inr tok ->
  truthy tok = true ->
  get_method body "expires_in" (VInt 7200) = inr e ->
  as_float e = inr n ->
  fsub (fadd (Finite (now w + latency (remote w (served w) req))) n) (Finite 1200)
    = Finite x ->
  calendar w x = true ->
  (now w + latency (remote w (served w) req) < x)%Q ->
  (token_requests (run (one_by_one (S k)) (start (S k) c w))
   = token_requests (start (S k) c w) + 1
   /\ callers (run (one_by_one (S k)) (start (S k) c w))
      = replicate (S k) (Returned tok))
  /\ token_requests (run (seq 0 (S k)) (start (S k) c w))
     = token_requests (start (S k) c w) + S k.
Proof.
  intros Hvalid Hcfg Hreq Hrep Htok Htruthy He Hn Hx Hcal Hafter. split.
  - unfold one_by_one, start.
    cbn [seq flat_map replicate app run fold_left].
    pose proof (step_ready [] (replicate k Ready) c w) as Hfirst.
    cbn [app length] in Hfirst. rewrite Hfirst.
    destruct (enter_sends c w w req Hvalid Hcfg Hreq) as [rep Henter]; [done|].
    pose proof Henter as Henter'. unfold enter in Henter'.
    rewrite Hvalid, Hcfg, Hreq in Henter'. cbn in Henter'.
    injection Henter' as Hrepeq. subst rep.
    rewrite Henter. cbn [fst snd app].
    match goal with
    | |- context [step (MkPool (InFlight ?r :: _) ?c0 ?w0) 0] =>
        pose proof (step_in_flight [] (replicate k Ready) r c0 w0) as Hsecond
    end.
    cbn [app length] in Hsecond. rewrite Hsecond.
    match goal with
    | |- context [resume ?r ?c0 ?w0] =>
        rewrite (resume_stores r c0 w0 body tok e n x Hrep Htok He Hn Hx Hcal)
    end.
    cbn [fst snd app length trace now].
    set (c1 := set_token_expire_time _ _).
    set (w1 := MkWorld _ _ _ _ _ _).
    pose proof (step_stored [] (replicate k Ready) c1 w1) as Hthird.
    cbn [app length] in Hthird. rewrite Hthird.
    assert (Hvalid1 : token_is_valid c1 (now w1) = true).
    { apply token_is_valid_spec. split; [done|].
      apply flt_spec. left. exists x. split; [done|]. unfold w1. cbn [now]. done. }
    pose proof (turns_served_from_cache c1 w1 x k Hvalid1 eq_refl
                  [Returned (access_token c1)]) as Hturns.
    unfold run in Hturns. cbn [length app] in Hturns. rewrite Hturns.
    unfold token_requests. cbn [outside callers]. split; [|done].
    unfold w1. cbn [trace]. rewrite count_snoc.
    by rewrite (prepared_request_is_get c w req Hreq).
  - destruct (all_enter_all_send c w req (S k) Hvalid Hcfg Hreq [] w)
      as (p & Hrun & _ & _ & Hcount & _); [done|].
    cbn [length app] in Hrun. unfold start. rewrite Hrun, Hcount.
    unfold token_requests. done.
Qed.

End Token.

(** ** The operation history *)

Module History.
Import WeChatShopAPIClient.

(** [_record_operation] keeps the history within 1000 entries and
    drops the oldest entry first. *)
Lemma record_operation_capped operation_type status details_ c w :
  length (operation_history c) <= 1000 ->
  exists c',
    _record_operation operation_type status details_ (c, w) = (Ret tt, (c', w))
    /\ length (operation_history c') <= 1000
    /\ operation_history c'
       = (if (length (operation_history c) =? 1000)%nat
          then tail (operation_history c) else operation_history c)
         ++ [VDict [("timestamp", VFloat (now w)); ("type", operation_type);
                    ("status", VStr status); ("details", VDict details_)]].
Proof.
  intros Hlen. unfold _record_operation, in_world, update_self, self, time_time.
  unfold bind, ret, lift_snd, modify. cbn [fst snd operation_history set_operation_history].
  rewrite length_app. cbn [length].
  destruct (1000 <? Z.of_nat (length (operation_history c) + 1))%Z eqn:E.
  - apply Z.ltb_lt in E. assert (Heq : length (operation_history c) = 1000) by lia.
    eexists. split; [reflexivity|]. cbn [operation_history set_operation_history].
    rewrite Heq. change (1000 =? 1000)%nat with true. cbv iota.
    destruct (operation_history c) as [|x h]; [discriminate|].
    cbn [tail app fst operation_history set_operation_history].
    split; [|done]. cbn in Heq. rewrite length_app. cbn. lia.
  - apply Z.ltb_ge in E. assert (Hlt : length (operation_history c) < 1000) by lia.
    eexists. split; [reflexivity|]. cbn [operation_history set_operation_history].
    replace (length (operation_history c) =? 1000)%nat with false
      by (symmetry; apply Nat.eqb_neq; lia).
    cbn [fst operation_history set_operation_history].
    split; [|done]. rewrite length_app. cbn. lia.
Qed.

End History.

(** ** Scenarios: concrete runs *)

Module Scenarios.
Import ProductUploader WeChatShopAPIClient Concurrent SingleUpload Token.

(** A product with the fields both classes require. *)
Definition product0 : value :=
  VDict [("title", VStr "course"); ("head_imgs", VList [VStr "https://img/1.jpg"]);
         ("price", VInt 299); ("cats", VList [VDict [("cat_id", VStr "100")]]);
         ("product_name", VStr "course"); ("category_id", VInt 100);
         ("main_image", VStr "https://img/1.jpg");
         ("image_list", VList [VStr "https://img/1.jpg"]);
         ("original_price", VInt 399); ("product_desc", VStr "text");
         ("sku_list", VList [VDict [("price", VInt 299)]]);
         ("attributes", VList []); ("product_status", VInt 1);
         ("desc", VStr "text"); ("category_id1", VInt 1); ("category_id2", VInt 2)].

(** A product without a price: it fails validation. *)
Definition product_without_price : value :=
  VDict [("title", VStr "course"); ("head_imgs", VList [VStr "https://img/1.jpg"]);
         ("cats", VList [VDict [("cat_id", VStr "100")]])].

(** The settings [_validate_config] gives by default, with the batch
    size [bs]. *)
Definition settings (bs : Z) : upload_config :=
  MkUploadConfig (Some bs) (Some 1%Q) (Some 3%Z) (Some 30%Q) (Some 5%Z).

Definition api_settings : pydict :=
  [("appid", VStr "wx0"); ("appsecret", VStr "secret");
   ("api_base_url", VStr "https://api.weixin.qq.com")].

(** A remote service that grants the token ["T"] followed by the
    number of the request, for [expires_in] seconds, and answers every
    submission with the error code [code]. *)
Definition remote0 (expires_in code : Z) (n : nat) (r : request) : reply :=
  match req_method r with
  | GET =>
      MkReply 0%Q
        (Json (VDict [("access_token", VStr ("T" +:+ pretty n));
                      ("expires_in", VInt expires_in)]))
  | POST =>
      MkReply 0%Q (Json (VDict [("errcode", VInt code); ("errmsg", VStr "remote")]))
  end.

(** The instants that have a date: the years 1 to 9999. *)
Definition calendar0 (t : Q) : bool :=
  Qle_bool (-62135596800) t && Qlt_bool t 253402300800.

Definition world0 (expires_in code : Z) : world :=
  MkWorld 1000%Q [] 0 (remote0 expires_in code) [] calendar0.

(** A remote service that grants the token ["T"] for a time without
    end: the [expires_in] of its answer is [1e999], which [json()]
    reads as [inf]. *)
Definition remote_without_end (n : nat) (r : request) : reply :=
  MkReply 0%Q
    (Json (VDict [("access_token", VStr "T"); ("expires_in", VSpecial PosInf)])).

(** A remote service that grants tokens, and whose submissions all
    break off with a connection error. *)
Definition remote_offline (n : nat) (r : request) : reply :=
  match req_method r with
  | GET => remote0 7200 0 n r
  | POST => MkReply 0%Q (Fails (MkExn ConnectionError "Connection aborted."))
  end.

(** A stand-in client whose [add_product] hands back the remote body
    with the error code [code], as a mocked transport does. *)
Definition mock_add_product (code : Z) : value -> M (unit * world) value :=
  fun _ s => (Ret (VDict [("errcode", VInt code); ("errmsg", VStr "remote")]), s).

Definition mock_upload_single (code : Z) :=
  upload_single_product unit (fun _ _ _ => tt) (mock_add_product code)
    VNone VNone VNone (fun _ => true).

Definition mock_upload_products (code : Z) :=
  upload_products unit (fun _ _ _ => tt) (mock_add_product code)
    VNone VNone VNone (fun _ => true).

Definition mock_uploader (bs : Z) : uploader unit :=
  MkUploader (Some api_settings) (Some (settings bs)) (Some tt) [].

(** An uploader whose client is missing and whose API settings lack
    [appsecret]. *)
Definition uploader_without_client : uploader unit :=
  MkUploader (Some [("appid", VStr "wx0")]) (Some (settings 10)) None [].

(** The real client, freshly constructed. *)
Definition WECHAT_API_CONFIG0 : pydict :=
  [("api_base_url", VStr "https://api.weixin.qq.com");
   ("access_token", VStr EmptyString); ("appid", VStr EmptyString);
   ("appsecret", VStr EmptyString); ("timeout", VInt 30)].

Definition API_PATHS0 : pydict :=
  [("access_token", VStr "/cgi-bin/token");
   ("add_product", VStr "/channels/ec/product/add")].

Definition pystr0 (v : value) : string :=
  match v with
  | VStr s => s
  | VInt z => pretty z
  | _ => "?"
  end.

Definition client0 : client :=
  WeChatShopAPIClient.__init__ WECHAT_API_CONFIG0 API_PATHS0
    (VStr "wx0") (VStr "secret") api_settings.

(** The client after 1000 recorded operations. *)
Definition client_with_full_history : client :=
  set_operation_history (replicate 1000 (VDict [])) client0.

Definition real_uploader : uploader client :=
  MkUploader (Some api_settings) (Some (settings 10)) (Some client0) [].

Definition real_upload_single :=
  Program.upload_single_product WECHAT_API_CONFIG0 API_PATHS0 pystr0
    VNone VNone VNone (fun _ => true).

(** *** The retry loop *)

Definition mock_state (bs code : Z) : uploader unit * world :=
  (mock_uploader bs, world0 7200 code).

(** The uploader holds a client and its settings. *)
Ltac is_ready := split; [by exists tt | reflexivity].

(** The settings are within the ranges of [_validate_config]. *)
Ltac is_validated :=
  unfold validated; cbn;
  repeat split; eexists; (split; [reflexivity|]); try lia;
  split; unfold Qle; cbn; lia.

(** Every item of a concrete list has a title and a validation that
    answers. *)
Ltac items_ok := repeat (constructor; [vm_compute; reflexivity|]); constructor.

(** C5 at a client that always hands back the code 40001: four calls
    of [add_product], sleeps of 2, 4 and 6 seconds between them, and a
    failure. *)
Lemma persistent_retryable_failure_attempts_witness :
  exists resp u' w' new,
    upload_single_product unit (fun _ _ _ => tt) (mock_add_product 40001)
      VNone VNone VNone (fun _ => true) product0 0 (mock_uploader 10, world0 7200 40001)
      = (Ret (false, resp), (u', w'))
    /\ length (failing_calls unit (mock_add_product 40001) product0
                 (Z.to_nat (max_retries_of (settings 10))) 0 (tt, world0 7200 40001)).1
       = Z.to_nat (max_retries_of (settings 10)) + 1
    /\ api_client u'
       = Some (failing_calls unit (mock_add_product 40001) product0
                 (Z.to_nat (max_retries_of (settings 10))) 0 (tt, world0 7200 40001)).2.1
    /\ w' = (failing_calls unit (mock_add_product 40001) product0
               (Z.to_nat (max_retries_of (settings 10))) 0 (tt, world0 7200 40001)).2.2
    /\ ((forall cw, exists ex, adds_to_trace unit (mock_add_product 40001) product0 cw ex) ->
        exists exts,
          Forall2 (adds_to_trace unit (mock_add_product 40001) product0)
            (failing_calls unit (mock_add_product 40001) product0
               (Z.to_nat (max_retries_of (settings 10))) 0 (tt, world0 7200 40001)).1 exts
          /\ trace w' = trace (world0 7200 40001) ++ backoff_trace exts 1)
    /\ log u' = log (mock_uploader 10) ++ new
    /\ attempts new = Z.to_nat (max_retries_of (settings 10)) + 1
    /\ journal new = linear_backoff (Z.to_nat (max_retries_of (settings 10))) 1
    /\ (max_retries (settings 10) = None -> attempts new = 4).
Proof.
  apply (persistent_retryable_failure_attempts unit (fun _ _ _ => tt)
           (mock_add_product 40001) VNone VNone VNone (fun _ => true)
           product0 (settings 10) (mock_uploader 10) (world0 7200 40001) tt).
  - vm_compute; reflexivity.
  - reflexivity.
  - reflexivity.
  - vm_compute; discriminate.
  - intros cs. reflexivity.
Defined.

(** With the client of the repository and submissions that break off
    with a connection error, the four attempts are eight submissions:
    [_api_request] sends every one of them a second time after a sleep
    of one second of its own. *)
Lemma network_error_is_sent_eight_times :
  exists resp s',
    real_upload_single product0 0
      (real_uploader, MkWorld 1000%Q [] 0 remote_offline [] calendar0)
      = (Ret (false, resp), s')
    /\ attempts (log s'.1) = 4
    /\ count is_post (trace s'.2) = 8
    /\ filter (fun e => is_sleep e = true) (trace s'.2)
       = [EvSleep 1; EvSleep 2; EvSleep 1; EvSleep 4; EvSleep 1; EvSleep 6; EvSleep 1].
Proof.
  do 2 eexists. split; [vm_compute; reflexivity|]. repeat split.
Qed.

(** The code 40001 is not on the deny-list: with a client that hands
    the remote body through, an item whose submission always answers
    40001 is submitted four times, with waits of 2, 4 and 6 seconds,
    before it is reported failed. *)
Lemma code_40001_is_retried :
  exists resp s',
    mock_upload_single 40001 product0 0 (mock_state 10 40001) = (Ret (false, resp), s')
    /\ code_in (VInt 40001) non_retryable_codes = false
    /\ attempts (log s'.1) = 4
    /\ journal (log s'.1) =
         [Attempt 1; Wait 2; Attempt 2; Wait 4; Attempt 3; Wait 6; Attempt 4]
    /\ filter (fun e => is_sleep e = true) (trace s'.2) =
         [EvSleep 2; EvSleep 4; EvSleep 6].
Proof.
  do 2 eexists. split; [vm_compute; reflexivity|]. repeat split.
Qed.


(** And with a remote that answers 403, a code of the deny-list: the
    client of the repository wraps the body, the code never reaches the
    test, and the item is submitted four times all the same. *)
Lemma code_403_is_retried_by_the_client :
  exists resp s',
    real_upload_single product0 0 (real_uploader, world0 7200 403)
      = (Ret (false, resp), s')
    /\ code_in (VInt 403) non_retryable_codes = true
    /\ attempts (log s'.1) = 4
    /\ count is_post (trace s'.2) = 4
    /\ filter (fun e => is_sleep e = true) (trace s'.2)
       = [EvSleep 2; EvSleep 4; EvSleep 6].
Proof.
  do 2 eexists. split; [vm_compute; reflexivity|]. repeat split.
Qed.


(** C10 at an uploader without a client whose API settings lack the
    secret. *)
Lemma unbound_max_retries_raises_witness :
  exists e',
    mock_upload_single 0 product0 0 (uploader_without_client, world0 7200 0)
      = (Raise e',
         (add_log (LogException (MkExn Exception "初始化API客户端失败: API配置不完整"))
            uploader_without_client, world0 7200 0))
    /\ exn_cls e' = UnboundLocalError
    /\ is_NameError (exn_cls e') = true.
Proof.
  apply (unbound_max_retries_raises unit (fun _ _ _ => tt)
           (mock_add_product 0) VNone VNone VNone (fun _ => true)
           product0 0 (uploader_without_client, world0 7200 0)
           (MkExn Exception "初始化API客户端失败: API配置不完整")
           (uploader_without_client, world0 7200 0)).
  - vm_compute; reflexivity.
  - reflexivity.
  - vm_compute; reflexivity.
Defined.

(** *** Batches *)

(** C1 at two items, in program order and with the tasks run in the
    opposite order. *)
Lemma details_follow_input_order_witness :
  (exists r s',
     upload_products' unit (fun _ _ _ => tt) (mock_add_product 0)
       VNone VNone VNone (fun _ => true)
       [product0; product_without_price] (mock_state 10 0) = (Ret r, s')
     /\ length (details r) = length [product0; product_without_price]
     /\ forall i d, details r !! i = Some d ->
         index d = (Z.of_nat i + 1)%Z /\ placed [product0; product_without_price] i d)
  /\ (forall order, order ≡ₚ seq 0 (length [product0; product_without_price]) ->
      exists r s',
        upload_products_async' unit (fun _ _ _ => tt) (mock_add_product 0)
          VNone VNone VNone (fun _ => true) order
          [product0; product_without_price] (mock_state 10 0) = (Ret r, s')
        /\ length (details r) = length [product0; product_without_price]
        /\ forall i d, details r !! i = Some d ->
            index d = (Z.of_nat i + 1)%Z /\ placed [product0; product_without_price] i d).
Proof.
  apply (details_follow_input_order unit (fun _ _ _ => tt)
           (mock_add_product 0) VNone VNone VNone (fun _ => true)
           [product0; product_without_price] (settings 10) (mock_state 10 0)).
  - is_ready.
  - is_validated.
  - items_ok.
Defined.

(** The record of the first item carries the index 1, not its
    position 0. *)
Lemma index_is_one_based :
  exists r s' d,
    mock_upload_products 0 [product0] (mock_state 10 0) = (Ret r, s')
    /\ details r !! 0 = Some d
    /\ index d = 1%Z
    /\ index d <> 0%Z.
Proof.
  do 3 eexists. split; [vm_compute; reflexivity|].
  split; [reflexivity|]. split; [reflexivity|discriminate].
Qed.

(** C6 at a list whose second item fails validation. *)
Lemma batch_upload_returns_summary_witness :
  exists r s',
    upload_products' unit (fun _ _ _ => tt) (mock_add_product 0)
       VNone VNone VNone (fun _ => true)
       [product0; product_without_price] (mock_state 10 0) = (Ret r, s')
    /\ length (details r) = length [product0; product_without_price]
    /\ total r = Z.of_nat (length [product0; product_without_price])
    /\ (success r + failed r = total r)%Z
    /\ (0 <= success r)%Z /\ (0 <= failed r)%Z
    /\ ([product0; product_without_price] = [] ->
        duration r = None /\ success_rate r = None)
    /\ ([product0; product_without_price] <> [] ->
        is_Some (duration r) /\ is_Some (success_rate r)).
Proof.
  apply (batch_upload_returns_summary unit (fun _ _ _ => tt)
           (mock_add_product 0) VNone VNone VNone (fun _ => true)
           [product0; product_without_price] (settings 10) (mock_state 10 0)).
  - is_ready.
  - is_validated.
  - items_ok.
Defined.

(** The result for the empty list has neither [duration] nor
    [success_rate]. *)
Lemma empty_batch_has_no_duration :
  exists s',
    mock_upload_products 0 [] (mock_state 10 0)
      = (Ret (MkResults 0 0 0 [] None None), s').
Proof. eexists. vm_compute. reflexivity. Qed.

(** An item without a title makes the batch raise [KeyError]: the
    loop reads [product['title']] for its log line outside any handler. *)
Lemma item_without_title_raises :
  exists s',
    mock_upload_products 0 [VDict [("price", VInt 299)]] (mock_state 10 0)
      = (Raise (MkExn KeyError "title"), s').
Proof. eexists. vm_compute. reflexivity. Qed.

(** A title is not enough: [_validate_product_data] runs before the
    [try] of [upload_single_product], and where it raises, on images
    that have no length or on a price too large for a float, the batch
    raises with it. *)
Lemma item_whose_validation_raises :
  (exists s',
     mock_upload_products 0
       [VDict [("title", VStr "course"); ("head_imgs", VInt 5); ("price", VInt 299);
               ("cats", VList [VStr "c"])]] (mock_state 10 0)
     = (Raise (MkExn TypeError "object has no len()"), s'))
  /\ (exists s',
       mock_upload_products 0
         [VDict [("title", VStr "course"); ("head_imgs", VList [VStr "a"]);
                 ("price", VInt (2 ^ 1024)); ("cats", VList [VStr "c"])]] (mock_state 10 0)
       = (Raise (MkExn OverflowError "int too large to convert to float"), s')).
Proof. split; eexists; vm_compute; reflexivity. Qed.

(** C7 at three items in batches of two. *)
Lemma pacing_within_batches_witness :
  exists r s' new,
    upload_products' unit (fun _ _ _ => tt) (mock_add_product 0)
      VNone VNone VNone (fun _ => true)
      [product0; product0; product0] (mock_state 2 0) = (Ret r, s')
    /\ paced unit (fun _ _ _ => tt) (mock_add_product 0) VNone VNone VNone (fun _ => true) 1
         (map (fun qp => (qp.2,
                          pause_after (Z.to_nat 2) (length [product0; product0; product0])
                            (S qp.1)))
            (enumerate [product0; product0; product0]))
         (mock_state 2 0) s'
    /\ log s'.1 = log (mock_state 2 0).1 ++ new
    /\ marks new =
         flat_map (position_marks 1 (Z.to_nat 2) (length [product0; product0; product0]))
           (seq 0 (length [product0; product0; product0]))
    /\ (length [product0; product0; product0] <= Z.to_nat 2 ->
        forall q, 1 <= q <= length [product0; product0; product0] ->
          pause_after (Z.to_nat 2) (length [product0; product0; product0]) q
          = negb (q =? length [product0; product0; product0])%nat).
Proof.
  apply (pacing_within_batches unit (fun _ _ _ => tt)
           (mock_add_product 0) VNone VNone VNone (fun _ => true)
           [product0; product0; product0] (settings 2) 2%Z 1%Q (mock_state 2 0)).
  - is_ready.
  - reflexivity.
  - lia.
  - reflexivity.
  - reflexivity.
  - items_ok.
  - discriminate.
Defined.

(** Three items in batches of two: the second item is not the last of
    the list, and no pause follows it. The one sleep of the run is the
    one after the first item; the clock moves by that second only. *)
Lemma no_pause_between_batches :
  exists r s',
    mock_upload_products 0 [product0; product0; product0] (mock_state 2 0) = (Ret r, s')
    /\ marks (log s'.1) = [Item 1; Pause 1; Item 2; Item 3]
    /\ trace s'.2 = [EvSleep 1]
    /\ now s'.2 = (now (mock_state 2 0).2 + 1)%Q.
Proof.
  do 2 eexists. split; [vm_compute; reflexivity|]. repeat split.
Qed.

(** *** The token and the history *)

(** C2 at two callers of a fresh client: one after the other they cost
    one request and share its token; entering together they cost two. *)
Lemma one_request_only_when_callers_take_turns_witness :
  (token_requests (run (one_by_one 2) (start 2 client0 (world0 7200 0)))
     = token_requests (start 2 client0 (world0 7200 0)) + 1
   /\ callers (run (one_by_one 2) (start 2 client0 (world0 7200 0)))
      = replicate 2 (Returned (VStr "T0")))
  /\ token_requests (run (seq 0 2) (start 2 client0 (world0 7200 0)))
     = token_requests (start 2 client0 (world0 7200 0)) + 2.
Proof.
  eapply (one_request_only_when_callers_take_turns 1 client0 (world0 7200 0)).
  - vm_compute; reflexivity.
  - vm_compute; reflexivity.
  - vm_compute; reflexivity.
  - vm_compute; reflexivity.
  - vm_compute; reflexivity.
  - vm_compute; reflexivity.
  - vm_compute; reflexivity.
  - vm_compute; reflexivity.
  - vm_compute; reflexivity.
  - vm_compute; reflexivity.
  - vm_compute; reflexivity.
Defined.

(** Two callers that both find the token expired before either has
    its answer: two requests reach the token endpoint. Each caller
    returns the token the client holds when it comes to its [return]:
    the one stored last when both have stored before either returns,
    its own when it returns before the other stores. *)
Lemma two_callers_two_requests :
  token_is_valid client0 (now (world0 7200 0)) = false
  /\ token_requests (run [0; 1; 0; 1; 0; 1] (start 2 client0 (world0 7200 0))) = 2
  /\ callers (run [0; 1; 0; 1; 0; 1] (start 2 client0 (world0 7200 0)))
     = [Returned (VStr "T1"); Returned (VStr "T1")]
  /\ token_requests (run [0; 1; 0; 0; 1; 1] (start 2 client0 (world0 7200 0))) = 2
  /\ callers (run [0; 1; 0; 0; 1; 1] (start 2 client0 (world0 7200 0)))
     = [Returned (VStr "T0"); Returned (VStr "T1")].
Proof. repeat split; vm_compute; reflexivity. Qed.

(** A grant of 60 seconds: the token is returned although the expiry
    stored for it, 1000 + 60 - 1200, is already behind the clock, so
    that the very next call asks for another one. What is left of its
    validity, 60 seconds, is below the margin of 1200. *)
Lemma short_grant_token_is_returned :
  exists c' w',
    _refresh_access_token (client0, world0 60 0) = (Ret (VStr "T0"), (c', w'))
    /\ now w' = 1000%Q
    /\ token_expire_time c' = Finite (-140)
    /\ token_is_valid c' (now w') = false
    /\ count is_token_request (trace (_refresh_access_token (c', w')).2.2) = 2.
Proof.
  do 2 eexists. split; [vm_compute; reflexivity|]. repeat split.
Qed.

(** A grant without end: the token is stored with the expiry [inf],
    the log line of the success cannot print its date and the call
    returns [None]; the next call finds the token valid and raises
    [OverflowError] from the log line of the cached branch. *)
Lemma grant_without_end_breaks_the_cache :
  exists c' w',
    _refresh_access_token (client0, MkWorld 1000%Q [] 0 remote_without_end [] calendar0)
      = (Ret VNone, (c', w'))
    /\ access_token c' = VStr "T"
    /\ token_expire_time c' = Special PosInf
    /\ (_refresh_access_token (c', w')).1
       = Raise (MkExn OverflowError "cannot convert float infinity to integer").
Proof.
  do 2 eexists. split; [vm_compute; reflexivity|]. repeat split.
Qed.

(** The client after [n] more calls of [add_product]. *)
Fixpoint add_products (n : nat) (s : client * world) : client * world :=
  match n with
  | O => s
  | S n' => add_products n' (add_product pystr0 product0 s).2
  end.

(** C8: with 1000 entries in the history, one successful [add_product]
    or [upload_product] leaves 1001, and every further call one more:
    the entry [_api_request] records is capped, the one the method
    appends itself is not. *)
Theorem history_grows_past_cap :
  length (operation_history client_with_full_history) = 1000
  /\ length (operation_history
              (add_product pystr0 product0
                 (client_with_full_history, world0 7200 0)).2.1) = 1001
  /\ length (operation_history
              (upload_product pystr0 product0
                 (client_with_full_history, world0 7200 0)).2.1) = 1001
  /\ length (operation_history
              (add_products 5 (client_with_full_history, world0 7200 0)).1) = 1005.
Proof. repeat split; vm_compute; reflexivity. Qed.

End Scenarios.

(** ** What [add_product] hands to the uploader *)

Module Responses.
Import ProductUploader WeChatShopAPIClient SingleUpload Scenarios.

(** The shape of every dictionary [_api_request] and [add_product]
    return: the key [success] first, and no key [errcode] beside it (the
    remote body, with its [errcode], sits one level down under [data]). *)
Definition wrapped (o : outcome value) : Prop :=
  match o with
  | Raise _ => True
  | Ret v =>
      exists b rest,
        v = VDict (("success", VBool b) :: rest) /\ dict_get rest "errcode" = None
  end.

(** Case analysis on the scrutinee of the innermost [match] of the goal. *)
Ltac break_match :=
  match goal with
  | |- context [match ?x with _ => _ end] =>
      lazymatch x with
      | context [match _ with _ => _ end] => fail
      | _ => destruct x eqn:?
      end
  end.

Ltac wrapped_cases :=
  repeat (break_match; cbn [fst snd wrapped failure]; try exact I;
          try (by eexists _, _; split; [reflexivity|reflexivity])).

Lemma api_request_wrapped pystr path m data s :
  wrapped (_api_request pystr path m data s).1.
Proof.
  unfold _api_request, bind, ret, try_catch, of_sum, raise, self.
  wrapped_cases.
Qed.

Lemma first_missing_dict skip fields d :
  exists r, first_missing skip fields (VDict d) = inr r.
Proof.
  induction fields as [|f fields IH]; cbn; [by eexists|].
  destruct (skip f); [done|]. destruct (dict_has d f); [done|by eexists].
Qed.

(** [add_product] on a dictionary returns a wrapper. *)
Lemma add_product_wrapped pystr d s :
  exists b rest s',
    add_product pystr (VDict d) s = (Ret (VDict (("success", VBool b) :: rest)), s')
    /\ dict_get rest "errcode" = None.
Proof.
  unfold add_product. unfold bind at 1.
  destruct (first_missing_dict (String.eqb "product_id") WECHAT_SHOP_REQUIRED_FIELDS d)
    as [r ->].
  cbn [of_sum ret]. destruct r as [field|].
  { by eexists false, _, s. }
  unfold try_catch.
  pose proof (api_request_wrapped pystr) as Hw.
  unfold bind at 1. unfold self at 1. cbn [fst snd].
  unfold bind at 1.
  destruct (of_sum (getitem (VDict (api_paths s.1)) "add_product") s)
    as [[path|e] s1] eqn:E.
  2:{ by eexists false, _, s1. }
  unfold bind at 1.
  specialize (Hw path POST (VDict d) s1).
  destruct (_api_request pystr path POST (VDict d) s1) as [[result|e] s2].
  2:{ by eexists false, _, s2. }
  cbn [fst wrapped] in Hw. destruct Hw as (b & rest & -> & Hrest).
  unfold bind, in_world, lift_snd, time_time, of_sum, get_method, ret,
    append_history, update_self, modify. cbn [fst snd].
  by eexists b, rest, _.
Qed.

(** Whatever the product, the credentials, the remote service and the
    history are, [add_product] and [upload_product] on a dictionary
    return (they do not raise), and what they return is a dictionary
    that starts with [success] and has no [errcode] of its own. *)
Theorem add_product_returns_wrapper pystr d s :
  (exists b rest s',
     add_product pystr (VDict d) s = (Ret (VDict (("success", VBool b) :: rest)), s')
     /\ dict_get rest "errcode" = None)
  /\ (exists b rest s',
       upload_product pystr (VDict d) s = (Ret (VDict (("success", VBool b) :: rest)), s')
       /\ dict_get rest "errcode" = None).
Proof.
  split; [apply add_product_wrapped|].
  unfold upload_product, try_catch. unfold bind at 1.
  destruct (first_missing_dict (fun _ => false)
              ["title"; "desc"; "category_id1"; "category_id2"; "sku_list"] d) as [r ->].
  cbn [of_sum ret]. destruct r as [field|].
  { by eexists false, _, s. }
  unfold bind at 1. unfold self at 1. cbn [fst snd].
  unfold bind at 1. cbn [of_sum get_method ret].
  unfold bind at 1.
  pose proof (api_request_wrapped pystr
                (dict_get_default (api_paths s.1) "add_product"
                   (VStr "/channels/ec/product/create")) POST (VDict d) s) as Hw.
  destruct (_api_request pystr _ POST (VDict d) s) as [[result|e] s2].
  2:{ by eexists false, _, s2. }
  cbn [fst wrapped] in Hw. destruct Hw as (b & rest & -> & Hrest).
  unfold bind, in_world, lift_snd, time_time, of_sum, get_method, ret,
    append_history, update_self, modify. cbn [fst snd].
  by eexists b, rest, _.
Qed.

(** With the client of the repository the uploader never reports an
    upload as done: the wrapper has no [errcode], so every attempt is
    taken as a failure and retried, whatever the remote answered. A
    valid item costs [max_retries + 1] calls of [add_product] and comes
    back failed. *)
Theorem uploader_never_succeeds_with_client
    WECHAT_API_CONFIG API_PATHS pystr app_id app_secret base float_parses
    product upl s :
  _validate_product_data float_parses product = inr true ->
  ready client upl s ->
  (0 <= max_retries_of upl)%Z ->
  exists resp s' new,
    Program.upload_single_product WECHAT_API_CONFIG API_PATHS pystr
      app_id app_secret base float_parses product 0 s = (Ret (false, resp), s')
    /\ log s'.1 = log s.1 ++ new
    /\ attempts new = Z.to_nat (max_retries_of upl) + 1
    /\ journal new = linear_backoff (Z.to_nat (max_retries_of upl)) 1.
Proof.
  intros Hvalid Hs Hmr.
  assert (Hretry : forall cs, retryable (add_product pystr product cs).1 = true).
  { intros cs.
    destruct (required_fields_dict _ _ _
                (ltac:(unfold _validate_product_data in Hvalid;
                       destruct (required_fields_present _ product) as [|[]];
                       try discriminate; reflexivity)
                 : required_fields_present ["title"; "head_imgs"; "price"; "cats"]
                     product = inr true)) as [d ->].
    destruct (add_product_wrapped pystr d cs) as (b & rest & s' & -> & Hrest).
    cbn. unfold dict_get_default. cbn. by rewrite Hrest. }
  destruct (persistent_failure_run client
              (WeChatShopAPIClient.__init__ WECHAT_API_CONFIG API_PATHS)
              (add_product pystr) app_id app_secret base float_parses
              product upl (S (Z.to_nat (max_retries_of upl - 0)))
              Hvalid Hretry 0%Z s Hs)
    as (resp & s' & new & Hrun & Hlog & Hj & Ha); [lia | lia |].
  exists resp, s', new.
  unfold Program.upload_single_product, upload_single_product.
  destruct Hs as [_ Hu]. rewrite (upload_fuel client upl _ _ Hu).
  rewrite Z.sub_0_r in *.
  split; [done|]. split; [done|]. split; [lia|done].
Qed.

End Responses.

(** ** The calls of the client: what they turn down, what they send *)

Module ClientCalls.
Import ProductUploader WeChatShopAPIClient SingleUpload Token Scenarios Responses.

Lemma first_missing_finds skip fields d k :
  k ∈ fields -> skip k = false -> dict_get d k = None ->
  exists f, f ∈ fields /\ skip f = false /\ dict_get d f = None
            /\ first_missing skip fields (VDict d) = inr (Some f).
Proof.
  intros Hk Hskip Hnone. induction fields as [|x fields IH]; [by apply elem_of_nil in Hk|].
  cbn. destruct (skip x) eqn:Hx.
  - apply elem_of_cons in Hk as [->|Hk]; [congruence|].
    destruct (IH Hk) as (f & Hf & ? & ? & ?). exists f. split; [by right|done].
  - unfold dict_has. destruct (dict_get d x) eqn:Hd.
    + apply elem_of_cons in Hk as [->|Hk]; [congruence|].
      destruct (IH Hk) as (f & Hf & ? & ? & ?). exists f. split; [by right|done].
    + exists x. split; [by left|done].
Qed.

(** A product dictionary that lacks one of the required fields (other
    than [product_id], which the loop skips) is turned down before
    anything happens: [add_product] names the first missing field of
    [WECHAT_SHOP_REQUIRED_FIELDS], and the client and the world stay as
    they were, so no token is fetched, nothing is submitted and nothing
    is recorded. *)
Theorem add_product_rejects_incomplete pystr d s k :
  k ∈ WECHAT_SHOP_REQUIRED_FIELDS -> k <> "product_id" -> dict_get d k = None ->
  exists f, f ∈ WECHAT_SHOP_REQUIRED_FIELDS /\ f <> "product_id" /\ dict_get d f = None
    /\ add_product pystr (VDict d) s = (Ret (failure ("缺少必填字段: " +:+ f)), s).
Proof.
  intros Hk Hne Hnone.
  destruct (first_missing_finds (String.eqb "product_id") _ d k Hk) as (f & Hf & Hs & Hd & Hm);
    [by apply String.eqb_neq | done |].
  exists f. split; [done|]. split; [intros ->; by rewrite String.eqb_refl in Hs|].
  split; [done|]. unfold add_product, bind. by rewrite Hm.
Qed.

Lemma count_app p t1 t2 : count p (t1 ++ t2) = count p t1 + count p t2.
Proof. unfold count. by rewrite filter_app, length_app. Qed.

Lemma count_nil p : count p [] = 0.
Proof. done. Qed.

Lemma count_one p e : count p [e] = if p e then 1 else 0.
Proof. by rewrite <- (app_nil_l [e]), count_snoc. Qed.

(** The store [s'] comes from [s] with at most [gets] token requests,
    [posts] submissions and [sleeps] sleeps added to the trace. *)
Definition sends (s s' : client * world) (gets posts sleeps : nat) : Prop :=
  exists extra,
    trace s'.2 = trace s.2 ++ extra
    /\ count is_token_request extra <= gets
    /\ count is_post extra <= posts
    /\ count is_sleep extra <= sleeps.

(** The trace grew by the events the goal shows, within the bounds. *)
Ltac trace_grows :=
  eexists; split;
  [ cbn [fst snd trace]; rewrite <- ?app_assoc; try (rewrite <- (app_nil_r (trace _)) at 1); reflexivity
  | rewrite ?count_app, ?count_one, ?count_nil; cbn; repeat split; lia ].

Lemma refresh_sends s : sends s (_refresh_access_token s).2 1 0 0.
Proof.
  destruct s as [c w].
  unfold _refresh_access_token, bind, self, in_world, lift_snd, time_time, get, ret.
  cbn [fst snd].
  destruct (token_is_valid c (now w)).
  { unfold of_sum. destruct (remaining_seconds c); cbn [raise ret fst snd]; trace_grows. }
  cbn [fst snd].
  destruct (_check_config c w); cbn [negb fst snd]; [|trace_grows].
  unfold try_catch, bind, of_sum.
  destruct (refresh_prepare c w) as [e|req] eqn:Hp; cbn [raise ret fst snd].
  { trace_grows. }
  pose proof (prepared_request_is_get _ _ _ Hp) as Hget.
  assert (Hpost : is_post (EvRequest req) = false).
  { cbn in *. by destruct (req_method req). }
  exists [EvRequest req].
  split; [|rewrite !count_one, Hget, Hpost; cbn; lia].
  unfold in_world, lift_snd, send, bind, issue, receive. cbn [fst snd].
  destruct (result (remote w (served w) req)); cbn [fst snd].
  2: done.
  unfold refresh_store, bind, of_sum, ret, raise, update_self, modify, in_world, lift_snd,
    time_time, self, get.
  repeat (break_match; cbn [fst snd trace]; try done).
Qed.

Lemma record_operation_trace op st de s :
  trace (_record_operation op st de s).2.2 = trace s.2.
Proof.
  unfold _record_operation, bind, in_world, lift_snd, time_time, update_self, modify, self, ret.
  cbn [fst snd]. by break_match.
Qed.

Lemma sends_refl s g p sl : sends s s g p sl.
Proof. exists []. rewrite app_nil_r. repeat split; cbn; lia. Qed.

Lemma sends_trans s s1 s2 g1 p1 l1 g2 p2 l2 :
  sends s s1 g1 p1 l1 -> sends s1 s2 g2 p2 l2 ->
  sends s s2 (g1 + g2) (p1 + p2) (l1 + l2).
Proof.
  intros (e1 & He1 & ? & ? & ?) (e2 & He2 & ? & ? & ?).
  exists (e1 ++ e2). rewrite He2, He1, app_assoc, !count_app.
  repeat split; lia.
Qed.

(** A computation that adds at most [g] token requests, [p] submissions
    and [l] sleeps to the trace, from whatever store it starts. *)
Definition within (g p l : nat) {A} (m : M (client * world) A) : Prop :=
  forall s, sends s (m s).2 g p l.

Lemma within_ret {A} (a : A) g p l : within g p l (ret a).
Proof. intros s. apply sends_refl. Qed.

Lemma within_raise {A} e g p l : within g p l (raise e : M _ A).
Proof. intros s. apply sends_refl. Qed.

Lemma within_of_sum {A} (r : exn + A) g p l : within g p l (of_sum r).
Proof. destruct r; [apply within_raise|apply within_ret]. Qed.

Lemma within_self g p l : within g p l WeChatShopAPIClient.self.
Proof. intros s. apply sends_refl. Qed.

Lemma within_update_self f g p l : within g p l (WeChatShopAPIClient.update_self f).
Proof. intros s. exists []. cbn. rewrite app_nil_r. repeat split; cbn; lia. Qed.

Lemma within_time_time g p l : within g p l (WeChatShopAPIClient.in_world time_time).
Proof. intros s. exists []. cbn. rewrite app_nil_r. repeat split; cbn; lia. Qed.

Lemma within_bind g1 p1 l1 g2 p2 l2 {A B} (m : M (client * world) A) (f : A -> M _ B) :
  within g1 p1 l1 m -> (forall a, within g2 p2 l2 (f a)) ->
  within (g1 + g2) (p1 + p2) (l1 + l2) (bind m f).
Proof.
  intros Hm Hf s. unfold bind. specialize (Hm s).
  destruct (m s) as [[a|e] s1]; cbn [snd] in *.
  - eapply sends_trans; [exact Hm|apply Hf].
  - destruct Hm as (ex & ? & ? & ? & ?). exists ex. repeat split; [done|lia..].
Qed.

Lemma within_try g1 p1 l1 g2 p2 l2 {A} (m : M (client * world) A) h :
  within g1 p1 l1 m -> (forall e, within g2 p2 l2 (h e)) ->
  within (g1 + g2) (p1 + p2) (l1 + l2) (try_catch m h).
Proof.
  intros Hm Hh s. unfold try_catch. specialize (Hm s).
  destruct (m s) as [[a|e] s1]; cbn [snd] in *.
  - destruct Hm as (ex & ? & ? & ? & ?). exists ex. repeat split; [done|lia..].
  - eapply sends_trans; [exact Hm|apply Hh].
Qed.

Lemma within_refresh p l : within 1 p l _refresh_access_token.
Proof.
  intros s. destruct (refresh_sends s) as (ex & ? & ? & ? & ?).
  exists ex. repeat split; [done|lia..].
Qed.

Lemma within_record op st de g p l : within g p l (_record_operation op st de).
Proof.
  intros s. exists []. rewrite record_operation_trace, app_nil_r.
  repeat split; cbn; lia.
Qed.

Lemma within_post req g l :
  req_method req = POST -> within g 1 l (WeChatShopAPIClient.in_world (send req)).
Proof.
  intros Hm s. exists [EvRequest req]. split.
  - unfold WeChatShopAPIClient.in_world, lift_snd, send, bind, issue, receive.
    cbn [fst snd]. by destruct (result _).
  - rewrite !count_one. cbn. rewrite Hm. repeat split; lia.
Qed.

Lemma within_sleep d g p : within g p 1 (WeChatShopAPIClient.in_world (time_sleep d)).
Proof.
  intros [c w]. unfold WeChatShopAPIClient.in_world, lift_snd, time_sleep.
  destruct (Qlt_bool d 0); cbn [fst snd raise modify].
  - apply sends_refl.
  - exists [EvSleep d]. split; [done|]. rewrite !count_one. cbn. repeat split; lia.
Qed.

(** One [_api_request] by POST costs at most one token request, two
    submissions (the second only after a network error and a sleep of
    one second) and one sleep. *)
Lemma api_request_within pystr path data :
  within 1 2 1 (_api_request pystr path POST data).
Proof.
  unfold _api_request.
  apply (within_bind 1 0 0 0 2 1); [apply within_refresh|intros tok].
  destruct (negb (truthy tok)); [apply within_ret|].
  apply (within_bind 0 0 0 0 2 1); [apply within_self|intros c].
  apply (within_bind 0 0 0 0 2 1); [apply within_of_sum|intros base].
  apply (within_try 0 1 0 0 1 1).
  - apply (within_bind 0 1 0 0 0 0); [by apply within_post|intros result].
    apply (within_bind 0 0 0 0 0 0); [apply within_of_sum|intros ok].
    destruct ok.
    + apply (within_bind 0 0 0 0 0 0); [apply within_record|intros _; apply within_ret].
    + apply (within_bind 0 0 0 0 0 0); [apply within_of_sum|intros errcode].
      apply (within_bind 0 0 0 0 0 0); [apply within_of_sum|intros errmsg].
      apply (within_bind 0 0 0 0 0 0); [apply within_record|intros _; apply within_ret].
  - intros e. destruct (is_RequestException (exn_cls e)).
    + apply (within_bind 0 0 0 0 1 1); [apply within_record|intros _].
      apply (within_bind 0 1 1 0 0 0).
      * destruct (is_network_error (exn_cls e)); [|apply within_ret].
        apply (within_bind 0 0 1 0 1 0); [apply within_sleep|intros _].
        apply (within_try 0 1 0 0 0 0); [|intros; apply within_ret].
        apply (within_bind 0 1 0 0 0 0); [by apply within_post|intros result].
        apply (within_bind 0 0 0 0 0 0); [apply within_of_sum|intros ok].
        destruct ok; [|apply within_ret].
        apply (within_bind 0 0 0 0 0 0); [apply within_record|intros _; apply within_ret].
      * intros [r|]; apply within_ret.
    + apply (within_bind 0 0 0 0 1 1); [apply within_record|intros _; apply within_ret].
Qed.

Lemma add_product_within pystr product : within 1 2 1 (add_product pystr product).
Proof.
  unfold add_product.
  apply (within_bind 0 0 0 1 2 1); [apply within_of_sum|intros [field|]].
  { apply within_ret. }
  apply (within_try 1 2 1 0 0 0); [|intros; apply within_ret].
  apply (within_bind 0 0 0 1 2 1); [apply within_self|intros c].
  apply (within_bind 0 0 0 1 2 1); [apply within_of_sum|intros path].
  apply (within_bind 1 2 1 0 0 0); [apply api_request_within|intros result].
  apply (within_bind 0 0 0 0 0 0); [apply within_time_time|intros t].
  apply (within_bind 0 0 0 0 0 0); [apply within_of_sum|intros pid].
  apply (within_bind 0 0 0 0 0 0); [apply within_update_self|intros _; apply within_ret].
Qed.

(** The same budget holds for a whole call of [add_product] and of
    [upload_product], whatever the product, the client and the remote
    service are: the trace only grows, by at most one token request, two
    submissions and one sleep. *)
Theorem add_product_request_budget pystr product s :
  sends s (add_product pystr product s).2 1 2 1
  /\ sends s (upload_product pystr product s).2 1 2 1.
Proof.
  split.
  - apply add_product_within.
  - revert s. change (within 1 2 1 (upload_product pystr product)).
    unfold upload_product.
    apply (within_try 1 2 1 0 0 0); [|intros; apply within_ret].
    apply (within_bind 0 0 0 1 2 1); [apply within_of_sum|intros [field|]].
    { apply within_ret. }
    apply (within_bind 0 0 0 1 2 1); [apply within_self|intros c].
    apply (within_bind 0 0 0 1 2 1); [apply within_of_sum|intros _].
    apply (within_bind 1 2 1 0 0 0); [apply api_request_within|intros result].
    apply (within_bind 0 0 0 0 0 0); [apply within_time_time|intros t].
    apply (within_bind 0 0 0 0 0 0); [apply within_of_sum|intros title].
    apply (within_bind 0 0 0 0 0 0); [apply within_update_self|intros _; apply within_ret].
Qed.

End ClientCalls.

(** ** The retries of the program: the uploader with the client of the repository *)

Module RetryPolicy.
Import ProductUploader WeChatShopAPIClient SingleUpload Responses ClientCalls.





End RetryPolicy.

(** ** The uploader: what it accepts, how it is set up, what it reports *)

Module UploaderChecks.
Import ProductUploader SingleUpload Scenarios.

(** The fields [_validate_product_data] requires *)
Definition required_fields : list string := ["title"; "head_imgs"; "price"; "cats"].

Definition filled (d : pydict) (k : string) : Prop :=
  exists v, dict_get d k = Some v /\ truthy v = true.

Lemma required_fields_present_dict fields d :
  required_fields_present fields (VDict d) = inr true <-> Forall (filled d) fields.
Proof.
  induction fields as [|f fields IH]; cbn; [by split; [constructor|]|].
  unfold dict_has. destruct (dict_get d f) as [v|] eqn:E.
  - destruct (truthy v) eqn:Hv.
    + rewrite IH. split; [intros H; constructor; [by exists v|done]|by inversion 1].
    + split; [done|]. inversion 1 as [|? ? (v' & Hv' & Ht) ?]; subst. congruence.
  - split; [done|]. inversion 1 as [|? ? (v' & Hv' & Ht) ?]; subst. congruence.
Qed.

Lemma required_fields_present_dict_bool fields d :
  exists b, required_fields_present fields (VDict d) = inr b.
Proof.
  induction fields as [|f fields IH]; cbn; [by eexists|].
  destruct (dict_has d f) eqn:E; [|by eexists].
  unfold dict_has in E. destruct (dict_get d f) as [v|]; [|done].
  destruct (truthy v); [done|by eexists].
Qed.

(** [_validate_product_data] accepts a product dictionary exactly when
    each of [title], [head_imgs], [price] and [cats] is present with a
    truthy value (so a price of 0, an empty title or an empty list of
    images is turned down), [head_imgs] has a length, and [float()]
    takes the price. *)
Theorem validation_accepts_exactly float_parses d :
  _validate_product_data float_parses (VDict d) = inr true
  <-> Forall (filled d) required_fields
      /\ (exists imgs n, dict_get d "head_imgs" = Some imgs /\ len imgs = inr n)
      /\ (exists p, dict_get d "price" = Some p /\ price_is_float float_parses p = inr true).
Proof.
  unfold _validate_product_data.
  destruct (required_fields_present_dict_bool required_fields d) as [b Hb].
  fold required_fields. rewrite Hb.
  destruct b.
  2:{ split; [done|]. intros [H _]. apply required_fields_present_dict in H. congruence. }
  pose proof (proj1 (required_fields_present_dict _ _) Hb) as Hall.
  assert (Hi : filled d "head_imgs") by (eapply Forall_forall; [exact Hall|set_solver]).
  assert (Hp : filled d "price") by (eapply Forall_forall; [exact Hall|set_solver]).
  destruct Hi as (imgs & Hi & Hit). destruct Hp as (p & Hp & Hpt).
  cbn [get_method contains getitem]. unfold dict_get_default, dict_has. rewrite Hi, Hp.
  destruct (len imgs) as [e|n] eqn:Hlen.
  { split; [done|]. intros (_ & (imgs' & n & Hi' & Hn) & _). congruence. }
  assert (n <> 0)%Z as Hn.
  { destruct imgs as [| | | | |s0|l|l]; try discriminate; cbn in Hlen, Hit;
      injection Hlen as <-; [destruct s0|destruct l|destruct l]; try done; cbn; lia. }
  apply Z.eqb_neq in Hn. rewrite Hn.
  split.
  - intros H. split; [done|]. split; [by exists imgs, n|by exists p].
  - intros (_ & _ & (p' & Hp' & H)). congruence.
Qed.

Section Uploader.
Variable Client : Type.
Variable new_client : value -> value -> pydict -> Client.
Variable client_add_product : value -> M (Client * world) value.
Variable cfg_app_id cfg_app_secret cfg_api_base_url : value.
Variable float_parses : string -> bool.

(** [_validate_config] leaves the five upload settings present and
    within their ranges (batch size 1..100, interval 0.1..60, retries
    0..10, timeout 5..300, concurrency 1..20); settings that are already
    within them are kept as they are, and a missing [upload] section
    becomes the defaults 10, 1, 3, 30 and 5. *)
Theorem settings_in_range_after_validation (u : uploader Client) :
  (exists upl, config_upload (_validate_config u) = Some upl /\ validated upl)
  /\ (forall upl, config_upload u = Some upl -> validated upl ->
        config_upload (_validate_config u) = Some upl)
  /\ (config_upload u = None ->
        config_upload (_validate_config u)
          = Some (MkUploadConfig (Some 10%Z) (Some 1%Q) (Some 3%Z) (Some 30%Q) (Some 5%Z))).
Proof.
  split; [|split].
  - unfold _validate_config. cbn. eexists. split; [reflexivity|].
    unfold validated. cbn.
    split; [apply validate_Z_range; lia|].
    split; [apply validate_Q_range; unfold Qle; cbn; lia|].
    split; [apply validate_Z_range; lia|].
    split; [apply validate_Q_range; unfold Qle; cbn; lia|].
    apply validate_Z_range; lia.
  - intros upl Hu ((bs & Hbs & ?) & (ri & Hri & ? & ?) & (mr & Hmr & ?)
                   & (t & Ht & ? & ?) & (mc & Hmc & ?)).
    unfold _validate_config. rewrite Hu. cbn. destruct upl; cbn in *. subst.
    unfold validate_Z, validate_Q.
    repeat match goal with
           | |- context [(?a <=? ?b)%Z] =>
               rewrite (proj2 (Z.leb_le a b)) by lia
           | |- context [Qle_bool ?a ?b] =>
               rewrite (proj2 (Qle_bool_iff a b)) by done
           end.
    done.
  - intros Hu. unfold _validate_config. by rewrite Hu.
Qed.

(** When [add_product] answers with [errcode] 0 the upload is over: the
    call returns [(True, response)] with the response untouched, logs
    one attempt and the success, keeps the client [add_product] left,
    and the world is the one [add_product] left, so the uploader neither
    sleeps nor calls again. *)
Theorem accepted_response_ends_upload product upl u w c c' w' rd retry_count :
  _validate_product_data float_parses product = inr true ->
  api_client u = Some c ->
  config_upload u = Some upl ->
  client_add_product product (c, w) = (Ret (VDict rd), (c', w')) ->
  eq_int (dict_get_default rd "errcode" VNone) 0 = true ->
  exists t,
    getitem product "title" = inr t
    /\ upload_single_product Client new_client client_add_product
         cfg_app_id cfg_app_secret cfg_api_base_url float_parses
         product retry_count (u, w)
       = (Ret (true, VDict rd),
          (MkUploader (config_api u) (config_upload u) (Some c')
             (log u ++ [LogAttempt t (retry_count + 1);
                        LogUploaded t (dict_get_default rd "product_id" (VStr EmptyString))]),
           w')).
Proof.
  intros Hvalid Hc Hu Hcall Hok.
  destruct (valid_product_titled Client new_client client_add_product
              cfg_app_id cfg_app_secret cfg_api_base_url float_parses product Hvalid)
    as (d & t & -> & Ht).
  exists t. split; [cbn; by rewrite Ht|].
  unfold upload_single_product.
  assert (rd <> []) as Hrd by (intros ->; discriminate).
  rewrite (call_uploaded Client new_client client_add_product
             cfg_app_id cfg_app_secret cfg_api_base_url float_parses
             d t upl u w c c' w' _ retry_count _ Hvalid Ht Hc Hu Hcall rd eq_refl Hrd Hok).
  unfold after_call, add_log, set_api_client. cbn. by rewrite <- app_assoc.
Qed.

Definition succeeded (ds : list detail) : list detail :=
  filter (fun d => detail_success d = true) ds.

Definition failures (ds : list detail) : list detail :=
  filter (fun d => detail_success d = false) ds.

Lemma fold_record_detail_counts ds r :
  success (fold_left record_detail ds r) = (success r + Z.of_nat (length (succeeded ds)))%Z
  /\ failed (fold_left record_detail ds r) = (failed r + Z.of_nat (length (failures ds)))%Z
  /\ details (fold_left record_detail ds r) = details r ++ ds
  /\ total (fold_left record_detail ds r) = total r.
Proof.
  revert r. induction ds as [|d ds IH]; intros r; cbn [fold_left].
  { rewrite app_nil_r. cbn. repeat split; lia. }
  destruct (IH (record_detail r d)) as (Hs & Hf & Hd & Ht).
  rewrite Hs, Hf, Hd, Ht. unfold succeeded, failures.
  rewrite !filter_cons. unfold record_detail.
  destruct (detail_success d); cbn [success failed details total];
    repeat case_decide; try done;
    cbn [length]; rewrite <- ?app_assoc; repeat split; try done; lia.
Qed.

(** The summary a batch that ran from [start_time] to [end_time]
    computes from its records. *)
Definition summarises (r : results) (start_time end_time : Q) : Prop :=
  success r = Z.of_nat (length (succeeded (details r)))
  /\ failed r = Z.of_nat (length (failures (details r)))
  /\ total r = Z.of_nat (length (details r))
  /\ duration r = Some (rounded_duration start_time end_time)
  /\ success_rate r = Some (rounded_rate (success r) (total r)).

Lemma finalize_summarises ds n start_time end_time :
  length ds = n -> n <> 0 ->
  summarises (finalize (fold_left record_detail ds
                          (MkResults (Z.of_nat n) 0 0 [] None None))
                start_time end_time) start_time end_time.
Proof.
  intros Hn Hn0.
  destruct (fold_record_detail_counts ds (MkResults (Z.of_nat n) 0 0 [] None None))
    as (Hs & Hf & Hd & Ht).
  unfold summarises, finalize. cbn in *. rewrite Hs, Hf, Hd, Ht, Hn.
  repeat split; try done.
  replace (0 <? Z.of_nat n)%Z with true by (symmetry; apply Z.ltb_lt; lia).
  done.
Qed.

(** From a store that holds a client and validated settings, the
    summary of a non-empty batch of items that each have a title and a
    validation that does not raise, sequential or asynchronous, agrees
    with its records: [success] and [failed] count the records with
    and without success, [total] is their number, [duration] is
    [round(end - start, 2)] for the clock readings at the start and at
    the end, and [success_rate] is [round(success / total * 100, 2)],
    both as Python computes them on doubles. *)
Theorem batch_summary_counts_records products upl s :
  ready Client upl s ->
  validated upl ->
  Forall (fun p => item_ok float_parses p = true) products ->
  products <> [] ->
  (exists r s',
     upload_products Client new_client client_add_product
       cfg_app_id cfg_app_secret cfg_api_base_url float_parses products s = (Ret r, s')
     /\ summarises r (now s.2) (now s'.2))
  /\ (forall order, order ≡ₚ seq 0 (length products) ->
      exists r s',
        upload_products_async Client new_client client_add_product
          cfg_app_id cfg_app_secret cfg_api_base_url float_parses order products s
          = (Ret r, s')
        /\ summarises r (now s.2) (now s'.2)).
Proof.
  intros Hs Hv Hitems Hne.
  destruct products as [|p0 rest]; [done|].
  destruct (validated_pacing upl Hv) as (bsZ & ri & Hbs & Hbs1 & Hri & Hri0 & Hmc).
  split.
  - destruct (upload_products_run Client new_client client_add_product
                cfg_app_id cfg_app_secret cfg_api_base_url float_parses
                upl bsZ ri p0 rest s Hs Hbs Hbs1 Hri Hri0 Hitems)
      as (ds & s' & new & Hrun & _ & Hidx & _).
    eexists _, s'. split; [exact Hrun|].
    apply finalize_summarises; [|done].
    apply (f_equal length) in Hidx. by rewrite !length_map, length_seq in Hidx.
  - intros order Hperm.
    destruct (upload_products_async_run Client new_client client_add_product
                cfg_app_id cfg_app_secret cfg_api_base_url float_parses
                upl order p0 rest s Hs Hmc Hitems Hperm)
      as (ds & s' & Hrun & Hlen & _).
    eexists _, s'. split; [exact Hrun|].
    by apply finalize_summarises.
Qed.

End Uploader.

End UploaderChecks.

(** ** The state of the client: the cached token, the history *)

Module ClientState.
Import ProductUploader WeChatShopAPIClient Token Responses.

Lemma cached_token_is_served c w x :
  token_is_valid c (now w) = true ->
  token_expire_time c = Finite x ->
  _refresh_access_token (c, w) = (Ret (access_token c), (c, w)).
Proof.
  intros H Hx. unfold _refresh_access_token, bind, self, in_world, lift_snd, time_time.
  cbn [fst snd]. rewrite H. unfold remaining_seconds. by rewrite Hx.
Qed.

(** Where the [try] body comes to [return self.access_token], the
    world is as it was and the stored expiry is a number. *)
Lemma refresh_store_keeps body c w c' w' :
  refresh_store body (c, w) = (Ret true, (c', w')) ->
  w' = w /\ exists x, token_expire_time c' = Finite x.
Proof.
  unfold refresh_store, bind, of_sum, ret, raise, update_self, modify,
    WeChatShopAPIClient.in_world, lift_snd, time_time, self, get, fromtimestamp.
  intros H. revert H.
  repeat (break_match; cbn [fst snd] in *; try (intros; discriminate)).
  all: intros H; simplify_eq; cbn in *; try done.
  all: split; [done|]; eauto.
Qed.

(** A refresh that yields a token has sent one request to the token
    endpoint and has stored the token it returns, with an expiry that
    is a number. *)
Lemma refresh_fetches c w tok c' w' :
  token_is_valid c (now w) = false ->
  _refresh_access_token (c, w) = (Ret tok, (c', w')) ->
  truthy tok = true ->
  access_token c' = tok
  /\ count is_token_request (trace w') = count is_token_request (trace w) + 1
  /\ exists x, token_expire_time c' = Finite x.
Proof.
  intros Hexp Hrun Htok.
  unfold _refresh_access_token, bind, self, WeChatShopAPIClient.in_world, lift_snd,
    time_time, get, ret in Hrun.
  cbn [fst snd] in Hrun. rewrite Hexp in Hrun. cbn [fst snd] in Hrun.
  destruct (_check_config c w); cbn [negb] in Hrun; [|by simplify_eq].
  unfold try_catch, bind, of_sum in Hrun.
  destruct (refresh_prepare c w) as [e|req] eqn:Hp; cbn [raise ret fst snd] in Hrun;
    [by simplify_eq|].
  unfold send, bind, issue, receive in Hrun. cbn [fst snd] in Hrun.
  destruct (result (remote w (served w) req)) as [body|e]; cbn [fst snd] in Hrun;
    [|by simplify_eq].
  match type of Hrun with
  | context [refresh_store body ?st] =>
      destruct (refresh_store body st) as [[[|]|e1] [c1 w1]] eqn:Hst
  end; [|by simplify_eq|by simplify_eq].
  cbn [fst snd] in Hrun. simplify_eq.
  destruct (refresh_store_keeps _ _ _ _ _ Hst) as (-> & x & Hx).
  split; [done|]. split; [|by exists x].
  cbn [trace]. rewrite count_snoc. by rewrite (prepared_request_is_get _ _ _ Hp).
Qed.

(** A refresh that yields a token costs one request to the token
    endpoint and stores the token it returns, with an expiry that is a
    number; from then on, and as long as the clock is before the stored
    expiry, every call returns that same token and leaves the client
    and the world untouched: no further request is sent. *)
Theorem refreshed_token_is_reused c w tok c' w' :
  token_is_valid c (now w) = false ->
  _refresh_access_token (c, w) = (Ret tok, (c', w')) ->
  truthy tok = true ->
  access_token c' = tok
  /\ count is_token_request (trace w') = count is_token_request (trace w) + 1
  /\ exists x,
       token_expire_time c' = Finite x
       /\ forall w2, (now w2 < x)%Q ->
            _refresh_access_token (c', w2) = (Ret tok, (c', w2)).
Proof.
  intros Hexp Hrun Htok.
  destruct (refresh_fetches _ _ _ _ _ Hexp Hrun Htok) as (Hacc & Hcount & x & Hx).
  split; [done|]. split; [done|]. exists x. split; [done|].
  intros w2 Hw2. rewrite <- Hacc. apply (cached_token_is_served _ _ x); [|done].
  apply token_is_valid_spec. rewrite Hacc. split; [done|].
  apply flt_spec. left. by exists x.
Qed.

(** A record that [verify_upload_result] passes over: a dictionary
    whose [operation] is not [batch_upload_products]. *)
Definition passed_over (record : value) : Prop :=
  exists d, record = VDict d
            /\ is_VStr "batch_upload_products" (dict_get_default d "operation" VNone) = false.

Lemma find_report_passes records :
  Forall passed_over records -> find_report records = inr None.
Proof.
  induction 1 as [|r rs (d & -> & Hop) _ IH]; [done|].
  cbn. by rewrite Hop.
Qed.

Lemma verify_finds_nothing c w :
  Forall passed_over (operation_history c) ->
  verify_upload_result VNone (c, w) = (Ret (failure "未找到上传记录"), (c, w)).
Proof.
  intros H. unfold verify_upload_result, bind, WeChatShopAPIClient.self. cbn [fst snd truthy negb].
  rewrite find_report_passes; [done|]. by apply Forall_rev.
Qed.

(** A computation that keeps the history free of records
    [verify_upload_result] would pick. *)
Definition keeps_history {A} (m : M (client * world) A) : Prop :=
  forall s, Forall passed_over (operation_history s.1) ->
            Forall passed_over (operation_history (m s).2.1).

Lemma keeps_ret {A} (a : A) : keeps_history (ret a).
Proof. by intros s. Qed.

Lemma keeps_of_sum {A} (r : exn + A) : keeps_history (of_sum r).
Proof. by destruct r; intros s. Qed.

Lemma keeps_bind {A B} (m : M (client * world) A) (f : A -> M _ B) :
  keeps_history m -> (forall a, keeps_history (f a)) -> keeps_history (bind m f).
Proof.
  intros Hm Hf s H. unfold bind. specialize (Hm s H).
  destruct (m s) as [[a|e] s1]; [by apply Hf|done].
Qed.

Lemma keeps_try {A} (m : M (client * world) A) h :
  keeps_history m -> (forall e, keeps_history (h e)) -> keeps_history (try_catch m h).
Proof.
  intros Hm Hh s H. unfold try_catch. specialize (Hm s H).
  destruct (m s) as [[a|e] s1]; [done|by apply Hh].
Qed.

Lemma keeps_in_world {A} (m : M world A) : keeps_history (WeChatShopAPIClient.in_world m).
Proof.
  intros [c w] H. unfold WeChatShopAPIClient.in_world, lift_snd. cbn [fst snd].
  by destruct (m w).
Qed.

Lemma keeps_self : keeps_history WeChatShopAPIClient.self.
Proof. by intros s. Qed.

Lemma keeps_token_update f :
  (forall c, operation_history (f c) = operation_history c) ->
  keeps_history (WeChatShopAPIClient.update_self f).
Proof. intros Hf s H. cbn. by rewrite Hf. Qed.

Lemma keeps_refresh : keeps_history _refresh_access_token.
Proof.
  unfold _refresh_access_token.
  apply keeps_bind; [apply keeps_self|intros c].
  apply keeps_bind; [apply keeps_in_world|intros t].
  destruct (token_is_valid c t).
  { apply keeps_bind; [apply keeps_of_sum|intros _; apply keeps_ret]. }
  apply keeps_bind; [apply keeps_in_world|intros w].
  destruct (negb (_check_config c w)); [apply keeps_ret|].
  apply keeps_try; [|intros; apply keeps_ret].
  apply keeps_bind; [apply keeps_of_sum|intros req].
  apply keeps_bind; [apply keeps_in_world|intros result].
  apply keeps_bind.
  2:{ intros [|]; [|apply keeps_ret].
      apply keeps_bind; [apply keeps_self|intros c1; apply keeps_ret]. }
  unfold refresh_store.
  apply keeps_bind; [apply keeps_of_sum|intros [|]].
  - apply keeps_bind; [apply keeps_of_sum|intros tok].
    apply keeps_bind; [by apply keeps_token_update|intros _].
    apply keeps_bind; [apply keeps_in_world|intros t'].
    apply keeps_bind; [apply keeps_of_sum|intros e].
    apply keeps_bind; [apply keeps_of_sum|intros n].
    apply keeps_bind; [by apply keeps_token_update|intros _].
    apply keeps_bind; [apply keeps_self|intros c1].
    apply keeps_bind; [apply keeps_in_world|intros w1].
    apply keeps_bind; [apply keeps_of_sum|intros _; apply keeps_ret].
  - apply keeps_bind; [apply keeps_of_sum|intros _; apply keeps_ret].
Qed.

Lemma keeps_append record :
  passed_over record -> keeps_history (append_history record).
Proof.
  intros Hr s H. cbn. apply Forall_app. split; [done|by constructor].
Qed.

Lemma keeps_record op st de : keeps_history (_record_operation op st de).
Proof.
  unfold _record_operation.
  apply keeps_bind; [apply keeps_in_world|intros t].
  apply keeps_bind.
  { apply keeps_append. by eexists. }
  intros _. apply keeps_bind; [apply keeps_self|intros c].
  destruct (1000 <? _)%Z; [|apply keeps_ret].
  intros s H. cbn. destruct (operation_history s.1); [done|]. by inversion H.
Qed.

Lemma keeps_api_request pystr path m data : keeps_history (_api_request pystr path m data).
Proof.
  unfold _api_request.
  apply keeps_bind; [apply keeps_refresh|intros tok].
  destruct (negb (truthy tok)); [apply keeps_ret|].
  apply keeps_bind; [apply keeps_self|intros c].
  apply keeps_bind; [apply keeps_of_sum|intros base].
  apply keeps_try.
  - apply keeps_bind; [apply keeps_in_world|intros result].
    apply keeps_bind; [apply keeps_of_sum|intros [|]].
    + apply keeps_bind; [apply keeps_record|intros _; apply keeps_ret].
    + apply keeps_bind; [apply keeps_of_sum|intros errcode].
      apply keeps_bind; [apply keeps_of_sum|intros errmsg].
      apply keeps_bind; [apply keeps_record|intros _; apply keeps_ret].
  - intros e. destruct (is_RequestException (exn_cls e)).
    + apply keeps_bind; [apply keeps_record|intros _].
      apply keeps_bind; [|intros [r|]; apply keeps_ret].
      destruct (is_network_error (exn_cls e)); [|apply keeps_ret].
      apply keeps_bind; [apply keeps_in_world|intros _].
      apply keeps_try; [|intros; apply keeps_ret].
      apply keeps_bind; [apply keeps_in_world|intros result].
      apply keeps_bind; [apply keeps_of_sum|intros [|]]; [|apply keeps_ret].
      apply keeps_bind; [apply keeps_record|intros _; apply keeps_ret].
    + apply keeps_bind; [apply keeps_record|intros _; apply keeps_ret].
Qed.

Lemma keeps_add_product pystr product : keeps_history (add_product pystr product).
Proof.
  unfold add_product.
  apply keeps_bind; [apply keeps_of_sum|intros [field|]]; [apply keeps_ret|].
  apply keeps_try; [|intros; apply keeps_ret].
  apply keeps_bind; [apply keeps_self|intros c].
  apply keeps_bind; [apply keeps_of_sum|intros path].
  apply keeps_bind; [apply keeps_api_request|intros result].
  apply keeps_bind; [apply keeps_in_world|intros t].
  apply keeps_bind; [apply keeps_of_sum|intros pid].
  apply keeps_bind; [|intros _; apply keeps_ret].
  apply keeps_append. by eexists.
Qed.

Lemma keeps_upload_product pystr product : keeps_history (upload_product pystr product).
Proof.
  unfold upload_product.
  apply keeps_try; [|intros; apply keeps_ret].
  apply keeps_bind; [apply keeps_of_sum|intros [field|]]; [apply keeps_ret|].
  apply keeps_bind; [apply keeps_self|intros c].
  apply keeps_bind; [apply keeps_of_sum|intros _].
  apply keeps_bind; [apply keeps_api_request|intros result].
  apply keeps_bind; [apply keeps_in_world|intros t].
  apply keeps_bind; [apply keeps_of_sum|intros title].
  apply keeps_bind; [|intros _; apply keeps_ret].
  apply keeps_append. by eexists.
Qed.

(** The calls a session makes on the client. *)
Inductive call : Type :=
| AddProduct (product : value)
| UploadProduct (product : value)
| GetAccessToken.

Definition perform (pystr : value -> string) (k : call) (s : client * world) : client * world :=
  match k with
  | AddProduct p => (add_product pystr p s).2
  | UploadProduct p => (upload_product pystr p s).2
  | GetAccessToken => (get_access_token s).2
  end.

(** However many products were sent through [add_product] and
    [upload_product] on a client since it was constructed, and whatever
    the remote answered, [verify_upload_result()] without a report finds
    none: it looks for history records named [batch_upload_products],
    and these methods record under other names. It returns the failure
    "no upload record" and changes nothing. *)
Theorem verification_never_finds_a_report WECHAT_API_CONFIG API_PATHS pystr
    appid appsecret config calls w :
  verify_upload_result VNone
    (fold_left (fun s k => perform pystr k s) calls
       (WeChatShopAPIClient.__init__ WECHAT_API_CONFIG API_PATHS appid appsecret config, w))
  = (Ret (failure "未找到上传记录"),
     fold_left (fun s k => perform pystr k s) calls
       (WeChatShopAPIClient.__init__ WECHAT_API_CONFIG API_PATHS appid appsecret config, w)).
Proof.
  set (s0 := (WeChatShopAPIClient.__init__ _ _ _ _ _, w)).
  assert (H0 : Forall passed_over (operation_history s0.1)) by constructor.
  clearbody s0. revert s0 H0.
  induction calls as [|k calls IH]; intros s0 H0; cbn [fold_left].
  - destruct s0. by apply verify_finds_nothing.
  - apply IH. destruct k; cbn [perform].
    + by apply keeps_add_product.
    + by apply keeps_upload_product.
    + by apply keeps_refresh.
Qed.

End ClientState.

(** ** The connection test *)

Module Connection.
Import ProductUploader.

Section Connection.
Variable Client : Type.
Variable new_client : value -> value -> pydict -> Client.
Variable cfg_app_id cfg_app_secret cfg_api_base_url : value.
Variable client_get_access_token : M (Client * world) value.

Let test :=
  test_connection Client new_client cfg_app_id cfg_app_secret cfg_api_base_url
    client_get_access_token.
Let initialize :=
  _initialize_api_client Client new_client cfg_app_id cfg_app_secret cfg_api_base_url.

(** [test_connection] never raises: it answers [True] exactly when
    [get_access_token] hands back a truthy token and [False] when the
    call raises or yields nothing; and where [upload_single_product]
    raises on a missing client whose initialisation fails,
    [test_connection] answers [False]. *)
Theorem connection_test_never_raises s :
  (exists b s', test s = (Ret b, s'))
  /\ (forall c o c' w',
        api_client s.1 = Some c ->
        client_get_access_token (c, s.2) = (o, (c', w')) ->
        test s = (Ret (match o with Ret tok => truthy tok | Raise _ => false end),
                  (set_api_client (Some c') s.1, w')))
  /\ (forall e s1,
        api_client s.1 = None ->
        initialize s = (Raise e, s1) ->
        test s = (Ret false, s1)).
Proof.
  split; [|split].
  - unfold test, test_connection, try_catch.
    match goal with |- context [bind ?m ?f s] => destruct (bind m f s) as [[b|e] s'] end;
      eauto.
  - intros c o c' w' Hc Hcall. destruct s as [u w]. cbn [fst snd] in *.
    unfold test, test_connection, try_catch, bind, ProductUploader.self, ret,
      call_get_access_token.
    cbn [fst snd]. rewrite Hc. cbn [fst snd]. rewrite Hc. cbn [fst snd]. rewrite Hc, Hcall. by destruct o.
  - intros e s1 Hc Hinit. destruct s as [u w]. cbn [fst snd] in *.
    unfold test, test_connection, try_catch, bind, ProductUploader.self.
    cbn [fst snd]. rewrite Hc. fold initialize. by rewrite Hinit.
Qed.

End Connection.

End Connection.

(** ** A freshly constructed client; a product that is no container *)

Module Setup.
Import ProductUploader WeChatShopAPIClient Token Responses ClientState.

Lemma dict_get_set_same d k v : dict_get (dict_set d k v) k = Some v.
Proof.
  induction d as [|[k' v'] d IH]; cbn; [by rewrite String.eqb_refl|].
  destruct (String.eqb k' k) eqn:E; cbn; [by rewrite String.eqb_refl|by rewrite E].
Qed.

Lemma dict_get_set_other d k v k' :
  k' <> k -> dict_get (dict_set d k v) k' = dict_get d k'.
Proof.
  intros Hne. induction d as [|[k0 v0] d IH]; cbn.
  - assert (String.eqb k k' = false) as -> by (apply String.eqb_neq; congruence). done.
  - destruct (String.eqb k0 k) eqn:E; cbn.
    + apply String.eqb_eq in E as ->.
      assert (String.eqb k k' = false) as -> by (apply String.eqb_neq; congruence).
      done.
    + by rewrite IH.
Qed.

Section Constructed.
Variable WECHAT_API_CONFIG API_PATHS : pydict.

Let new := WeChatShopAPIClient.__init__ WECHAT_API_CONFIG API_PATHS.

(** Credentials given to the constructor win over [api_config] and
    over the module's configuration, and the environment wins over
    them: the token request of a client built with a non-empty [appid]
    and [appsecret] is a GET that carries [WECHAT_APPID] and
    [WECHAT_APPSECRET] when these are set (even to the empty string),
    and the constructor's values otherwise. *)
Theorem explicit_credentials_reach_token_request appid appsecret config :
  truthy appid = true ->
  truthy appsecret = true ->
  dict_get (api_config (new appid appsecret config)) "appid" = Some appid
  /\ dict_get (api_config (new appid appsecret config)) "appsecret" = Some appsecret
  /\ forall w req,
       refresh_prepare (new appid appsecret config) w = inr req ->
       req_method req = GET
       /\ req_params req =
            [("grant_type", VStr "client_credential");
             ("appid", environ_or w "WECHAT_APPID" appid);
             ("secret", environ_or w "WECHAT_APPSECRET" appsecret)].
Proof.
  intros Ha Hs.
  assert (H1 : dict_get (api_config (new appid appsecret config)) "appid" = Some appid).
  { unfold new, WeChatShopAPIClient.__init__. cbn [api_config]. rewrite Ha, Hs.
    rewrite dict_get_set_other by discriminate. apply dict_get_set_same. }
  assert (H2 : dict_get (api_config (new appid appsecret config)) "appsecret" = Some appsecret).
  { unfold new, WeChatShopAPIClient.__init__. cbn [api_config]. rewrite Ha, Hs.
    apply dict_get_set_same. }
  split; [done|]. split; [done|].
  intros w req. unfold refresh_prepare. cbn [getitem]. rewrite H1, H2.
  destruct (dict_get _ "api_base_url"); [|done].
  by intros [= <-].
Qed.

(** A freshly built client never serves the [access_token] of its
    configuration: its expiry starts at 0, so the first call, at any
    clock reading from 0 on, returns (it never raises) either nothing or
    a token it has just fetched with one request and stored. *)
Theorem configured_token_is_not_served appid appsecret config w :
  (0 <= now w)%Q ->
  exists tok s',
    _refresh_access_token (new appid appsecret config, w) = (Ret tok, s')
    /\ (truthy tok = true ->
        access_token s'.1 = tok
        /\ count is_token_request (trace s'.2) = count is_token_request (trace w) + 1).
Proof.
  intros Hnow.
  assert (Hexp : token_is_valid (new appid appsecret config) (now w) = false).
  { unfold token_is_valid. apply andb_false_iff. right.
    unfold new, WeChatShopAPIClient.__init__. cbn [token_expire_time flt].
    unfold Qlt_bool. apply negb_false_iff. by apply Qle_bool_iff. }
  destruct (_refresh_access_token (new appid appsecret config, w)) as [[tok|e] [c' w']] eqn:Hrun.
  - exists tok, (c', w'). split; [done|]. intros Htok.
    destruct (refresh_fetches _ _ _ _ _ Hexp Hrun Htok) as (? & ? & _). done.
  - exfalso. revert Hrun.
    unfold _refresh_access_token, bind, WeChatShopAPIClient.self,
      WeChatShopAPIClient.in_world, lift_snd, time_time, get, ret, try_catch.
    cbn [fst snd]. rewrite Hexp. cbn [fst snd].
    repeat (break_match; try discriminate).
Qed.

End Constructed.

(** [None], a boolean or a number in the place of a product. *)
Definition is_scalar (v : value) : bool :=
  match v with
  | VNone | VBool _ | VInt _ | VFloat _ | VSpecial _ => true
  | _ => false
  end.

(** The validation runs before the [try] statement of
    [upload_single_product]: for a product that is [None], a boolean or
    a number, [field not in product_data] raises [TypeError], and the
    call raises it instead of returning a tuple, leaving everything as
    it was. *)
Theorem scalar_product_raises Client new_client add a b c fp product retry_count s :
  is_scalar product = true ->
  _validate_product_data fp product = inl (MkExn TypeError "argument is not iterable")
  /\ upload_single_product Client new_client add a b c fp product retry_count s
     = (Raise (MkExn TypeError "argument is not iterable"), s).
Proof.
  intros H. by destruct product.
Qed.

End Setup.

(** ** Products loaded from CSV; a client without the path *)

Module CsvProducts.
Import ProductCsv ProductUploader WeChatShopAPIClient Responses.

(** The keys of a product that comes from a CSV row. *)
Definition csv_product_keys : list string :=
  ["title"; "sub_title"; "short_title"; "desc_info"; "deliver_method"; "cats";
   "cats_v2"; "head_imgs"; "extra_service"; "skus"; "listing"].

Lemma converted_keys int_of_string strip row product :
  convert_csv_to_product_format int_of_string strip row = inr product ->
  exists d, product = VDict d /\ map fst d = csv_product_keys.
Proof.
  unfold convert_csv_to_product_format, and_then.
  repeat (break_match; try discriminate).
  all: intros [= <-]; eexists; split; [reflexivity|]; reflexivity.
Qed.

Section Loaded.
Variable int_of_string : string -> option Z.
Variable strip : string -> string.

Let convert := convert_csv_to_product_format int_of_string strip.
Let load := load_products_from_rows int_of_string strip.

Lemma first_missing_absent skip fields d f :
  first_missing skip fields (VDict d) = inr (Some f) -> dict_get d f = None.
Proof.
  induction fields as [|x fields IH]; cbn; [done|].
  destruct (skip x); [done|]. unfold dict_has.
  destruct (dict_get d x) eqn:E; [done|]. by intros [= <-].
Qed.

(** A product that comes out of [convert_csv_to_product_format] is
    turned down by every upload path of the repository, whatever the
    row held: it has no top-level [price], so [_validate_product_data]
    answers [False]; no [product_name], so [add_product] stops at its
    first required field; and no [desc], so [upload_product] stops
    there. Neither client method touches the client or the network. *)
Theorem csv_products_are_rejected row product :
  convert row = inr product ->
  (forall float_parses, _validate_product_data float_parses product = inr false)
  /\ (forall pystr s,
        add_product pystr product s = (Ret (failure "缺少必填字段: product_name"), s))
  /\ (forall pystr s,
        upload_product pystr product s = (Ret (failure "缺少必填字段: desc"), s)).
Proof.
  intros H. unfold convert in H.
  unfold convert_csv_to_product_format, and_then in H.
  revert H. repeat (break_match; try discriminate).
  all: intros [= <-]; split; [|split; reflexivity].
  all: intros fp; unfold _validate_product_data; cbn;
    repeat (break_match; try done).
Qed.

Lemma convert_rows_length rows products :
  convert_rows int_of_string strip rows = inr products ->
  Forall2 (fun row product => convert row = inr product) rows products.
Proof.
  revert products. induction rows as [|row rows IH]; intros products; cbn.
  { intros [= <-]. constructor. }
  unfold and_then. fold convert.
  destruct (convert row) as [e|p] eqn:Hp; [done|].
  destruct (convert_rows int_of_string strip rows) as [e|ps]; [done|].
  intros [= <-]. constructor; [done|by apply IH].
Qed.

(** [load_products_from_csv] is all or nothing: one row that fails to
    convert (a cell that is not a string, a count that [int()] does not
    take) makes it return the empty list, dropping the rows that had
    converted; when every row converts it returns their products, one
    per row, in order. *)
Theorem one_bad_row_loses_the_file rows :
  (Exists (fun row => exists e, convert row = inl e) rows -> load rows = [])
  /\ (Forall (fun row => exists p, convert row = inr p) rows ->
      Forall2 (fun row product => convert row = inr product) rows (load rows)).
Proof.
  split.
  - intros H. unfold load, load_products_from_rows.
    destruct (convert_rows int_of_string strip rows) as [e|ps] eqn:E; [done|].
    apply convert_rows_length in E. exfalso.
    induction E as [|row p rows ps Hp _ IH]; [by inversion H|].
    inversion H as [? ? (e & He)|]; subst; [congruence|by apply IH].
  - intros H. unfold load, load_products_from_rows.
    destruct (convert_rows int_of_string strip rows) as [e|ps] eqn:E;
      [|by apply convert_rows_length].
    exfalso. induction H as [|row rows (p & Hp) _ IH]; [done|].
    cbn in E. unfold and_then in E. fold convert in E. rewrite Hp in E.
    destruct (convert_rows int_of_string strip rows); [by apply IH|done].
Qed.

End Loaded.

(** Every field of [fields] is a key of [d]. *)
Definition complete (fields : list string) (d : pydict) : Prop :=
  Forall (fun f => dict_has d f = true) fields.

Lemma first_missing_complete skip fields d :
  complete (filter (fun f => skip f = false) fields) d ->
  first_missing skip fields (VDict d) = inr None.
Proof.
  unfold complete. induction fields as [|f fields IH]; [done|].
  rewrite filter_cons. cbn [first_missing contains]. destruct (skip f) eqn:E.
  - rewrite decide_False by done. apply IH.
  - rewrite decide_True by done. intros H. inversion H as [|? ? Hf Hrest]; subst.
    rewrite Hf. by apply IH.
Qed.

(** [add_product] reads [self.api_paths['add_product']] inside its
    [try]: when the configured paths have no such key, a product with
    every required field still fails, with the [KeyError] turned into
    the failure dictionary, before any token is fetched or anything is
    sent or recorded. *)
Theorem add_product_needs_its_path pystr d c w :
  complete (filter (fun f => String.eqb "product_id" f = false)
              WECHAT_SHOP_REQUIRED_FIELDS) d ->
  dict_get (api_paths c) "add_product" = None ->
  exists msg,
    add_product pystr (VDict d) (c, w) = (Ret (failure ("添加商品失败: " +:+ msg)), (c, w)).
Proof.
  intros Hd Hp. unfold add_product, bind.
  rewrite (first_missing_complete _ _ _ Hd). cbn [of_sum ret].
  unfold try_catch, bind, self, of_sum, getitem. cbn [fst snd]. rewrite Hp.
  by eexists.
Qed.


End CsvProducts.

(** ** Scenarios for the further properties *)

Module MoreScenarios.
Import ProductUploader WeChatShopAPIClient SingleUpload Token Scenarios.
Import Responses ClientCalls RetryPolicy UploaderChecks ClientState Setup ProductCsv CsvProducts.

(** The real uploader on a remote that accepts every submission. *)
Definition real_state : uploader client * world := (real_uploader, world0 7200 0).


Lemma uploader_never_succeeds_with_client_witness :
  exists resp s' new,
    Program.upload_single_product WECHAT_API_CONFIG0 API_PATHS0 pystr0
      VNone VNone VNone (fun _ => true) product0 0 real_state = (Ret (false, resp), s')
    /\ log s'.1 = log real_state.1 ++ new
    /\ attempts new = Z.to_nat (max_retries_of (settings 10)) + 1
    /\ journal new = linear_backoff (Z.to_nat (max_retries_of (settings 10))) 1.
Proof.
  apply (uploader_never_succeeds_with_client WECHAT_API_CONFIG0 API_PATHS0 pystr0
           VNone VNone VNone (fun _ => true) product0 (settings 10) real_state).
  - vm_compute; reflexivity.
  - split; [by eexists | reflexivity].
  - vm_compute; discriminate.
Defined.

(** Every one of the four submissions was accepted by the remote. *)
Lemma accepted_item_is_submitted_four_times :
  exists resp s',
    real_upload_single product0 0 real_state = (Ret (false, resp), s')
    /\ get_method resp "success" VNone = inr (VBool true)
    /\ count is_post (trace s'.2) = 4.
Proof. do 2 eexists. split; [vm_compute; reflexivity|]. split; reflexivity. Qed.

Lemma add_product_rejects_incomplete_witness :
  exists f,
    f ∈ WECHAT_SHOP_REQUIRED_FIELDS /\ f <> "product_id"
    /\ dict_get [("title", VStr "course"); ("price", VInt 299)] f = None
    /\ add_product pystr0 (VDict [("title", VStr "course"); ("price", VInt 299)])
         (client0, world0 7200 0)
       = (Ret (failure ("缺少必填字段: " +:+ f)), (client0, world0 7200 0)).
Proof.
  apply (add_product_rejects_incomplete pystr0
           [("title", VStr "course"); ("price", VInt 299)]
           (client0, world0 7200 0) "product_name").
  - set_solver.
  - discriminate.
  - reflexivity.
Defined.

Lemma accepted_response_ends_upload_witness :
  exists t,
    getitem product0 "title" = inr t
    /\ upload_single_product unit (fun _ _ _ => tt) (mock_add_product 0)
         VNone VNone VNone (fun _ => true) product0 0 (mock_uploader 10, world0 7200 0)
       = (Ret (true, VDict [("errcode", VInt 0); ("errmsg", VStr "remote")]),
          (MkUploader (config_api (mock_uploader 10)) (config_upload (mock_uploader 10))
             (Some tt)
             (log (mock_uploader 10)
                ++ [LogAttempt t (0 + 1);
                    LogUploaded t
                      (dict_get_default [("errcode", VInt 0); ("errmsg", VStr "remote")]
                         "product_id" (VStr EmptyString))]),
           world0 7200 0)).
Proof.
  apply (accepted_response_ends_upload unit (fun _ _ _ => tt) (mock_add_product 0)
           VNone VNone VNone (fun _ => true) product0 (settings 10)
           (mock_uploader 10) (world0 7200 0) tt tt (world0 7200 0)
           [("errcode", VInt 0); ("errmsg", VStr "remote")] 0).
  - vm_compute; reflexivity.
  - reflexivity.
  - reflexivity.
  - reflexivity.
  - reflexivity.
Defined.

Lemma batch_summary_counts_records_witness :
  (exists r s',
     upload_products unit (fun _ _ _ => tt) (mock_add_product 0)
       VNone VNone VNone (fun _ => true)
       [product0; product_without_price] (mock_state 10 0) = (Ret r, s')
     /\ summarises r (now (mock_state 10 0).2) (now s'.2))
  /\ (forall order, order ≡ₚ seq 0 (length [product0; product_without_price]) ->
      exists r s',
        upload_products_async unit (fun _ _ _ => tt) (mock_add_product 0)
          VNone VNone VNone (fun _ => true) order
          [product0; product_without_price] (mock_state 10 0) = (Ret r, s')
        /\ summarises r (now (mock_state 10 0).2) (now s'.2)).
Proof.
  apply (batch_summary_counts_records unit (fun _ _ _ => tt) (mock_add_product 0)
           VNone VNone VNone (fun _ => true)
           [product0; product_without_price] (settings 10) (mock_state 10 0)).
  - is_ready.
  - is_validated.
  - items_ok.
  - discriminate.
Defined.

(** The arithmetic of doubles at a few values: 0.1 and 0.1 + 0.2 are
    the doubles Python prints as 0.1 and 0.30000000000000004;
    [round(2.675, 2)] is 2.67, since the double 2.675 lies below the
    tie; 1e308 * 10 is [inf]; the largest integer that has a double is
    just below [2 ** 1024 - 2 ** 970]. *)
Lemma doubles_round_to_nearest :
  to_double (1 # 10) = Finite (3602879701896397 # 36028797018963968)
  /\ fadd (to_double (1 # 10)) (to_double (2 # 10))
     = Finite (1351079888211149 # 4503599627370496)
  /\ fround2 (to_double (2675 # 1000)) = to_double (267 # 100)
  /\ fmul (to_double (inject_Z (10 ^ 308))) 10 = Special PosInf
  /\ as_float (VInt (2 ^ 1024 - 2 ^ 970 - 1))
     = inr (Finite (inject_Z (2 ^ 1024 - 2 ^ 971)))
  /\ as_float (VInt (2 ^ 1024 - 2 ^ 970))
     = inl (MkExn OverflowError "int too large to convert to float").
Proof. repeat split; vm_compute; reflexivity. Qed.

(** 23 uploads of 160 done: the quotient times 100 is the double
    14.374999999999998, and the rate is 14.37, where the exact value
    14.375 would round to 14.38. *)
Lemma rate_is_rounded_as_a_double :
  rounded_rate 23 160 = of_float (to_double (1437 # 100))
  /\ rounded_rate 23 160 <> of_float (to_double (1438 # 100)).
Proof. split; [vm_compute; reflexivity|vm_compute; discriminate]. Qed.

Lemma refreshed_token_is_reused_witness :
  access_token
      (_refresh_access_token (client0, world0 7200 0)).2.1 = VStr "T0"
  /\ count is_token_request (trace (_refresh_access_token (client0, world0 7200 0)).2.2)
     = count is_token_request (trace (world0 7200 0)) + 1
  /\ exists x,
       token_expire_time (_refresh_access_token (client0, world0 7200 0)).2.1 = Finite x
       /\ forall w2, (now w2 < x)%Q ->
            _refresh_access_token ((_refresh_access_token (client0, world0 7200 0)).2.1, w2)
            = (Ret (VStr "T0"), ((_refresh_access_token (client0, world0 7200 0)).2.1, w2)).
Proof.
  apply (refreshed_token_is_reused client0 (world0 7200 0) (VStr "T0")
           (_refresh_access_token (client0, world0 7200 0)).2.1
           (_refresh_access_token (client0, world0 7200 0)).2.2).
  - vm_compute; reflexivity.
  - vm_compute; reflexivity.
  - reflexivity.
Defined.

Lemma record_operation_capped_witness :
  exists c',
    _record_operation (VStr "/channels/ec/product/add") "success" []
      (client_with_full_history, world0 7200 0) = (Ret tt, (c', world0 7200 0))
    /\ length (operation_history c') <= 1000
    /\ operation_history c'
       = (if (length (operation_history client_with_full_history) =? 1000)%nat
          then tail (operation_history client_with_full_history)
          else operation_history client_with_full_history)
         ++ [VDict [("timestamp", VFloat (now (world0 7200 0)));
                    ("type", VStr "/channels/ec/product/add");
                    ("status", VStr "success"); ("details", VDict [])]].
Proof.
  apply (History.record_operation_capped (VStr "/channels/ec/product/add") "success" []
           client_with_full_history (world0 7200 0)).
  vm_compute. lia.
Defined.

Lemma explicit_credentials_reach_token_request_witness :
  dict_get (api_config (WeChatShopAPIClient.__init__ WECHAT_API_CONFIG0 API_PATHS0
                          (VStr "wx0") (VStr "secret") api_settings)) "appid"
    = Some (VStr "wx0")
  /\ dict_get (api_config (WeChatShopAPIClient.__init__ WECHAT_API_CONFIG0 API_PATHS0
                             (VStr "wx0") (VStr "secret") api_settings)) "appsecret"
     = Some (VStr "secret")
  /\ forall w req,
       refresh_prepare (WeChatShopAPIClient.__init__ WECHAT_API_CONFIG0 API_PATHS0
                          (VStr "wx0") (VStr "secret") api_settings) w = inr req ->
       req_method req = GET
       /\ req_params req =
            [("grant_type", VStr "client_credential");
             ("appid", environ_or w "WECHAT_APPID" (VStr "wx0"));
             ("secret", environ_or w "WECHAT_APPSECRET" (VStr "secret"))].
Proof.
  apply (explicit_credentials_reach_token_request WECHAT_API_CONFIG0 API_PATHS0
           (VStr "wx0") (VStr "secret") api_settings).
  - reflexivity.
  - reflexivity.
Defined.

Lemma configured_token_is_not_served_witness :
  exists tok s',
    _refresh_access_token
      (WeChatShopAPIClient.__init__ WECHAT_API_CONFIG0 API_PATHS0
         (VStr "wx0") (VStr "secret") api_settings, world0 7200 0) = (Ret tok, s')
    /\ (truthy tok = true ->
        access_token s'.1 = tok
        /\ count is_token_request (trace s'.2)
           = count is_token_request (trace (world0 7200 0)) + 1).
Proof.
  apply (configured_token_is_not_served WECHAT_API_CONFIG0 API_PATHS0
           (VStr "wx0") (VStr "secret") api_settings (world0 7200 0)).
  vm_compute. discriminate.
Defined.

Lemma scalar_product_raises_witness :
  _validate_product_data (fun _ => true) VNone
    = inl (MkExn TypeError "argument is not iterable")
  /\ upload_single_product unit (fun _ _ _ => tt) (mock_add_product 0)
       VNone VNone VNone (fun _ => true) VNone 0 (mock_state 10 0)
     = (Raise (MkExn TypeError "argument is not iterable"), mock_state 10 0).
Proof.
  apply (scalar_product_raises unit (fun _ _ _ => tt) (mock_add_product 0)
           VNone VNone VNone (fun _ => true) VNone 0 (mock_state 10 0)).
  reflexivity.
Defined.

(** A stand-in for [int()] on strings of decimal digits, and for
    [strip()] on cells without blanks around them. *)
Fixpoint digits (s : string) (acc : Z) : option Z :=
  match s with
  | EmptyString => Some acc
  | String a rest =>
      let n := Z.of_nat (Ascii.nat_of_ascii a) in
      if (48 <=? n)%Z && (n <=? 57)%Z then digits rest (acc * 10 + (n - 48))%Z
      else None
  end.

Definition int_of_digits (s : string) : option Z :=
  match s with
  | EmptyString => None
  | _ => digits s 0%Z
  end.

Definition no_strip (s : string) : string := s.

Definition row0 : value :=
  VDict [("商品标题", VStr "course"); ("副标题", VStr EmptyString);
         ("短标题", VStr EmptyString); ("商品描述", VStr "text");
         ("发货方式", VStr "0"); ("一级类目ID", VStr "100");
         ("二级类目ID", VStr EmptyString); ("三级类目ID", VStr "300");
         ("主图1", VStr "https://img/1.jpg"); ("SKU价格(分)", VStr "299");
         ("SKU库存", VStr "10"); ("SKU编码", VStr EmptyString);
         ("上架状态", VStr "1")].

(** The product [row0] converts to. *)
Definition product_of_row0 : value :=
  VDict [("title", VStr "course"); ("sub_title", VStr EmptyString);
         ("short_title", VStr EmptyString);
         ("desc_info", VDict [("desc", VStr "text"); ("imgs", VList [])]);
         ("deliver_method", VInt 0);
         ("cats", VList [VDict [("cat_id", VStr "100")]; VDict [("cat_id", VStr "300")]]);
         ("cats_v2", VList [VDict [("cat_id", VStr "100")]; VDict [("cat_id", VStr "300")]]);
         ("head_imgs", VList [VStr "https://img/1.jpg"]);
         ("extra_service", VDict [("service_tags", VList [])]);
         ("skus", VList [VDict [("price", VInt 299); ("stock_num", VInt 10)]]);
         ("listing", VInt 1)].

Lemma csv_products_are_rejected_witness :
  (forall float_parses, _validate_product_data float_parses product_of_row0 = inr false)
  /\ (forall pystr s,
        add_product pystr product_of_row0 s
        = (Ret (failure "缺少必填字段: product_name"), s))
  /\ (forall pystr s,
        upload_product pystr product_of_row0 s
        = (Ret (failure "缺少必填字段: desc"), s)).
Proof.
  apply (csv_products_are_rejected int_of_digits no_strip row0 product_of_row0).
  vm_compute; reflexivity.
Defined.

(** A row whose count is not a number, after a good row: nothing is
    loaded. *)
Lemma bad_row_after_good_row :
  load_products_from_rows int_of_digits no_strip [row0] = [product_of_row0]
  /\ load_products_from_rows int_of_digits no_strip
       [row0; VDict [("商品标题", VStr "other"); ("发货方式", VStr "soon")]] = [].
Proof. split; vm_compute; reflexivity. Qed.

(** A client whose configured paths lack [add_product]. *)
Definition client_without_path : client :=
  WeChatShopAPIClient.__init__ WECHAT_API_CONFIG0 [("access_token", VStr "/cgi-bin/token")]
    (VStr "wx0") (VStr "secret") api_settings.

Definition product0_fields : pydict :=
  match product0 with VDict d => d | _ => [] end.

Lemma add_product_needs_its_path_witness :
  exists msg,
    add_product pystr0 (VDict product0_fields) (client_without_path, world0 7200 0)
    = (Ret (failure ("添加商品失败: " +:+ msg)), (client_without_path, world0 7200 0)).
Proof.
  apply (add_product_needs_its_path pystr0 product0_fields client_without_path
           (world0 7200 0)).
  - vm_compute. repeat constructor.
  - reflexivity.
Defined.

End MoreScenarios.
